(** * ECG disease classifier: signal-to-diagnosis pipeline

    A shallow embedding of [flask-backend/ecg_utils.py] (conditioning, R-peak
    detection, segmentation, quality gating, normalisation) and of
    [flask-backend/app.py] (classification and majority vote, file names,
    column choice, temporary files and the two prediction endpoints), with
    the properties of the pipeline stated and proved over it.

    Numeric model.  Sample indices, lengths and the sampling rate are
    integers.  The thresholds [int(0.2 * rate)], [int(0.4 * rate)] and
    [int(0.6 * rate)] are computed with binary64 primitive floats, as Python
    does, and so is the band handed to [butter].  The percentages of the
    response are computed from integer counts: their two binary64
    operations are rounded as the hardware rounds them, on exact values.
    Signal samples and probabilities are exact rationals, extended with
    NaN and the two infinities where the code tests for them; the rounding of
    individual floating-point operations on samples is not modelled.
    scipy, wfdb, numpy percentiles and the Keras model are capabilities the
    code calls into: they are fields of an interface record. *)

From Stdlib Require Import ZArith QArith Qabs Qround Qpower List Bool Ascii String Lia Lqa Sorted.
From Stdlib Require Import Floats.PrimFloat Floats.SpecFloat Floats.FloatOps.
Import ListNotations.
Set Warnings "-inexact-float".
Open Scope Z_scope.

(* ===================================================================== *)
(** * Python and numpy primitives *)
(* ===================================================================== *)

(** Exceptions the pipeline raises or lets through. *)
Inductive exn :=
| ValueError (msg : string)
| KeyError (key : nat)
| ZeroDivisionError
| OverflowError.

Inductive result (A : Type) :=
| Ok (a : A)
| Raise (e : exn).
Arguments Ok {A} a.
Arguments Raise {A} e.

Definition bind {A B} (c : result A) (k : A -> result B) : result B :=
  match c with
  | Ok a => k a
  | Raise e => Raise e
  end.

(** [try: c except: h] with a bare [except]. *)
Definition try_except {A} (c : result A) (h : result A) : result A :=
  match c with
  | Ok a => Ok a
  | Raise _ => h
  end.

Definition py_len {A} (l : list A) : Z := Z.of_nat (List.length l).

(** Python slice bounds: a negative index counts from the end, and both
    ends are clipped to the sequence. *)
Definition py_slice_index (n i : Z) : Z :=
  if i <? 0 then Z.max 0 (n + i) else Z.min i n.

(** [l[start:stop]] *)
Definition py_slice {A} (l : list A) (start stop : Z) : list A :=
  let s := py_slice_index (py_len l) start in
  let e := py_slice_index (py_len l) stop in
  firstn (Z.to_nat (e - s)) (skipn (Z.to_nat s) l).

(** [range(start, stop, step)] for a positive step, by the number of
    values left to produce. *)
Fixpoint py_range_from (count : nat) (start step : Z) : list Z :=
  match count with
  | O => []
  | S c => start :: py_range_from c (start + step) step
  end.

Definition py_range (start stop step : Z) : list Z :=
  py_range_from (Z.to_nat ((stop - start + step - 1) / step)) start step.

(** [float(z)] for a Python int. *)
Definition py_float (z : Z) : float :=
  SF2Prim (binary_normalize prec emax z 0 false).

(** [int(f)]: truncation towards zero; NaN and the infinities raise. *)
Definition py_int (f : float) : result Z :=
  match Prim2SF f with
  | S754_zero _ => Ok 0
  | S754_finite s m e =>
      let mag := match e with
                 | Z0 => Zpos m
                 | Zpos k => Z.shiftl (Zpos m) (Zpos k)
                 | Zneg k => Z.shiftr (Zpos m) (Zpos k)
                 end in
      Ok (if s then - mag else mag)
  | S754_infinity _ => Raise OverflowError
  | S754_nan => Raise (ValueError "cannot convert float NaN to integer")
  end.

(** [int(c * rate)] for a float constant [c] and an integer rate. *)
Definition py_int_scaled (c : float) (rate : Z) : result Z :=
  py_int (PrimFloat.mul c (py_float rate)).

(** [z / 2] for a Python int: the quotient rounded once to binary64;
    a quotient too large for a float raises. *)
Definition py_half (z : Z) : result float :=
  let q := SF2Prim (binary_normalize prec emax z (-1) false) in
  if PrimFloat.is_infinity q then Raise OverflowError else Ok q.

(** [x / y] for floats: a zero divisor raises. *)
Definition py_fdiv (x y : float) : result float :=
  if PrimFloat.eqb y 0 then Raise ZeroDivisionError else Ok (PrimFloat.div x y).

(** [max(a, b)] and [min(a, b)]: the second argument wins only when it is
    strictly larger, respectively smaller. *)
Definition py_max_float (a b : float) : float := if PrimFloat.ltb a b then b else a.
Definition py_min_float (a b : float) : float := if PrimFloat.ltb b a then b else a.

(** ** Rationals *)

Definition Qltb (x y : Q) : bool := negb (Qle_bool y x).

Definition Qsum (l : list Q) : Q := fold_right Qplus 0%Q l.

(** [np.mean] of a non-empty sequence of finite values. *)
Definition np_mean (l : list Q) : Q := (Qsum l / inject_Z (py_len l))%Q.

(** Nearest integer, ties to the even one. *)
Definition round_half_even (x : Q) : Z :=
  let f := Qfloor x in
  match ((x - inject_Z f) ?= (1 # 2))%Q with
  | Lt => f
  | Gt => f + 1
  | Eq => if Z.even f then f else f + 1
  end.

(** [round(x, ndigits)], result in lowest terms. *)
Definition py_round (x : Q) (ndigits : nat) : Q :=
  let scale := inject_Z (10 ^ Z.of_nat ndigits) in
  Qred (inject_Z (round_half_even (x * scale)) / scale).

(** ** Binary64 operations on exact values *)

(** The binade of a positive rational: the [e] with [2^e <= x < 2^(e+1)]. *)
Definition binade (x : Q) : Z :=
  let e0 := Z.log2 (Qnum x) - Z.log2 (Zpos (Qden x)) in
  if Qle_bool (2 ^ e0) x then e0 else e0 - 1.

(** The binary64 number nearest to [x], ties to even: [x] rounded to 53
    significant bits.  The exponent is not bounded, so the result is the
    hardware's whenever that is a normal number, as it is for every
    quotient of counts and every percentage. *)
Definition binary64 (x : Q) : Q :=
  let x := Qred x in
  match Qnum x with
  | Z0 => 0%Q
  | _ => let quantum := (2 ^ (binade (Qabs x) - 52))%Q in
         Qred (inject_Z (round_half_even (x / quantum)) * quantum)
  end.

(** [a / b] for Python ints: the exact quotient rounded once. *)
Definition py_truediv (a b : Z) : Q := binary64 (inject_Z a / inject_Z b).

(** [x * y] for floats. *)
Definition py_fmul (x y : Q) : Q := binary64 (x * y).

(** The exact value of a float; none for NaN and the infinities. *)
Definition float_value (f : float) : option Q :=
  match Prim2SF f with
  | S754_zero _ => Some 0%Q
  | S754_finite s m e =>
      Some ((if s then inject_Z (Zneg m) else inject_Z (Zpos m)) * 2 ^ e)%Q
  | _ => None
  end.

(** ** Samples: finite values, infinities and NaN *)

Inductive sample :=
| Fin (q : Q)
| PInf
| NInf
| NaN.

Definition np_isnan (x : sample) : bool :=
  match x with NaN => true | _ => false end.

Definition np_isinf (x : sample) : bool :=
  match x with PInf | NInf => true | _ => false end.

Definition np_isfinite (x : sample) : bool :=
  match x with Fin _ => true | _ => false end.

(** [x < y] on floats: false as soon as one side is NaN. *)
Definition sample_ltb (x y : sample) : bool :=
  match x, y with
  | NaN, _ | _, NaN => false
  | Fin a, Fin b => Qltb a b
  | NInf, NInf => false
  | NInf, _ => true
  | _, PInf => match x with PInf => false | _ => true end
  | _, _ => false
  end.

(** [x <= y] on floats. *)
Definition sample_leb (x y : sample) : bool :=
  match x, y with
  | NaN, _ | _, NaN => false
  | Fin a, Fin b => Qle_bool a b
  | NInf, _ => true
  | _, PInf => true
  | _, _ => false
  end.

(** [x > y] is [y < x]. *)
Definition sample_gtb (x y : sample) : bool := sample_ltb y x.

(** [x - m] and [x / s] for a finite [m] and [s]. *)
Definition sample_sub (x : sample) (m : Q) : sample :=
  match x with
  | Fin q => Fin (q - m)
  | other => other
  end.

Definition sample_div (x : sample) (s : Q) : sample :=
  match x with
  | Fin q =>
      match (s ?= 0)%Q with
      | Eq => match (q ?= 0)%Q with Eq => NaN | Lt => NInf | Gt => PInf end
      | _ => Fin (q / s)
      end
  | PInf => match (s ?= 0)%Q with Lt => NInf | _ => PInf end
  | NInf => match (s ?= 0)%Q with Lt => PInf | _ => NInf end
  | NaN => NaN
  end.

(** The finite values of a sequence, when all of them are finite. *)
Fixpoint finite_values (l : list sample) : option (list Q) :=
  match l with
  | [] => Some []
  | Fin q :: r => option_map (cons q) (finite_values r)
  | _ :: _ => None
  end.

(** [np.var]: mean squared deviation from the mean; NaN for an empty
    sequence and as soon as a value is not finite. *)
Definition np_var (l : list sample) : sample :=
  match finite_values l with
  | Some (q :: qs) =>
      let mu := np_mean (q :: qs) in
      Fin (np_mean (map (fun x => (x - mu) * (x - mu))%Q (q :: qs)))
  | _ => NaN
  end.

(** [np.std(l) < bound] and [np.std(l) >= bound] for a positive bound,
    decided on the variance: [sqrt v < b] iff [v < b * b]. *)
Definition np_std_lt (l : list sample) (bound : Q) : bool :=
  sample_ltb (np_var l) (Fin (bound * bound)).

Definition np_std_ge (l : list sample) (bound : Q) : bool :=
  sample_leb (Fin (bound * bound)) (np_var l).

(** [np.abs] *)
Definition sample_abs (x : sample) : sample :=
  match x with
  | Fin q => Fin (Qabs q)
  | PInf | NInf => PInf
  | NaN => NaN
  end.

(** [np.maximum] of two values: NaN wins. *)
Definition sample_max (x y : sample) : sample :=
  match x, y with
  | NaN, _ | _, NaN => NaN
  | _, _ => if sample_ltb x y then y else x
  end.

(** [np.max]: raises on an empty array. *)
Definition np_max (l : list sample) : result sample :=
  match l with
  | [] => Raise (ValueError "zero-size array to reduction operation maximum which has no identity")
  | x :: r => Ok (fold_left sample_max r x)
  end.

(** [np.argmax] and [np.max] of one probability row: the first position
    of the largest value, and that value. *)
Fixpoint np_argmax_from (best_i : nat) (best : Q) (i : nat) (l : list Q) : nat :=
  match l with
  | [] => best_i
  | x :: r =>
      if Qltb best x then np_argmax_from i x (S i) r
      else np_argmax_from best_i best (S i) r
  end.

Definition np_argmax (row : list Q) : result nat :=
  match row with
  | [] => Raise (ValueError "attempt to get argmax of an empty sequence")
  | x :: r => Ok (np_argmax_from 0%nat x 1%nat r)
  end.

Fixpoint np_max_from (best : Q) (l : list Q) : Q :=
  match l with
  | [] => best
  | x :: r => if Qltb best x then np_max_from x r else np_max_from best r
  end.

Definition np_row_max (row : list Q) : result Q :=
  match row with
  | [] => Raise (ValueError "zero-size array to reduction operation maximum which has no identity")
  | x :: r => Ok (np_max_from x r)
  end.

(** Apply a fallible function to every element, left to right. *)
Fixpoint map_result {A B} (f : A -> result B) (l : list A) : result (list B) :=
  match l with
  | [] => Ok []
  | x :: r =>
      bind (f x) (fun y => bind (map_result f r) (fun ys => Ok (y :: ys)))
  end.

Notation "x <- c ;; k" := (bind c (fun x => k))
  (at level 61, c at next level, right associativity).

(* ===================================================================== *)
(** * ecg_utils.py *)
(* ===================================================================== *)

Definition signal := list sample.

(** Keyword arguments of [scipy.signal.find_peaks]; an absent keyword is
    [None]. *)
Record find_peaks_kwargs := {
  height : option sample;
  distance : option Z;
  prominence : option Q;
  width : option Q
}.

(** The numeric capabilities [ecg_utils.py] calls into. *)
Record Capabilities := {
  (** [filtfilt(b, a, x - np.mean(x))] for the order-4 band-pass
      [b, a = butter(4, [low, high], btype='band')] at this sampling rate,
      on an input long enough to be padded. *)
  butter_filtfilt : Z -> signal -> signal;
  (** [(x - np.mean(x)) / (np.std(x) + 1e-8)] *)
  np_zscore : signal -> signal;
  (** [np.percentile(x, q)] *)
  np_percentile : signal -> Z -> sample;
  (** [scipy.signal.find_peaks]; raises on invalid keyword values. *)
  find_peaks : signal -> find_peaks_kwargs -> result (list Z);
  (** [wfdb.processing.gqrs_detect]; raises when the package or the
      function is not available. *)
  gqrs_detect : signal -> Z -> result (list Z)
}.

(** Modelled from the spec: the length guard of the zero-phase filter, which
    is scipy's and not part of the sources (the conditioner fails when the
    signal is too short for stable filtering, about 3 times the filter
    order).  [butter(4, ..., btype='band')] returns [2 * 4 + 1] coefficients
    in [b] and in [a]; [filtfilt] pads by [3 * max(len(a), len(b))] samples
    at each end and raises unless the input is longer than that. *)
Definition butter_order : Z := 4.
Definition bandpass_ntaps : Z := 2 * butter_order + 1.
Definition filtfilt_padlen : Z := 3 * bandpass_ntaps.

Definition filtfilt_too_short : exn :=
  ValueError "The length of the input vector x must be greater than padlen, which is 27.".

Definition butter_bad_band : exn :=
  ValueError "Digital filter critical frequencies must be 0 < Wn < 1".

(** Modelled from scipy's documented behaviour: [butter] with
    [btype='band'] accepts a pair of critical frequencies only when
    [0 < low < high < 1], and raises a ValueError otherwise (the text of the
    message depends on the test that fails). *)
Definition butter_accepts (low_freq high_freq : float) : bool :=
  PrimFloat.ltb 0 low_freq && PrimFloat.ltb low_freq high_freq
  && PrimFloat.ltb high_freq 1.

(** Lines 30 to 36 of [preprocess_ecg]: the normalised band, clamped. *)
Definition butter_band (sampling_rate : Z) : result (float * float) :=
  nyquist <- py_half sampling_rate ;;
  low_freq <- py_fdiv 0.5 nyquist ;;
  high_freq <- py_fdiv 40 nyquist ;;
  let low_freq := py_max_float low_freq 0.001 in
  let high_freq := py_min_float high_freq 0.999 in
  Ok (low_freq, high_freq).

Definition no_valid_r_peaks : exn :=
  ValueError "No valid R-peaks found after boundary filtering".

Definition no_r_peaks_detected : exn :=
  ValueError "No R-peaks detected in continuous ECG signal. Check signal quality or try different parameters.".

Definition no_segments_extracted : exn :=
  ValueError "No valid heartbeat segments extracted. R-peaks may be too close to signal boundaries.".

Definition no_segments_after_validation : exn :=
  ValueError "No valid heartbeat segments after quality validation.".

Definition segment_length_mismatch : exn :=
  ValueError "Segment length mismatch.".

Definition scaler_feature_mismatch : exn :=
  ValueError "X has a different number of features than StandardScaler is expecting as input.".

(** Warnings the pipeline logs without failing. *)
Inductive warning :=
| ManySegmentsFilteredOut (remaining total : Z).

(** [sklearn.preprocessing.StandardScaler] after fitting: per-position mean
    and standard deviation. *)
Record StandardScaler := {
  mean_ : list Q;
  scale_ : list Q
}.

(** Modelled from the spec: the transform of the fitted scaler, an sklearn
    object unpickled at start-up whose code is not part of the sources:
    [output[i][j] = (input[i][j] - mean[j]) / std[j]], here along one row. *)
Fixpoint scale_row (means scales : list Q) (row : list sample) : list sample :=
  match row, means, scales with
  | x :: r, m :: ms, s :: ss => sample_div (sample_sub x m) s :: scale_row ms ss r
  | _, _, _ => []
  end.

(** Modelled from the spec: [scaler.transform(X)], which fails unless every
    row has as many positions as the scaler was fitted on. *)
Definition scaler_transform (scaler : StandardScaler) (X : list (list sample))
  : result (list (list sample)) :=
  if forallb (fun row => py_len row =? py_len (mean_ scaler)) X
  then Ok (map (scale_row (mean_ scaler) (scale_ scaler)) X)
  else Raise scaler_feature_mismatch.

(** [X.shape[1]] of a two-dimensional array given by its rows. *)
Definition np_shape1 {A} (X : list (list A)) : Z :=
  match X with
  | [] => 0
  | row :: _ => py_len row
  end.

(** The boundary filter of [detect_r_peaks]:
    [min_distance <= peak < len(ecg_signal) - min_distance]. *)
Definition boundary_filter (min_distance n : Z) (r_peaks : list Z) : list Z :=
  filter (fun peak => (min_distance <=? peak) && (peak <? n - min_distance)) r_peaks.

(** One iteration of the loop of [extract_heartbeat_segments]: the window
    of one peak, when it is kept. *)
Definition extract_one {A} (ecg_signal : list A) (half_length segment_length r_peak : Z)
  : option (list A) :=
  let start_idx := r_peak - half_length in
  let end_idx := r_peak + half_length in
  if (start_idx >=? 0) && (end_idx <? py_len ecg_signal) then
    let segment := py_slice ecg_signal start_idx end_idx in
    if py_len segment =? segment_length then Some segment else None
  else None.

Fixpoint extract_loop {A} (ecg_signal : list A) (half_length segment_length : Z)
  (r_peaks : list Z) : list (list A) :=
  match r_peaks with
  | [] => []
  | r_peak :: rest =>
      match extract_one ecg_signal half_length segment_length r_peak with
      | Some segment => segment :: extract_loop ecg_signal half_length segment_length rest
      | None => extract_loop ecg_signal half_length segment_length rest
      end
  end.

Definition extract_heartbeat_segments {A} (ecg_signal : list A) (r_peaks : list Z)
  (segment_length : Z) : list (list A) :=
  let half_length := segment_length / 2 in
  extract_loop ecg_signal half_length segment_length r_peaks.

(** The body of the loop of [validate_segments] for one segment: [true]
    when the segment is appended.  Every [continue] is a [false]; so is an
    exception, which the enclosing [try] turns into a [continue]. *)
Definition validate_one (expected_length : Z) (segment : list sample) : bool :=
  if negb (py_len segment =? expected_length) then false
  else if existsb np_isnan segment || existsb np_isinf segment then false
  else if np_std_lt segment (1 # 1000000) then false
  else match np_max (map sample_abs segment) with
       | Raise _ => false
       | Ok m => if sample_gtb m (Fin 100) then false else true
       end.

Fixpoint validate_loop (expected_length : Z) (segments valid_segments : list (list sample))
  : list (list sample) :=
  match segments with
  | [] => valid_segments
  | segment :: rest =>
      validate_loop expected_length rest
        (if validate_one expected_length segment
         then valid_segments ++ [segment] else valid_segments)
  end.

Definition validate_segments (segments : list (list sample)) (expected_length : Z)
  : list (list sample) :=
  validate_loop expected_length segments [].

Section EcgUtils.

Context (lib : Capabilities).

(** The filtering itself is scipy's; the code decides when it raises:
    [0.5 / nyquist] divides by zero at rate 0; [butter] rejects the clamped
    band [[max(0.5 / nyquist, 0.001), min(40 / nyquist, 0.999)]], computed in
    binary64 as the code does, when it is not an increasing pair inside
    (0, 1); and [filtfilt] rejects a signal no longer than its pad
    length. *)
Definition preprocess_ecg (ecg_signal : signal) (sampling_rate : Z) : result signal :=
  band <- butter_band sampling_rate ;;
  if negb (butter_accepts (fst band) (snd band)) then Raise butter_bad_band
  else if py_len ecg_signal <=? filtfilt_padlen then Raise filtfilt_too_short
  else Ok (butter_filtfilt lib sampling_rate ecg_signal).

Definition detect_r_peaks_scipy (ecg_signal : signal) (sampling_rate : Z)
  : result (list Z) :=
  let normalized_signal := np_zscore lib ecg_signal in
  min_distance <- py_int_scaled 0.6 sampling_rate ;;
  let height_threshold := np_percentile lib normalized_signal 75 in
  r_peaks <- find_peaks lib normalized_signal
               {| height := Some height_threshold; distance := Some min_distance;
                  prominence := Some (3 # 10)%Q; width := Some 1%Q |} ;;
  r_peaks <- (if py_len r_peaks <? 3 then
                d <- py_int_scaled 0.4 sampling_rate ;;
                find_peaks lib normalized_signal
                  {| height := Some (np_percentile lib normalized_signal 60);
                     distance := Some d;
                     prominence := Some (1 # 10)%Q; width := None |}
              else Ok r_peaks) ;;
  r_peaks <- (if py_len r_peaks <? 3 then
                d <- py_int_scaled 0.4 sampling_rate ;;
                find_peaks lib normalized_signal
                  {| height := None; distance := Some d;
                     prominence := Some (1 # 10)%Q; width := None |}
              else Ok r_peaks) ;;
  Ok r_peaks.

(** Whatever goes wrong on the way to [gqrs_detect] (the import, the newer
    and the older API) ends in an exception; otherwise its peaks are
    returned as they are. *)
Definition detect_r_peaks_wfdb (ecg_signal : signal) (sampling_rate : Z)
  : result (list Z) :=
  gqrs_detect lib ecg_signal sampling_rate.

(** The inner [try]/[except] of [detect_r_peaks]: WFDB first, the scipy
    strategies when it raises. *)
Definition candidate_peaks (ecg_signal : signal) (sampling_rate : Z) : result (list Z) :=
  try_except (detect_r_peaks_wfdb ecg_signal sampling_rate)
             (detect_r_peaks_scipy ecg_signal sampling_rate).

Definition detect_r_peaks (ecg_signal : signal) (sampling_rate : Z) : result (list Z) :=
  r_peaks <- candidate_peaks ecg_signal sampling_rate ;;
  min_distance <- py_int_scaled 0.2 sampling_rate ;;
  let valid_peaks := boundary_filter min_distance (py_len ecg_signal) r_peaks in
  if py_len valid_peaks =? 0 then Raise no_valid_r_peaks
  else Ok valid_peaks.

(** The pipeline, with the warning it may log next to its result.  The
    batch handed to the scaler is [np.array(validated_segments,
    dtype=np.float32)]: the validated segments, single precision aside. *)
Definition segment_ecg_beats (continuous_ecg : signal) (scaler : StandardScaler)
  (segment_length sampling_rate : Z) : result (list warning * list (list sample)) :=
  filtered_signal <- preprocess_ecg continuous_ecg sampling_rate ;;
  r_peaks <- detect_r_peaks filtered_signal sampling_rate ;;
  if py_len r_peaks =? 0 then Raise no_r_peaks_detected else
  let raw_segments := extract_heartbeat_segments filtered_signal r_peaks segment_length in
  if py_len raw_segments =? 0 then Raise no_segments_extracted else
  let validated_segments := validate_segments raw_segments segment_length in
  if py_len validated_segments =? 0 then Raise no_segments_after_validation else
  let warnings :=
    if 2 * py_len validated_segments <? py_len raw_segments
    then [ManySegmentsFilteredOut (py_len validated_segments) (py_len raw_segments)]
    else [] in
  normalized_segments <- scaler_transform scaler validated_segments ;;
  if negb (np_shape1 normalized_segments =? segment_length) then Raise segment_length_mismatch
  else Ok (warnings, normalized_segments).

End EcgUtils.

(* ===================================================================== *)
(** * app.py *)
(* ===================================================================== *)

(** [collections.Counter] over class indices: a dict, so the keys keep the
    order in which they were first inserted. *)
Definition counter := list (nat * nat).

Fixpoint counter_incr (k : nat) (c : counter) : counter :=
  match c with
  | [] => [(k, 1%nat)]
  | (k', n) :: c' =>
      if Nat.eqb k' k then (k', S n) :: c' else (k', n) :: counter_incr k c'
  end.

Definition Counter (xs : list nat) : counter :=
  fold_left (fun c k => counter_incr k c) xs [].

Definition counter_keys (c : counter) : list nat := map fst c.

(** [c.get(k)] for a key of the counter ([c[k]], 0 when absent). *)
Fixpoint counter_get (c : counter) (k : nat) : nat :=
  match c with
  | [] => 0%nat
  | (k', n) :: c' => if Nat.eqb k' k then n else counter_get c' k
  end.

(** [max(items, key=key)]: the running best is replaced only by an item
    whose key is strictly greater, so the first maximal item wins. *)
Fixpoint py_max_from {K} (key : K -> nat) (best : K) (items : list K) : K :=
  match items with
  | [] => best
  | x :: r => if Nat.ltb (key best) (key x) then py_max_from key x r
              else py_max_from key best r
  end.

Definition py_max {K} (key : K -> nat) (items : list K) : result K :=
  match items with
  | [] => Raise (ValueError "max() arg is an empty sequence")
  | x :: r => Ok (py_max_from key x r)
  end.

(** A dict with string keys, in insertion order. *)
Fixpoint dict_set {V} (k : string) (v : V) (d : list (string * V)) : list (string * V) :=
  match d with
  | [] => [(k, v)]
  | (k', v') :: d' =>
      if String.eqb k' k then (k', v) :: d' else (k', v') :: dict_set k v d'
  end.

Fixpoint dict_get {V} (d : list (string * V)) (k : string) : option V :=
  match d with
  | [] => None
  | (k', v) :: d' => if String.eqb k' k then Some v else dict_get d' k
  end.

(** [class_mapping[idx]] *)
Fixpoint mapping_lookup (class_mapping : list (nat * string)) (idx : nat) : result string :=
  match class_mapping with
  | [] => Raise (KeyError idx)
  | (k, name) :: rest => if Nat.eqb k idx then Ok name else mapping_lookup rest idx
  end.

Record class_stats := {
  segment_count : nat;
  percentage : Q;
  avg_confidence : Q
}.

Record diagnosis := {
  predicted_diagnosis : string;
  overall_confidence : Q;
  total_heartbeats : Z;
  continuous_samples : Z;
  segment_distribution : list (string * class_stats);
  preprocessing_success : bool;
  majority_vote_count : nat
}.

(** [[conf for i, conf in enumerate(segment_confidences)
      if segment_classes[i] == class_idx]]; both arrays hold one entry per
    probability row. *)
Definition confidences_of (segment_classes : list nat) (segment_confidences : list Q)
  (class_idx : nat) : list Q :=
  map snd (filter (fun p => Nat.eqb (fst p) class_idx)
             (combine segment_classes segment_confidences)).

(** [np.mean(values) if values else 0.0] *)
Definition mean_or_zero (values : list Q) : Q :=
  match values with
  | [] => 0%Q
  | _ => np_mean values
  end.

(** The state of the classification loop: the batches the classifier was
    called on so far, and the two accumulators. *)
Record classify_state := {
  predict_calls : list (list (list sample));
  all_predictions : list nat;
  all_confidences : list Q
}.

Section App.

Context (lib : Capabilities).
(** The artifacts [load_models] reads at start-up.  [model.predict] is
    Keras's: on a batch it raises, or returns one row of class
    probabilities per row of the batch as a 2-D array. *)
Variable model_predict : list (list sample) -> result (list (list Q)).
Variable scaler : StandardScaler.
Variable class_mapping : list (nat * string).

(** One iteration of [for i in range(0, len(X_segments), batch_size)]. *)
Definition classify_step (X_segments : list (list sample)) (batch_size : Z)
  (st : classify_state) (i : Z) : result classify_state :=
  let batch := py_slice X_segments i (i + batch_size) in
  batch_predictions <- model_predict batch ;;
  classes <- map_result np_argmax batch_predictions ;;
  confidences <- map_result np_row_max batch_predictions ;;
  Ok {| predict_calls := predict_calls st ++ [batch];
        all_predictions := all_predictions st ++ classes;
        all_confidences := all_confidences st ++ confidences |}.

Fixpoint classify_loop (X_segments : list (list sample)) (batch_size : Z)
  (starts : list Z) (st : classify_state) : result classify_state :=
  match starts with
  | [] => Ok st
  | i :: rest =>
      st' <- classify_step X_segments batch_size st i ;;
      classify_loop X_segments batch_size rest st'
  end.

Definition classify_segments (X_segments : list (list sample)) (batch_size : Z)
  : result classify_state :=
  classify_loop X_segments batch_size (py_range 0 (py_len X_segments) batch_size)
    {| predict_calls := []; all_predictions := []; all_confidences := [] |}.

(** The majority vote: [max(class_votes, key=class_votes.get)]. *)
Definition majority_class (segment_classes : list nat) : result nat :=
  let class_votes := Counter segment_classes in
  py_max (counter_get class_votes) (counter_keys class_votes).

(** The loop over [class_votes.items()] that fills [segment_distribution].
    The percentage is [round((vote_count / total_segments) * 100, 2)] on
    Python ints: quotient and product are binary64 operations, and the
    value reported is the decimal that [round] picks (the float returned is
    the one nearest to it). *)
Fixpoint distribution_loop (segment_classes : list nat) (segment_confidences : list Q)
  (total_segments : Z) (items : counter) (segment_distribution : list (string * class_stats))
  : result (list (string * class_stats)) :=
  match items with
  | [] => Ok segment_distribution
  | (class_idx_loop, vote_count) :: rest =>
      diagnosis_name <- mapping_lookup class_mapping class_idx_loop ;;
      let current := confidences_of segment_classes segment_confidences class_idx_loop in
      let avg := mean_or_zero current in
      let entry :=
        {| segment_count := vote_count;
           percentage :=
             if total_segments >? 0
             then py_round (py_fmul (py_truediv (Z.of_nat vote_count) total_segments) 100) 2
             else 0%Q;
           avg_confidence := py_round avg 4 |} in
      distribution_loop segment_classes segment_confidences total_segments rest
        (dict_set diagnosis_name entry segment_distribution)
  end.

(** Lines 236 to 266 of [process_ecg_file]: from the per-segment classes and
    confidences to the response. *)
Definition aggregate (segment_classes : list nat) (segment_confidences : list Q)
  (n_samples : Z) : result diagnosis :=
  let class_votes := Counter segment_classes in
  final_class_idx <- majority_class segment_classes ;;
  final_diagnosis <- mapping_lookup class_mapping final_class_idx ;;
  let majority_segments := counter_get class_votes final_class_idx in
  let majority_confidence :=
    mean_or_zero (confidences_of segment_classes segment_confidences final_class_idx) in
  let total_segments := py_len segment_classes in
  segment_distribution <-
    distribution_loop segment_classes segment_confidences total_segments class_votes [] ;;
  Ok {| predicted_diagnosis := final_diagnosis;
        overall_confidence := py_round majority_confidence 4;
        total_heartbeats := total_segments;
        continuous_samples := n_samples;
        segment_distribution := segment_distribution;
        preprocessing_success := true;
        majority_vote_count := majority_segments |}.

(** [process_ecg_file] from the selected column on: reading the CSV file and
    choosing the column happen before, in [process_ecg_file_from_csv]. *)
Definition process_ecg_file (column : signal) : result diagnosis :=
  let continuous_ecg := filter (fun x => negb (np_isnan x)) column in
  let continuous_ecg := filter np_isfinite continuous_ecg in
  if py_len continuous_ecg =? 0
  then Raise (ValueError "ECG signal contains no valid data after cleaning") else
  out <- segment_ecg_beats lib continuous_ecg scaler 250 360 ;;
  let heartbeat_segments := snd out in
  if py_len heartbeat_segments =? 0
  then Raise (ValueError "No valid heartbeat segments extracted. Check if ECG signal contains detectable R-peaks.") else
  st <- classify_segments heartbeat_segments 100 ;;
  aggregate (all_predictions st) (all_confidences st) (py_len continuous_ecg).

End App.

(* ===================================================================== *)
(** * app.py: file names, columns, temporary files and requests *)
(* ===================================================================== *)

(** ** [allowed_file] *)

(** [str.lower] on one character: the ASCII capitals move to small
    letters; every other byte, so every byte of a UTF-8 sequence, stays. *)
Definition py_lower_char (c : ascii) : ascii :=
  let n := nat_of_ascii c in
  if Nat.leb 65 n && Nat.leb n 90 then ascii_of_nat (n + 32) else c.

Fixpoint py_lower (s : string) : string :=
  match s with
  | EmptyString => EmptyString
  | String c r => String (py_lower_char c) (py_lower r)
  end.

(** [c in s] *)
Fixpoint str_contains (c : ascii) (s : string) : bool :=
  match s with
  | EmptyString => false
  | String c' r => Ascii.eqb c' c || str_contains c r
  end.

(** [s.rsplit(sep, 1)]: the text before and the text after the last
    separator, or the string alone when it has none. *)
Fixpoint py_rsplit1 (sep : ascii) (s : string) : list string :=
  match s with
  | EmptyString => [EmptyString]
  | String c r =>
      match py_rsplit1 sep r with
      | [before; after] => [String c before; after]
      | _ => if Ascii.eqb c sep then [EmptyString; r] else [String c r]
      end
  end.

(** ['.' in filename and filename.rsplit('.', 1)[1].lower() == 'csv'] *)
Definition allowed_file (filename : string) : bool :=
  str_contains "."%char filename &&
  match nth_error (py_rsplit1 "."%char filename) 1 with
  | Some extension => String.eqb (py_lower extension) "csv"
  | None => false
  end.

(** ** The choice of the ECG column in [process_ecg_file] *)

Definition possible_columns : list string :=
  ["MLII"; "MLI"; "V1"; "V2"; "Lead II"; "lead_II"; "ECG"; "ecg"; "0"; "1"]%string.

Definition is_digit_char (c : ascii) : bool :=
  Nat.leb 48 (nat_of_ascii c) && Nat.leb (nat_of_ascii c) 57.

Fixpoint str_all_digits (s : string) : bool :=
  match s with
  | EmptyString => true
  | String c r => is_digit_char c && str_all_digits r
  end.

(** [s.isdigit()] for a string of ASCII characters. *)
Definition str_isdigit (s : string) : bool :=
  match s with
  | EmptyString => false
  | _ => str_all_digits s
  end.

(** [int(s)] for a string of decimal digits. *)
Fixpoint int_of_digits (acc : nat) (s : string) : nat :=
  match s with
  | EmptyString => acc
  | String c r => int_of_digits (10 * acc + (nat_of_ascii c - 48)) r
  end.

(** [repr] of a list of strings, as an f-string prints it.  Exact for names
    of printable ASCII characters without quote or backslash. *)
Definition py_repr_str (s : string) : string := ("'" ++ s ++ "'")%string.

Fixpoint py_join (sep : string) (l : list string) : string :=
  match l with
  | [] => EmptyString
  | [s] => s
  | s :: r => (s ++ sep ++ py_join sep r)%string
  end.

Definition py_repr_list (l : list string) : string :=
  ("[" ++ py_join ", " (map py_repr_str l) ++ "]")%string.

(** The error raised when no column is found. *)
Definition no_ecg_column (available_columns : list string) : exn :=
  ValueError ("No valid ECG column found. Available columns: "
              ++ py_repr_list available_columns
              ++ ". Expected one of: " ++ py_repr_list possible_columns).

(** The loop over [possible_columns]: a candidate that names a column wins;
    a candidate made of digits that is no column name is a position, and
    wins when the frame has that many columns. *)
Fixpoint select_column_loop (columns candidates : list string) : option string :=
  match candidates with
  | [] => None
  | col_name_or_index :: rest =>
      if existsb (String.eqb col_name_or_index) columns then Some col_name_or_index
      else if str_isdigit col_name_or_index then
        let col_idx := int_of_digits 0 col_name_or_index in
        if Nat.ltb col_idx (List.length columns)
        then nth_error columns col_idx
        else select_column_loop columns rest
      else select_column_loop columns rest
  end.

Definition select_ecg_column (columns : list string) : result string :=
  match select_column_loop columns possible_columns with
  | Some ecg_column => Ok ecg_column
  | None => Raise (no_ecg_column columns)
  end.

(** ** [safe_file_cleanup] *)

(** The temporary files that exist, and how often the process has slept
    between two attempts to delete one. *)
Record file_system := {
  existing_files : list string;
  sleeps : nat
}.

Definition os_path_exists (filepath : string) (fs : file_system) : bool :=
  existsb (String.eqb filepath) (existing_files fs).

Definition os_remove (filepath : string) (fs : file_system) : file_system :=
  {| existing_files := filter (fun p => negb (String.eqb p filepath)) (existing_files fs);
     sleeps := sleeps fs |}.

Definition time_sleep (fs : file_system) : file_system :=
  {| existing_files := existing_files fs; sleeps := S (sleeps fs) |}.

Definition create_file (filepath : string) (fs : file_system) : file_system :=
  {| existing_files := filepath :: existing_files fs; sleeps := sleeps fs |}.

(** [for attempt in range(max_retries)], by the number of attempts left.
    [remove_raises attempt] tells whether [os.remove] raises [OSError] at
    that attempt, as it does while another process holds the file. *)
Fixpoint cleanup_loop (remove_raises : nat -> bool) (filepath : string) (max_retries : nat)
  (remaining attempt : nat) (fs : file_system) : bool * file_system :=
  match remaining with
  | O => (false, fs)
  | S rest =>
      if os_path_exists filepath fs then
        if remove_raises attempt then
          if Nat.ltb attempt (max_retries - 1)
          then cleanup_loop remove_raises filepath max_retries rest (S attempt) (time_sleep fs)
          else (false, fs)
        else (true, os_remove filepath fs)
      else (true, fs)
  end.

Definition safe_file_cleanup (remove_raises : nat -> bool) (filepath : string)
  (max_retries : nat) (fs : file_system) : bool * file_system :=
  cleanup_loop remove_raises filepath max_retries max_retries 0 fs.

(** ** Requests *)

(** What [except Exception] catches in the request handlers: an exception of
    the pipeline, or one of the environment (pandas, the operating system),
    of which the handlers use [str(e)] only. *)
Inductive raised :=
| PipelineError (e : exn)
| EnvironmentError (msg : string).

Inductive outcome (A : Type) :=
| Returned (a : A)
| Threw (r : raised).
Arguments Returned {A} a.
Arguments Threw {A} r.

Definition of_result {A} (r : result A) : outcome A :=
  match r with
  | Ok a => Returned a
  | Raise e => Threw (PipelineError e)
  end.

Definition outcome_bind {A B} (c : outcome A) (k : A -> outcome B) : outcome B :=
  match c with
  | Returned a => k a
  | Threw r => Threw r
  end.

(** An uploaded file: its name and what it holds. *)
Record upload (C : Type) := {
  filename : string;
  content : C
}.
Arguments filename {C} u.
Arguments content {C} u.

(** What [pd.read_csv] returns: the column names in order, and the values
    of a column as float32, where every cell converts. *)
Record dataframe := {
  df_columns : list string;
  df_values : string -> outcome signal
}.

(** The JSON body of a response of [/predict]. *)
Inductive body :=
| ErrorMessage (msg : string)
| ProcessingFailed (r : raised)
| DiagnosisBody (d : diagnosis).

(** One entry of [batch_results]. *)
Inductive batch_entry :=
| BatchDiagnosis (name : string) (d : diagnosis)
| BatchFailed (name : string) (r : raised)
| BatchInvalidType (name : string).

(** The JSON body of a response of [/predict_batch]. *)
Inductive batch_body :=
| BatchError (msg : string)
| BatchResults (batch_results : list batch_entry) (total_files successful_predictions : Z).

(** [r.get('preprocessing_success', False)] *)
Definition entry_succeeded (entry : batch_entry) : bool :=
  match entry with
  | BatchDiagnosis _ d => preprocessing_success d
  | _ => false
  end.

Section Server.

Context {C : Type}.
Context (lib : Capabilities).
Variable model_predict : list (list sample) -> result (list (list Q)).
Variable scaler : StandardScaler.
Variable class_mapping : list (nat * string).
(** [pd.read_csv] on what was uploaded. *)
Variable read_csv : C -> outcome dataframe.
(** [werkzeug.utils.secure_filename] *)
Variable secure_filename : string -> string.
(** [tempfile.mkstemp(suffix='.csv', prefix=...)]: the path of the new file,
    unless the file cannot be created. *)
Variable mkstemp : string -> outcome string.
(** [file.save(temp_file)] *)
Variable save_upload : upload C -> outcome unit.
(** Whether [os.remove] raises for this path at this attempt. *)
Variable remove_raises : string -> nat -> bool.

(** [process_ecg_file(filepath)] in full: the frame is read, the column is
    chosen, and the values of the column go through [process_ecg_file]. *)
Definition process_ecg_file_from_csv (uploaded : C) : outcome diagnosis :=
  outcome_bind (read_csv uploaded) (fun df =>
  outcome_bind (of_result (select_ecg_column (df_columns df))) (fun ecg_column =>
  outcome_bind (df_values df ecg_column) (fun continuous_ecg =>
  of_result (process_ecg_file lib model_predict scaler class_mapping continuous_ecg)))).

(** The upload is written to the temporary file and the file is processed. *)
Definition save_and_process (file : upload C) : outcome diagnosis :=
  outcome_bind (save_upload file) (fun _ => process_ecg_file_from_csv (content file)).

(** [predict_ecg]: [request.files] is a dict from field name to upload.  An
    exception anywhere after the checks becomes a 500; the [finally] block
    deletes the temporary file once its path is known, [if filepath] being
    true for a path that is not the empty string. *)
Definition predict_ecg (request_files : list (string * upload C)) (fs : file_system)
  : (body * Z) * file_system :=
  match dict_get request_files "file" with
  | None => ((ErrorMessage "No file uploaded", 400), fs)
  | Some file =>
      if String.eqb (filename file) "" then ((ErrorMessage "No file selected", 400), fs)
      else if negb (allowed_file (filename file))
      then ((ErrorMessage "Invalid file type. Please upload a CSV file", 400), fs)
      else
        let name := secure_filename (filename file) in
        match mkstemp ("ecg_" ++ name ++ "_") with
        | Threw e => ((ProcessingFailed e, 500), fs)
        | Returned filepath =>
            let fs := create_file filepath fs in
            let response :=
              match save_and_process file with
              | Returned result => (DiagnosisBody result, 200)
              | Threw e => (ProcessingFailed e, 500)
              end in
            (response,
             if String.eqb filepath "" then fs
             else snd (safe_file_cleanup (remove_raises filepath) filepath 5 fs))
        end
  end.

(** The body of the loop of [predict_ecg_batch] for one file: the entry it
    appends, if any. *)
Definition predict_batch_file (file_item : upload C) (fs : file_system)
  : option batch_entry * file_system :=
  if negb (String.eqb (filename file_item) "") && allowed_file (filename file_item) then
    let filename_batch := secure_filename (filename file_item) in
    match mkstemp ("ecg_batch_" ++ filename_batch ++ "_") with
    | Threw e_batch => (Some (BatchFailed (filename file_item) e_batch), fs)
    | Returned filepath_batch =>
        let fs := create_file filepath_batch fs in
        let fs :=
          if String.eqb filepath_batch "" then fs
          else snd (safe_file_cleanup (remove_raises filepath_batch) filepath_batch 5 fs) in
        (Some match save_and_process file_item with
              | Returned result_batch => BatchDiagnosis filename_batch result_batch
              | Threw e_batch => BatchFailed (filename file_item) e_batch
              end, fs)
    end
  else if negb (String.eqb (filename file_item) "")
  then (Some (BatchInvalidType (filename file_item)), fs)
  else (None, fs).

Fixpoint predict_batch_loop (files : list (upload C)) (results : list batch_entry)
  (fs : file_system) : list batch_entry * file_system :=
  match files with
  | [] => (results, fs)
  | file_item :: rest =>
      let step := predict_batch_file file_item fs in
      predict_batch_loop rest
        (match fst step with Some entry => results ++ [entry] | None => results end)
        (snd step)
  end.

(** [predict_ecg_batch]: [request.files] is a multi-dict, from field name to
    the uploads sent under it. *)
Definition predict_ecg_batch (request_files : list (string * list (upload C)))
  (fs : file_system) : (batch_body * Z) * file_system :=
  match dict_get request_files "files" with
  | None => ((BatchError "No files uploaded", 400), fs)
  | Some files =>
      if match files with [] => true | _ => false end
         || forallb (fun f => String.eqb (filename f) "") files
      then ((BatchError "No files selected", 400), fs)
      else
        let run := predict_batch_loop files [] fs in
        ((BatchResults (fst run) (py_len files)
            (py_len (filter entry_succeeded (fst run))), 200),
         snd run)
  end.

End Server.

(* ===================================================================== *)
(** * Vocabulary of the properties *)
(* ===================================================================== *)

(** Two consecutive peaks: increasing, and at least [d] samples apart. *)
Definition gap (d p q : Z) : Prop := p < q /\ p + d <= q.

(** A peak set whose consecutive entries are separated by at least [d]. *)
Definition separated (d : Z) (peaks : list Z) : Prop := Sorted (gap d) peaks.

(** A peak at least [margin] samples from both ends of a signal of [n]
    samples. *)
Definition within_margin (margin n p : Z) : Prop := margin <= p < n - margin.

(** The window [[p - L/2, p + L/2)] lies within a signal of [n] samples. *)
Definition window_in_bounds (n L p : Z) : bool :=
  (0 <=? p - L / 2) && (p + L / 2 <=? n).

(** The window the extractor actually keeps: its end index must be a valid
    sample index. *)
Definition window_kept (n L p : Z) : bool :=
  (0 <=? p - L / 2) && (p + L / 2 <? n).

(** The window of peak [p]. *)
Definition window {A} (ecg_signal : list A) (L p : Z) : list A :=
  py_slice ecg_signal (p - L / 2) (p + L / 2).

(** The validator's acceptance rule, as the specification words it: the
    expected length, no NaN and no infinity, a standard deviation of at
    least 1e-6, and no sample above 100 in absolute value. *)
Definition accepts (L : Z) (segment : list sample) : bool :=
  (py_len segment =? L)
  && forallb (fun x => negb (np_isnan x) && negb (np_isinf x)) segment
  && np_std_ge segment (1 # 1000000)
  && forallb (fun x => sample_leb (sample_abs x) (Fin 100)) segment.

(** Whether [butter] accepts the band of a sampling rate. *)
Definition band_accepted (rate : Z) : bool :=
  match butter_band rate with
  | Ok (low_freq, high_freq) => butter_accepts low_freq high_freq
  | Raise _ => false
  end.

(** [f] holds at the [n] integers from [z] on. *)
Fixpoint all_from (f : Z -> bool) (n : nat) (z : Z) : bool :=
  match n with
  | O => true
  | S k => f z && all_from f k (z + 1)
  end.

(** The number of votes for class [k]. *)
Definition votes (segment_classes : list nat) (k : nat) : nat :=
  count_occ Nat.eq_dec segment_classes k.

(** The entry of a class as the specification words it: its vote count,
    [100 * count / total] rounded to 2 decimals, and the mean confidence of
    its segments rounded to 4 decimals. *)
Definition class_entry (segment_classes : list nat) (segment_confidences : list Q)
  (k : nat) : class_stats :=
  {| segment_count := votes segment_classes k;
     percentage :=
       py_round (100 * inject_Z (Z.of_nat (votes segment_classes k))
                 / inject_Z (py_len segment_classes)) 2;
     avg_confidence :=
       py_round (np_mean (confidences_of segment_classes segment_confidences k)) 4 |}.

(** The label of a class, empty when the mapping has none. *)
Definition label_of (class_mapping : list (nat * string)) (k : nat) : string :=
  match mapping_lookup class_mapping k with
  | Ok name => name
  | Raise _ => EmptyString
  end.



(** [(c / t) * 100] on the hardware's floats, and whether the exact-value
    model gives the same number. *)
Definition hardware_share (c t : Z) : float :=
  PrimFloat.mul (PrimFloat.div (py_float c) (py_float t)) 100.

Definition share_agrees (c t : Z) : bool :=
  match float_value (hardware_share c t) with
  | Some v => Qeq_bool v (py_fmul (py_truediv c t) 100)
  | None => false
  end.

(** The entry the loop over [class_votes.items()] computes for one item. *)
Definition item_entry (segment_classes : list nat) (segment_confidences : list Q)
  (item : nat * nat) : class_stats :=
  {| segment_count := snd item;
     percentage :=
       py_round (py_fmul (py_truediv (Z.of_nat (snd item)) (py_len segment_classes)) 100) 2;
     avg_confidence :=
       py_round (mean_or_zero (confidences_of segment_classes segment_confidences (fst item))) 4 |}.


(** What [np.argmax] raises on a row without entries. *)
Definition argmax_of_empty_row : exn :=
  ValueError "attempt to get argmax of an empty sequence".

(** The number of distinct classes among the predictions. *)
Definition distinct_classes (segment_classes : list nat) : nat :=
  List.length (nodup Nat.eq_dec segment_classes).

(** The batches the classification loop cuts: one slice per start index. *)
Definition batches_of {A} (X : list A) (batch_size : Z) : list (list A) :=
  map (fun i => py_slice X i (i + batch_size)) (py_range 0 (py_len X) batch_size).

(** The batch sizes the specification announces for [N] segments: full
    batches, then the remainder when there is one. *)
Definition expected_batch_sizes (N batch_size : Z) : list Z :=
  repeat batch_size (Z.to_nat (N / batch_size))
  ++ (if N mod batch_size =? 0 then [] else [N mod batch_size]).

(** The probability rows the classifier returned for a batch; none when
    the call raised. *)
Definition rows_of (model_predict : list (list sample) -> result (list (list Q)))
  (batch : list (list sample)) : list (list Q) :=
  match model_predict batch with
  | Ok rows => rows
  | Raise _ => []
  end.

(** The classifier's side of the contract: every call returns, with one
    non-empty probability row per segment of the batch. *)
Definition one_row_per_segment (model_predict : list (list sample) -> result (list (list Q)))
  : Prop :=
  forall batch, exists rows,
    model_predict batch = Ok rows /\
    py_len rows = py_len batch /\
    Forall (fun row => row <> []) rows.

(** A batch the classification loop gets through: the classifier returns,
    and no returned row is empty. *)
Definition batch_classified (model_predict : list (list sample) -> result (list (list Q)))
  (batch : list (list sample)) : Prop :=
  exists rows, model_predict batch = Ok rows /\ Forall (fun row => row <> []) rows.

(** The keyword arguments of the primary scipy strategy. *)
Definition primary_kwargs (lib : Capabilities) (normalized_signal : signal) (d : Z)
  : find_peaks_kwargs :=
  {| height := Some (np_percentile lib normalized_signal 75); distance := Some d;
     prominence := Some (3 # 10)%Q; width := Some 1%Q |}.

(** The keyword arguments of the second and of the third scipy strategy. *)
Definition relaxed_kwargs (lib : Capabilities) (normalized_signal : signal) (d : Z)
  : find_peaks_kwargs :=
  {| height := Some (np_percentile lib normalized_signal 60); distance := Some d;
     prominence := Some (1 # 10)%Q; width := None |}.

Definition unconstrained_kwargs (d : Z) : find_peaks_kwargs :=
  {| height := None; distance := Some d; prominence := Some (1 # 10)%Q; width := None |}.

(** The minimum distance of the scipy strategy whose result is returned:
    [int(0.6 * rate)] when the primary strategy finds at least three peaks,
    [int(0.4 * rate)] otherwise. *)
Definition active_min_distance (lib : Capabilities) (ecg_signal : signal)
  (sampling_rate : Z) : result Z :=
  let normalized_signal := np_zscore lib ecg_signal in
  d <- py_int_scaled 0.6 sampling_rate ;;
  r_peaks <- find_peaks lib normalized_signal (primary_kwargs lib normalized_signal d) ;;
  if py_len r_peaks <? 3 then py_int_scaled 0.4 sampling_rate else Ok d.

(** The documented contract of the [distance] keyword of [find_peaks], on
    one signal: neighbouring peaks are at least [distance] samples apart,
    in increasing order. *)
Definition find_peaks_distance_contract (lib : Capabilities) (x : signal) : Prop :=
  forall kw d r, find_peaks lib x kw = Ok r -> distance kw = Some d -> separated d r.

(** ** Capabilities used in the examples *)

(** A peak finder that reports three peaks spaced by exactly the requested
    distance; like scipy it raises when the distance is below 1. *)
Definition evenly_spaced_peaks (x : signal) (kw : find_peaks_kwargs) : result (list Z) :=
  match distance kw with
  | Some d =>
      if d <? 1 then Raise (ValueError "`distance` must be greater or equal to 1")
      else Ok [100; 100 + d; 100 + 2 * d]
  | None => Ok [100; 101; 102]
  end.

(** WFDB missing: the scipy strategies run, on the signal as it is. *)
Definition lib_without_wfdb : Capabilities :=
  {| butter_filtfilt := fun _ x => x;
     np_zscore := fun x => x;
     np_percentile := fun _ _ => Fin 0;
     find_peaks := evenly_spaced_peaks;
     gqrs_detect := fun _ _ => Raise (ValueError "WFDB gqrs_detect not available") |}.

(** WFDB present and reporting the given peaks. *)
Definition lib_with_wfdb (peaks : list Z) : Capabilities :=
  {| butter_filtfilt := fun _ x => x;
     np_zscore := fun x => x;
     np_percentile := fun _ _ => Fin 0;
     find_peaks := evenly_spaced_peaks;
     gqrs_detect := fun _ _ => Ok peaks |}.

(** A flat signal of [n] samples. *)
Definition flat_signal (n : nat) : signal := repeat (Fin 0) n.

(** A flat signal of 1000 samples with one beat of four samples at
    positions 498 to 501. *)
Definition one_beat_signal : signal :=
  flat_signal 498 ++ [Fin 0; Fin 1; Fin 2; Fin 1] ++ flat_signal 498.

(** A label map for three classes. *)
Definition three_labels : list (nat * string) :=
  [(0%nat, "Normal"%string); (1%nat, "Arrhythmia"%string); (2%nat, "Ischemia"%string)].

(** A two-class classifier that looks at the sign of the first sample. *)
Definition sign_classifier (batch : list (list sample)) : result (list (list Q)) :=
  Ok (map (fun segment =>
             match segment with
             | Fin q :: _ => if Qle_bool 0 q then [1 # 5; 4 # 5] else [9 # 10; 1 # 10]
             | _ => [1 # 2; 1 # 2]
             end)%Q batch).

(** A classifier whose device runs out of memory on a batch of more than
    two segments, and that returns rows without any class otherwise. *)
Definition failing_classifier (batch : list (list sample)) : result (list (list Q)) :=
  if 2 <? py_len batch
  then Raise (ValueError "ResourceExhaustedError: out of memory")
  else Ok (map (fun _ => []) batch).

(** 237 one-sample segments, the first hundred negative. *)
Definition segments_237 : list (list sample) :=
  map (fun i => [Fin (inject_Z (i - 100))]) (py_range 0 237 1).

(** The scaler with mean 0 and standard deviation 1 at each of [n]
    positions. *)
Definition unit_scaler (n : nat) : StandardScaler :=
  {| mean_ := repeat 0%Q n; scale_ := repeat 1%Q n |}.

(** The entries one file adds to [batch_results]. *)
Definition entries_of (entry : option batch_entry) : list batch_entry :=
  match entry with
  | Some e => [e]
  | None => []
  end.

(** An entry of [batch_results] that carries a diagnosis. *)
Definition is_diagnosis (entry : batch_entry) : bool :=
  match entry with
  | BatchDiagnosis _ _ => true
  | _ => false
  end.

(** An upload that has a file name. *)
Definition named {C} (file : upload C) : bool := negb (String.eqb (filename file) "").

(** [os.remove] succeeds on every path within the five attempts that the
    request handlers allow. *)
Definition removable (remove_raises : string -> nat -> bool) : Prop :=
  forall path, exists k, (k < 5)%nat /\ remove_raises path k = false.

(** [mkstemp] never returns the empty string as a path. *)
Definition named_paths (mkstemp : string -> outcome string) : Prop :=
  forall prefix path, mkstemp prefix = Returned path -> path <> ""%string.

(** [mkstemp] returns the path of a file that did not exist. *)
Definition fresh_paths (mkstemp : string -> outcome string) (fs : file_system) : Prop :=
  forall prefix path, mkstemp prefix = Returned path -> ~ In path (existing_files fs).

(** An environment for the request handlers: uploads are text, a text that
    starts with [ecg] is a one-column frame holding [one_beat_signal] and
    any other text does not parse; temporary files are created under /tmp;
    writing succeeds; a file is locked during the first two attempts to
    delete it. *)
Definition read_csv_text (text : string) : outcome dataframe :=
  if String.prefix "ecg" text
  then Returned {| df_columns := ["ecg"%string];
                   df_values := fun _ => Returned one_beat_signal |}
  else Threw (EnvironmentError "No columns to parse from file").

Definition temp_path (prefix : string) : outcome string :=
  Returned ("/tmp/" ++ prefix ++ "k3x9.csv")%string.

Definition save_ok (file : upload string) : outcome unit := Returned tt.

Definition locked_twice (path : string) (attempt : nat) : bool := Nat.ltb attempt 2.

Definition no_files : file_system := {| existing_files := []; sleeps := 0 |}.

(* ===================================================================== *)
(** * Slices and segment extraction *)
(* ===================================================================== *)

Lemma py_len_nonneg {A} (l : list A) : 0 <= py_len l.
Proof. unfold py_len. lia. Qed.

Lemma py_len_app {A} (l1 l2 : list A) : py_len (l1 ++ l2) = py_len l1 + py_len l2.
Proof. unfold py_len. rewrite length_app. lia. Qed.

Lemma py_len_zero_nil {A} (l : list A) : py_len l = 0 -> l = [].
Proof. destruct l; [reflexivity | unfold py_len; simpl; lia]. Qed.

Lemma py_slice_length {A} (l : list A) (s e : Z) :
  0 <= s -> s <= e -> e <= py_len l -> py_len (py_slice l s e) = e - s.
Proof.
  intros Hs Hse He. unfold py_slice, py_slice_index.
  destruct (Z.ltb_spec s 0); [lia|].
  destruct (Z.ltb_spec e 0); [lia|].
  unfold py_len in *. rewrite length_firstn, length_skipn.
  rewrite !Z.min_l by lia. lia.
Qed.

(** What one iteration of the extraction loop does, for a usable segment
    length. *)
Lemma extract_one_spec {A} (ecg_signal : list A) (L p : Z) :
  0 <= L -> Z.even L = true ->
  extract_one ecg_signal (L / 2) L p =
  if window_kept (py_len ecg_signal) L p then Some (window ecg_signal L p) else None.
Proof.
  intros HL Hev. unfold extract_one, window_kept, window.
  assert (H2 : L = 2 * (L / 2)).
  { apply Z.even_spec in Hev. destruct Hev as [k ->].
    rewrite Z.mul_comm, Z.div_mul by lia. lia. }
  replace (p - L / 2 >=? 0) with (0 <=? p - L / 2) by (rewrite Z.geb_leb; reflexivity).
  destruct (Z.leb_spec 0 (p - L / 2)); simpl; [|reflexivity].
  destruct (Z.ltb_spec (p + L / 2) (py_len ecg_signal)); [|reflexivity].
  rewrite py_slice_length by lia.
  replace (p + L / 2 - (p - L / 2)) with L by lia.
  rewrite Z.eqb_refl. reflexivity.
Qed.

(** An odd segment length never yields a segment: the slice has [L - 1]
    samples. *)
Lemma extract_one_odd {A} (ecg_signal : list A) (L p : Z) :
  0 <= L -> Z.odd L = true -> extract_one ecg_signal (L / 2) L p = None.
Proof.
  intros HL Hodd. unfold extract_one.
  assert (H2 : L = 2 * (L / 2) + 1).
  { apply Z.odd_spec in Hodd. destruct Hodd as [k ->].
    rewrite <- (Z.div_unique (2 * k + 1) 2 k 1); lia. }
  destruct (p - L / 2 >=? 0) eqn:E1; [|reflexivity].
  destruct (Z.ltb_spec (p + L / 2) (py_len ecg_signal)); [|reflexivity].
  simpl. rewrite Z.geb_leb in E1. apply Z.leb_le in E1.
  rewrite py_slice_length by lia.
  destruct (Z.eqb_spec (p + L / 2 - (p - L / 2)) L); [lia | reflexivity].
Qed.

Lemma extract_loop_filter {A} (ecg_signal : list A) (L : Z) (r_peaks : list Z) :
  0 <= L -> Z.even L = true ->
  extract_loop ecg_signal (L / 2) L r_peaks =
  map (window ecg_signal L) (filter (window_kept (py_len ecg_signal) L) r_peaks).
Proof.
  intros HL Hev. induction r_peaks as [|p rest IH]; [reflexivity|].
  simpl. rewrite extract_one_spec by assumption.
  destruct (window_kept (py_len ecg_signal) L p); simpl; rewrite IH; reflexivity.
Qed.

Lemma extract_loop_length_le {A} (ecg_signal : list A) (h L : Z) (r_peaks : list Z) :
  (List.length (extract_loop ecg_signal h L r_peaks) <= List.length r_peaks)%nat.
Proof.
  induction r_peaks as [|p rest IH]; simpl; [lia|].
  destruct (extract_one ecg_signal h L p); simpl; lia.
Qed.

Lemma extract_loop_segment_length {A} (ecg_signal : list A) (h L : Z) (r_peaks : list Z) :
  Forall (fun segment => py_len segment = L) (extract_loop ecg_signal h L r_peaks).
Proof.
  induction r_peaks as [|p rest IH]; simpl; [constructor|].
  destruct (extract_one ecg_signal h L p) as [seg|] eqn:E; [|assumption].
  constructor; [|assumption].
  unfold extract_one in E.
  destruct ((p - h >=? 0) && (p + h <? py_len ecg_signal)); [|discriminate].
  destruct (Z.eqb_spec (py_len (py_slice ecg_signal (p - h) (p + h))) L); [|discriminate].
  injection E as <-. assumption.
Qed.

Lemma boundary_filter_In (m n : Z) (r_peaks : list Z) (p : Z) :
  In p (boundary_filter m n r_peaks) <-> In p r_peaks /\ within_margin m n p.
Proof.
  unfold boundary_filter, within_margin. rewrite filter_In.
  rewrite andb_true_iff, Z.leb_le, Z.ltb_lt. tauto.
Qed.

Lemma filter_all {A} (f : A -> bool) (l : list A) :
  (forall x, In x l -> f x = true) -> filter f l = l.
Proof.
  induction l as [|x r IH]; intros H; [reflexivity|].
  simpl. rewrite (H x (or_introl eq_refl)). f_equal. apply IH.
  intros y Hy. apply H. right. assumption.
Qed.

(* ===================================================================== *)
(** * Peak detection *)
(* ===================================================================== *)

Lemma bind_Ok_inv {A B} (c : result A) (k : A -> result B) (b : B) :
  bind c k = Ok b -> exists a, c = Ok a /\ k a = Ok b.
Proof. destruct c as [a|e]; simpl; [eauto | discriminate]. Qed.

Lemma detect_r_peaks_inv (lib : Capabilities) (ecg_signal : signal) (rate : Z)
  (peaks : list Z) :
  detect_r_peaks lib ecg_signal rate = Ok peaks ->
  exists cands m,
    candidate_peaks lib ecg_signal rate = Ok cands /\
    py_int_scaled 0.2 rate = Ok m /\
    peaks = boundary_filter m (py_len ecg_signal) cands /\
    peaks <> [].
Proof.
  unfold detect_r_peaks. intros H.
  apply bind_Ok_inv in H. destruct H as [cands [Hc H]].
  apply bind_Ok_inv in H. destruct H as [m [Hm H]].
  destruct (Z.eqb_spec (py_len (boundary_filter m (py_len ecg_signal) cands)) 0) as [E|E];
    [discriminate|].
  injection H as <-. exists cands, m. repeat split; try assumption.
  intros Hnil. rewrite Hnil in E. apply E. reflexivity.
Qed.

Lemma detect_r_peaks_within_margin (lib : Capabilities) (ecg_signal : signal) (rate m : Z)
  (peaks : list Z) :
  detect_r_peaks lib ecg_signal rate = Ok peaks ->
  py_int_scaled 0.2 rate = Ok m ->
  Forall (within_margin m (py_len ecg_signal)) peaks.
Proof.
  intros H Hm. apply detect_r_peaks_inv in H.
  destruct H as [cands [m' [_ [Hm' [-> _]]]]].
  rewrite Hm in Hm'. injection Hm' as <-.
  apply Forall_forall. intros p Hp. apply boundary_filter_In in Hp. tauto.
Qed.

(** With a margin of at least half a segment, every peak that passes the
    boundary filter has a window the extractor keeps. *)
Lemma margin_covers_window (m n L p : Z) :
  0 <= L -> L / 2 <= m -> within_margin m n p -> window_kept n L p = true.
Proof.
  unfold within_margin, window_kept. intros HL Hm [H1 H2].
  assert (0 <= L / 2) by (apply Z.div_pos; lia).
  apply andb_true_iff. rewrite Z.leb_le, Z.ltb_lt. lia.
Qed.

(** C2, as the code has it: the boundary filter leaves peaks at least the
    margin from both ends; the extractor returns at most one segment per
    remaining peak, and exactly one per peak when the margin is at least
    half the (even) segment length. *)
Theorem boundary_filter_then_extract (lib : Capabilities) (ecg_signal : signal)
  (rate m L : Z) (peaks : list Z) :
  detect_r_peaks lib ecg_signal rate = Ok peaks ->
  py_int_scaled 0.2 rate = Ok m ->
  0 <= L -> Z.even L = true ->
  Forall (within_margin m (py_len ecg_signal)) peaks /\
  py_len (extract_heartbeat_segments ecg_signal peaks L) <= py_len peaks /\
  (L / 2 <= m ->
   extract_heartbeat_segments ecg_signal peaks L = map (window ecg_signal L) peaks /\
   py_len (extract_heartbeat_segments ecg_signal peaks L) = py_len peaks).
Proof.
  intros Hdet Hm HL Hev.
  pose proof (detect_r_peaks_within_margin _ _ _ _ _ Hdet Hm) as Hin.
  split; [assumption|]. split.
  - unfold extract_heartbeat_segments, py_len. apply inj_le, extract_loop_length_le.
  - intros Hhalf. unfold extract_heartbeat_segments.
    rewrite extract_loop_filter by assumption.
    rewrite filter_all.
    + split; [reflexivity | unfold py_len; rewrite length_map; reflexivity].
    + intros p Hp. rewrite Forall_forall in Hin.
      apply (margin_covers_window m); auto.
Qed.

Lemma boundary_filter_then_extract_witness :
  detect_r_peaks (lib_with_wfdb [50; 100; 500; 950]) (flat_signal 1000) 360
    = Ok [100; 500] /\
  Forall (within_margin 72 1000) [100; 500] /\
  extract_heartbeat_segments (flat_signal 1000) [100; 500] 100
    = map (window (flat_signal 1000) 100) [100; 500] /\
  py_len (extract_heartbeat_segments (flat_signal 1000) [100; 500] 100) = 2.
Proof.
  assert (Hdet : detect_r_peaks (lib_with_wfdb [50; 100; 500; 950]) (flat_signal 1000) 360
                 = Ok [100; 500]) by (vm_compute; reflexivity).
  split; [exact Hdet|].
  destruct (boundary_filter_then_extract (lib_with_wfdb [50; 100; 500; 950])
              (flat_signal 1000) 360 72 100 [100; 500] Hdet)
    as [Hmargin [_ Hfull]].
  - vm_compute. reflexivity.
  - lia.
  - reflexivity.
  - split; [exact Hmargin|]. apply Hfull. vm_compute. discriminate.
Defined.

(** The margin is [int(0.2 * rate)]: truncated, not rounded to nearest. *)
Lemma boundary_margin_truncates :
  py_int_scaled 0.2 360 = Ok 72 /\ py_int_scaled 0.2 364 = Ok 72.
Proof. split; vm_compute; reflexivity. Qed.

(** C2, as the specification has it, fails at the default settings: a peak
    100 samples into a 1000-sample signal passes the boundary filter
    (margin 72) and has no full window of 250 samples. *)
Lemma boundary_margin_too_small_for_window :
  py_int_scaled 0.2 360 = Ok 72 /\
  detect_r_peaks (lib_with_wfdb [100; 500]) (flat_signal 1000) 360 = Ok [100; 500] /\
  window_in_bounds 1000 250 100 = false /\
  py_len (extract_heartbeat_segments (flat_signal 1000) [100; 500] 250) = 1 /\
  py_len (extract_heartbeat_segments (flat_signal 1000) [100; 500] 250)
    <> py_len [100; 500].
Proof.
  repeat split; try (vm_compute; reflexivity).
  vm_compute. discriminate.
Qed.

(** C7: a window that ends exactly at the end of the signal lies within
    the signal and has the full length, and the extractor drops it. *)
Theorem extract_drops_window_at_signal_end :
  window_in_bounds (py_len (flat_signal 250)) 250 125 = true /\
  py_len (window (flat_signal 250) 250 125) = 250 /\
  extract_heartbeat_segments (flat_signal 250) [125] 250 = [].
Proof. repeat split; vm_compute; reflexivity. Qed.

Lemma gap_trans (d p q r : Z) : gap d p q -> gap d q r -> gap d p r.
Proof. unfold gap. lia. Qed.

Lemma StronglySorted_filter {A} (R : A -> A -> Prop) (f : A -> bool) (l : list A) :
  StronglySorted R l -> StronglySorted R (filter f l).
Proof.
  induction 1 as [|a l Hl IH Ha]; simpl; [constructor|].
  destruct (f a); [|assumption].
  constructor; [assumption|].
  rewrite Forall_forall in *. intros x Hx. apply filter_In in Hx. apply Ha, Hx.
Qed.

(** Separation survives the removal of peaks. *)
Lemma separated_filter (d : Z) (f : Z -> bool) (peaks : list Z) :
  separated d peaks -> separated d (filter f peaks).
Proof.
  unfold separated. intros H.
  apply StronglySorted_Sorted, StronglySorted_filter, Sorted_StronglySorted; [|assumption].
  intros p q r. apply gap_trans.
Qed.

Lemma detect_r_peaks_scipy_separated (lib : Capabilities) (ecg_signal : signal) (rate : Z)
  (peaks : list Z) :
  find_peaks_distance_contract lib (np_zscore lib ecg_signal) ->
  detect_r_peaks_scipy lib ecg_signal rate = Ok peaks ->
  exists d, active_min_distance lib ecg_signal rate = Ok d /\ separated d peaks.
Proof.
  intros Hfp H. unfold detect_r_peaks_scipy in H.
  apply bind_Ok_inv in H. destruct H as [d1 [Hd1 H]].
  apply bind_Ok_inv in H. destruct H as [r1 [E1 H]].
  apply bind_Ok_inv in H. destruct H as [r2 [E2 H]].
  apply bind_Ok_inv in H. destruct H as [r3 [E3 H]].
  injection H as <-.
  unfold active_min_distance, primary_kwargs. rewrite Hd1. simpl. rewrite E1. simpl.
  destruct (py_len r1 <? 3) eqn:Hfew.
  - apply bind_Ok_inv in E2. destruct E2 as [d2 [Hd2 E2]].
    rewrite Hd2. exists d2. split; [reflexivity|].
    destruct (py_len r2 <? 3).
    + apply bind_Ok_inv in E3. destruct E3 as [d3 [Hd3 E3]].
      rewrite Hd2 in Hd3. injection Hd3 as <-.
      eapply Hfp; [exact E3 | reflexivity].
    + injection E3 as <-. eapply Hfp; [exact E2 | reflexivity].
  - injection E2 as <-. rewrite Hfew in E3. injection E3 as <-.
    exists d1. split; [reflexivity|].
    eapply Hfp; [exact E1 | reflexivity].
Qed.

(** C3, as the code has it: every returned peak lies at least the margin
    from both ends; on the WFDB path the peak set keeps whatever separation
    the detector's own output has; on the scipy path, with [find_peaks]
    honouring its distance keyword, consecutive peaks are increasing and at
    least the active minimum distance apart. *)
Theorem detect_r_peaks_peakset (lib : Capabilities) (ecg_signal : signal) (rate m : Z)
  (peaks : list Z) :
  detect_r_peaks lib ecg_signal rate = Ok peaks ->
  py_int_scaled 0.2 rate = Ok m ->
  Forall (within_margin m (py_len ecg_signal)) peaks /\
  (forall cands d,
     detect_r_peaks_wfdb lib ecg_signal rate = Ok cands ->
     separated d cands -> separated d peaks) /\
  ((exists e, detect_r_peaks_wfdb lib ecg_signal rate = Raise e) ->
   find_peaks_distance_contract lib (np_zscore lib ecg_signal) ->
   exists d, active_min_distance lib ecg_signal rate = Ok d /\ separated d peaks).
Proof.
  intros Hdet Hm.
  split; [eapply detect_r_peaks_within_margin; eassumption|].
  apply detect_r_peaks_inv in Hdet.
  destruct Hdet as [cands [m' [Hc [_ [-> _]]]]].
  unfold candidate_peaks, try_except in Hc. split.
  - intros cands' d Hw Hsep. rewrite Hw in Hc. injection Hc as ->.
    apply separated_filter. assumption.
  - intros [e He] Hfp. rewrite He in Hc.
    destruct (detect_r_peaks_scipy_separated _ _ _ _ Hfp Hc) as [d [Hd Hsep]].
    exists d. split; [assumption|]. apply separated_filter. assumption.
Qed.

Lemma evenly_spaced_peaks_contract (x : signal) :
  find_peaks_distance_contract lib_without_wfdb x.
Proof.
  intros kw d r H Hd.
  change (find_peaks lib_without_wfdb x kw) with (evenly_spaced_peaks x kw) in H.
  unfold evenly_spaced_peaks in H. rewrite Hd in H.
  destruct (Z.ltb_spec d 1); [discriminate|].
  assert (Hr : r = [100; 100 + d; 100 + 2 * d]) by congruence.
  rewrite Hr. unfold separated.
  repeat (apply Sorted_cons || apply Sorted_nil || apply HdRel_cons || apply HdRel_nil);
    unfold gap; lia.
Qed.

Lemma detect_r_peaks_peakset_witness :
  (Forall (within_margin 72 1000) [100; 316; 532] /\
   exists d, active_min_distance lib_without_wfdb (flat_signal 1000) 360 = Ok d /\
             separated d [100; 316; 532]) /\
  separated 300 [100; 400].
Proof.
  split.
  - destruct (detect_r_peaks_peakset lib_without_wfdb (flat_signal 1000) 360 72
                [100; 316; 532]) as [Hmargin [_ Hscipy]].
    + vm_compute. reflexivity.
    + vm_compute. reflexivity.
    + split; [exact Hmargin|].
      apply Hscipy.
      * eexists. reflexivity.
      * apply evenly_spaced_peaks_contract.
  - destruct (detect_r_peaks_peakset (lib_with_wfdb [100; 400; 700]) (flat_signal 600) 360 72
                [100; 400]) as [_ [Hwfdb _]].
    + vm_compute. reflexivity.
    + vm_compute. reflexivity.
    + apply (Hwfdb [100; 400; 700] 300); [reflexivity|].
      unfold separated.
      repeat (apply Sorted_cons || apply Sorted_nil || apply HdRel_cons || apply HdRel_nil);
        unfold gap; lia.
Defined.

(** C3, as the specification has it, fails on the WFDB path: peaks 120
    samples apart (a heart rate of 180 per minute at 360 Hz) come back as
    they are, closer than both [int(0.4 * 360)] and [int(0.6 * 360)]. *)
Lemma wfdb_peaks_closer_than_min_distance :
  detect_r_peaks (lib_with_wfdb [200; 320; 440]) (flat_signal 1000) 360
    = Ok [200; 320; 440] /\
  py_int_scaled 0.4 360 = Ok 144 /\
  py_int_scaled 0.6 360 = Ok 216 /\
  ~ separated 144 [200; 320; 440] /\
  ~ separated 216 [200; 320; 440].
Proof.
  repeat split; try (vm_compute; reflexivity).
  - intros H. inversion H as [|? ? _ Hd]; subst.
    inversion Hd as [|? ? [_ Hgap]]; subst. lia.
  - intros H. inversion H as [|? ? _ Hd]; subst.
    inversion Hd as [|? ? [_ Hgap]]; subst. lia.
Qed.

(* ===================================================================== *)
(** * Short signals *)
(* ===================================================================== *)

Lemma all_from_spec (f : Z -> bool) (n : nat) (z : Z) :
  all_from f n z = true -> forall k, z <= k < z + Z.of_nat n -> f k = true.
Proof.
  revert z. induction n as [|n IH]; intros z H k Hk; [lia|].
  cbn [all_from] in H. apply andb_true_iff in H. destruct H as [Hz Hr].
  destruct (Z.eq_dec k z) as [->|Hne]; [assumption|].
  apply (IH (z + 1) Hr). lia.
Qed.

(** At every integer rate from 2 to 79999 the clamped band is one that
    [butter] accepts: each rate is evaluated in binary64. *)
Lemma band_accepted_range (rate : Z) :
  2 <= rate < 80000 -> band_accepted rate = true.
Proof.
  intros Hr.
  apply (all_from_spec band_accepted (Z.to_nat 79998) 2);
    [vm_compute; reflexivity | rewrite Z2Nat.id; lia].
Qed.

(** From 80000 Hz on the clamp turns the band upside down: [40 / nyquist]
    is no larger than the floor 0.001 of the lower edge, and [butter]
    raises whatever the signal. *)
Lemma band_rejected_at_80000 :
  butter_band 80000 = Ok (0.001, 0.001)%float /\ band_accepted 80000 = false /\
  band_accepted 100000 = false /\ band_accepted 1 = false.
Proof. vm_compute. auto. Qed.

Lemma preprocess_ecg_band (lib : Capabilities) (ecg_signal : signal) (rate : Z) :
  band_accepted rate = true ->
  preprocess_ecg lib ecg_signal rate =
  if py_len ecg_signal <=? filtfilt_padlen then Raise filtfilt_too_short
  else Ok (butter_filtfilt lib rate ecg_signal).
Proof.
  unfold band_accepted, preprocess_ecg. intros H.
  destruct (butter_band rate) as [[low_freq high_freq]|e]; [|discriminate].
  cbn [bind fst snd]. rewrite H. reflexivity.
Qed.

Lemma preprocess_ecg_long_enough (lib : Capabilities) (ecg_signal : signal) (rate : Z) :
  2 <= rate < 80000 -> filtfilt_padlen < py_len ecg_signal ->
  preprocess_ecg lib ecg_signal rate = Ok (butter_filtfilt lib rate ecg_signal).
Proof.
  intros Hr Hlen. rewrite (preprocess_ecg_band _ _ _ (band_accepted_range _ Hr)).
  destruct (Z.leb_spec (py_len ecg_signal) filtfilt_padlen); [lia|]. reflexivity.
Qed.

Lemma preprocess_ecg_too_short (lib : Capabilities) (ecg_signal : signal) (rate : Z) :
  2 <= rate < 80000 -> py_len ecg_signal <= filtfilt_padlen ->
  preprocess_ecg lib ecg_signal rate = Raise filtfilt_too_short.
Proof.
  intros Hr Hlen. rewrite (preprocess_ecg_band _ _ _ (band_accepted_range _ Hr)).
  destruct (Z.leb_spec (py_len ecg_signal) filtfilt_padlen); [reflexivity | lia].
Qed.

Lemma preprocess_ecg_bad_band (lib : Capabilities) (ecg_signal : signal) (rate : Z) :
  band_accepted rate = false ->
  exists e, preprocess_ecg lib ecg_signal rate = Raise e /\ e <> filtfilt_too_short.
Proof.
  unfold band_accepted, preprocess_ecg. intros H.
  destruct (butter_band rate) as [[low_freq high_freq]|e] eqn:Hband.
  - cbn [bind fst snd]. rewrite H. exists butter_bad_band. split; [reflexivity | discriminate].
  - cbn [bind]. exists e. split; [reflexivity|].
    unfold butter_band, py_half, py_fdiv in Hband.
    destruct (PrimFloat.is_infinity _); [cbn [bind] in Hband; injection Hband as <-; discriminate|].
    cbn [bind] in Hband.
    destruct (PrimFloat.eqb _ 0); cbn [bind] in Hband;
      [injection Hband as <-; discriminate | discriminate].
Qed.

Lemma boundary_filter_short (m n : Z) (r_peaks : list Z) :
  n < 2 * m + 1 -> boundary_filter m n r_peaks = [].
Proof.
  intros Hn. unfold boundary_filter.
  induction r_peaks as [|p r IH]; [reflexivity|]. simpl.
  destruct (Z.leb_spec m p); destruct (Z.ltb_spec p (n - m)); simpl; try assumption. lia.
Qed.

(** C4, as the code has it: at a sampling rate from 2 to 79999 Hz, where
    [butter] accepts the clamped band, a signal longer than the filter's
    pad length and shorter than [2 * margin + 1] passes the conditioner,
    loses every candidate peak to the boundary filter, and the pipeline
    fails with the no-peaks error. *)
Theorem short_signal_fails_with_no_peaks (lib : Capabilities) (continuous_ecg : signal)
  (scaler : StandardScaler) (L rate m : Z) (cands : list Z) :
  2 <= rate < 80000 ->
  py_int_scaled 0.2 rate = Ok m ->
  filtfilt_padlen < py_len continuous_ecg ->
  py_len continuous_ecg < 2 * m + 1 ->
  py_len (butter_filtfilt lib rate continuous_ecg) = py_len continuous_ecg ->
  candidate_peaks lib (butter_filtfilt lib rate continuous_ecg) rate = Ok cands ->
  boundary_filter m (py_len continuous_ecg) cands = [] /\
  detect_r_peaks lib (butter_filtfilt lib rate continuous_ecg) rate = Raise no_valid_r_peaks /\
  segment_ecg_beats lib continuous_ecg scaler L rate = Raise no_valid_r_peaks.
Proof.
  intros Hr Hm Hpad Hshort Hsame Hc.
  pose proof (boundary_filter_short m _ cands Hshort) as Hnil.
  assert (Hdet : detect_r_peaks lib (butter_filtfilt lib rate continuous_ecg) rate
                 = Raise no_valid_r_peaks).
  { unfold detect_r_peaks. rewrite Hc. simpl. rewrite Hm. simpl.
    rewrite Hsame, Hnil. reflexivity. }
  repeat split; try assumption.
  unfold segment_ecg_beats. rewrite preprocess_ecg_long_enough by assumption.
  simpl. rewrite Hdet. reflexivity.
Qed.

Lemma short_signal_fails_with_no_peaks_witness :
  boundary_filter 72 (py_len (flat_signal 100)) [10; 50; 90] = [] /\
  detect_r_peaks (lib_with_wfdb [10; 50; 90])
    (butter_filtfilt (lib_with_wfdb [10; 50; 90]) 360 (flat_signal 100)) 360
    = Raise no_valid_r_peaks /\
  segment_ecg_beats (lib_with_wfdb [10; 50; 90]) (flat_signal 100) (unit_scaler 250) 250 360
    = Raise no_valid_r_peaks.
Proof.
  apply (short_signal_fails_with_no_peaks (lib_with_wfdb [10; 50; 90]) (flat_signal 100)
           (unit_scaler 250) 250 360 72 [10; 50; 90]).
  - lia.
  - vm_compute. reflexivity.
  - vm_compute. reflexivity.
  - vm_compute. reflexivity.
  - reflexivity.
  - reflexivity.
Defined.

(** C4, as the specification has it, fails for the shortest signals: 20
    samples are fewer than [2 * 72 + 1], and the pipeline already fails in
    the conditioner, whose zero-phase filter needs more than 27 samples. *)
Lemma very_short_signal_fails_in_filter :
  py_int_scaled 0.2 360 = Ok 72 /\
  py_len (flat_signal 20) < 2 * 72 + 1 /\
  segment_ecg_beats lib_without_wfdb (flat_signal 20) (unit_scaler 250) 250 360
    = Raise filtfilt_too_short /\
  filtfilt_too_short <> no_valid_r_peaks.
Proof.
  repeat split; try (vm_compute; reflexivity).
  discriminate.
Qed.

(* ===================================================================== *)
(** * Segment validation *)
(* ===================================================================== *)

Lemma Qle_bool_false (x y : Q) : Qle_bool x y = false -> (y < x)%Q.
Proof.
  intros H. apply Qnot_le_lt. intros Hle.
  apply Qle_bool_iff in Hle. congruence.
Qed.

Lemma Qltb_true (x y : Q) : Qltb x y = true -> (x < y)%Q.
Proof.
  unfold Qltb. intros H. apply Qle_bool_false.
  destruct (Qle_bool y x); [discriminate | reflexivity].
Qed.

Lemma Qltb_false (x y : Q) : Qltb x y = false -> (y <= x)%Q.
Proof.
  unfold Qltb. intros H. apply Qle_bool_iff.
  destruct (Qle_bool y x); [reflexivity | discriminate].
Qed.

(** The running maximum stays below a bound exactly when every value seen
    so far does. *)
Lemma running_max_le (a q bound : Q) :
  Qle_bool (if Qltb a q then q else a) bound = Qle_bool a bound && Qle_bool q bound.
Proof.
  destruct (Qltb a q) eqn:E.
  - apply Qltb_true in E.
    destruct (Qle_bool q bound) eqn:Eq; [|rewrite andb_false_r; reflexivity].
    rewrite andb_true_r. symmetry. apply Qle_bool_iff.
    apply Qle_bool_iff in Eq. apply Qlt_le_weak in E. eapply Qle_trans; eassumption.
  - apply Qltb_false in E.
    destruct (Qle_bool a bound) eqn:Ea; [|reflexivity].
    simpl. symmetry. apply Qle_bool_iff.
    apply Qle_bool_iff in Ea. eapply Qle_trans; eassumption.
Qed.

Lemma no_nan_inf_forallb (segment : list sample) :
  forallb (fun x => negb (np_isnan x) && negb (np_isinf x)) segment =
  negb (existsb np_isnan segment || existsb np_isinf segment).
Proof.
  induction segment as [|x r IH]; [reflexivity|].
  simpl. rewrite IH.
  destruct x; simpl; try reflexivity;
    destruct (existsb np_isnan r); simpl; try reflexivity;
    destruct (existsb np_isinf r); reflexivity.
Qed.

Lemma no_nan_inf_finite (segment : list sample) :
  existsb np_isnan segment || existsb np_isinf segment = false ->
  exists qs, segment = map Fin qs /\ finite_values segment = Some qs.
Proof.
  induction segment as [|x r IH]; intros H.
  - exists []. split; reflexivity.
  - simpl in H. destruct x; simpl in H;
      try (rewrite ?orb_true_r in H; discriminate).
    destruct (IH H) as [qs [-> Hf]]. exists (q :: qs). split; [reflexivity|].
    simpl. rewrite Hf. reflexivity.
Qed.

Lemma sample_max_abs_step (a q : Q) :
  sample_max (Fin a) (sample_abs (Fin q)) = Fin (if Qltb a (Qabs q) then Qabs q else a).
Proof. simpl. destruct (Qltb a (Qabs q)); reflexivity. Qed.

Lemma abs_max_le (qs : list Q) (a bound : Q) :
  sample_gtb (fold_left sample_max (map sample_abs (map Fin qs)) (Fin a)) (Fin bound) =
  negb (Qle_bool a bound
        && forallb (fun x => sample_leb (sample_abs x) (Fin bound)) (map Fin qs)).
Proof.
  revert a. induction qs as [|q r IH]; intros a.
  - simpl. unfold sample_gtb, sample_ltb, Qltb. rewrite andb_true_r. reflexivity.
  - cbn [map fold_left forallb]. rewrite sample_max_abs_step, IH, running_max_le.
    rewrite andb_assoc. reflexivity.
Qed.

(** The loop body implements the acceptance rule. *)
Lemma validate_one_accepts (L : Z) (segment : list sample) :
  validate_one L segment = accepts L segment.
Proof.
  unfold validate_one, accepts.
  destruct (py_len segment =? L); [|reflexivity].
  cbn [negb andb]. rewrite no_nan_inf_forallb.
  destruct (existsb np_isnan segment || existsb np_isinf segment) eqn:Hbad;
    [reflexivity|].
  cbn [negb andb].
  destruct (no_nan_inf_finite _ Hbad) as [qs [-> Hf]].
  unfold np_std_lt, np_std_ge, np_var. rewrite Hf.
  destruct qs as [|q r]; [reflexivity|].
  cbv beta iota zeta.
  match goal with
  | |- context [sample_ltb (Fin ?v) (Fin ?b)] =>
      change (sample_ltb (Fin v) (Fin b)) with (negb (sample_leb (Fin b) (Fin v)));
      destruct (sample_leb (Fin b) (Fin v))
  end; [|reflexivity].
  change (np_max (map sample_abs (map Fin (q :: r))))
    with (Ok (fold_left sample_max (map sample_abs (map Fin r)) (Fin (Qabs q)))).
  cbv beta iota. cbn [negb andb]. rewrite abs_max_le.
  change (forallb (fun x => sample_leb (sample_abs x) (Fin 100)) (map Fin (q :: r)))
    with (Qle_bool (Qabs q) 100
          && forallb (fun x => sample_leb (sample_abs x) (Fin 100)) (map Fin r)).
  destruct (Qle_bool (Qabs q) 100 && forallb _ (map Fin r)); reflexivity.
Qed.

Lemma validate_loop_filter (L : Z) (segments acc : list (list sample)) :
  validate_loop L segments acc = acc ++ filter (validate_one L) segments.
Proof.
  revert acc. induction segments as [|s r IH]; intros acc; simpl.
  - rewrite app_nil_r. reflexivity.
  - rewrite IH. destruct (validate_one L s); [|reflexivity].
    rewrite <- app_assoc. reflexivity.
Qed.

Lemma validate_segments_filter (segments : list (list sample)) (L : Z) :
  validate_segments segments L = filter (accepts L) segments.
Proof.
  unfold validate_segments. rewrite validate_loop_filter. simpl.
  apply filter_ext. intros s. apply validate_one_accepts.
Qed.

Lemma scale_row_length (means scales : list Q) (row : list sample) :
  py_len row = py_len means -> py_len scales = py_len means ->
  py_len (scale_row means scales row) = py_len row.
Proof.
  unfold py_len. revert means scales.
  induction row as [|x r IH]; intros [|m ms] [|s ss]; simpl; intros H1 H2; try lia.
  specialize (IH ms ss). lia.
Qed.

Lemma accepted_length (L : Z) (segments : list (list sample)) :
  Forall (fun s => py_len s = L) (filter (accepts L) segments).
Proof.
  apply Forall_forall. intros s Hs. apply filter_In in Hs. destruct Hs as [_ Hs].
  unfold accepts in Hs. rewrite !andb_true_iff in Hs.
  destruct Hs as [[[Hlen _] _] _]. apply Z.eqb_eq. assumption.
Qed.

Lemma scaler_transform_lengths (scaler : StandardScaler) (X : list (list sample)) :
  Forall (fun row => py_len row = py_len (mean_ scaler)) X ->
  scaler_transform scaler X = Ok (map (scale_row (mean_ scaler) (scale_ scaler)) X).
Proof.
  intros H. unfold scaler_transform.
  replace (forallb _ X) with true; [reflexivity|].
  symmetry. apply forallb_forall. rewrite Forall_forall in H.
  intros row Hrow. apply Z.eqb_eq. apply H. assumption.
Qed.

(** C8: the validator returns, in the original order, exactly the segments
    that have the expected length, no NaN or infinite value, a standard
    deviation of at least 1e-6 and a maximum absolute amplitude of at most
    100; and the pipeline goes on to normalisation whenever at least one
    segment is accepted, whatever share of the input was rejected. *)
Theorem validate_segments_spec :
  (forall segments L, validate_segments segments L = filter (accepts L) segments) /\
  (forall lib continuous_ecg scaler L rate filtered peaks,
     preprocess_ecg lib continuous_ecg rate = Ok filtered ->
     detect_r_peaks lib filtered rate = Ok peaks ->
     py_len (mean_ scaler) = L -> py_len (scale_ scaler) = L ->
     let raw := extract_heartbeat_segments filtered peaks L in
     let valid := validate_segments raw L in
     valid <> [] ->
     segment_ecg_beats lib continuous_ecg scaler L rate =
       Ok (if 2 * py_len valid <? py_len raw
           then [ManySegmentsFilteredOut (py_len valid) (py_len raw)] else [],
           map (scale_row (mean_ scaler) (scale_ scaler)) valid)).
Proof.
  split; [intros; apply validate_segments_filter|].
  intros lib continuous_ecg scaler L rate filtered peaks Hpre Hdet Hmean Hscale raw valid Hvalid.
  unfold segment_ecg_beats. rewrite Hpre. simpl. rewrite Hdet. simpl.
  apply detect_r_peaks_inv in Hdet. destruct Hdet as [_ [_ [_ [_ [_ Hpeaks]]]]].
  destruct (Z.eqb_spec (py_len peaks) 0) as [E|_];
    [apply py_len_zero_nil in E; contradiction|].
  fold raw.
  destruct (Z.eqb_spec (py_len raw) 0) as [E|_].
  { apply py_len_zero_nil in E. exfalso. apply Hvalid. unfold valid.
    rewrite E. reflexivity. }
  fold valid.
  destruct (Z.eqb_spec (py_len valid) 0) as [E|_];
    [apply py_len_zero_nil in E; contradiction|].
  assert (Hlen : Forall (fun s => py_len s = L) valid).
  { unfold valid. rewrite validate_segments_filter. apply accepted_length. }
  rewrite scaler_transform_lengths
    by (rewrite Hmean; exact Hlen).
  simpl.
  destruct valid as [|v vs]; [contradiction|].
  simpl. inversion Hlen as [|? ? Hv _]; subst.
  rewrite scale_row_length by lia. rewrite Hv, Z.eqb_refl. reflexivity.
Qed.

Lemma validate_segments_spec_witness :
  validate_segments
    [[Fin 0; Fin 0; Fin 0; Fin 0]; [Fin 0; Fin 1; Fin 2; Fin 1]; [Fin 0; NaN; Fin 1; Fin 0];
     [Fin 0; Fin 1; Fin 200; Fin 1]; [Fin 1; Fin 2]] 4
  = [[Fin 0; Fin 1; Fin 2; Fin 1]] /\
  segment_ecg_beats (lib_with_wfdb [100; 300; 500]) one_beat_signal (unit_scaler 4) 4 360
  = Ok ([ManySegmentsFilteredOut 1 3], [[Fin 0; Fin 1; Fin 2; Fin 1]]).
Proof.
  destruct validate_segments_spec as [Hfilter Hpipeline]. split.
  - rewrite Hfilter. vm_compute. reflexivity.
  - rewrite (Hpipeline (lib_with_wfdb [100; 300; 500]) one_beat_signal (unit_scaler 4) 4 360
               one_beat_signal [100; 300; 500]).
    + vm_compute. reflexivity.
    + vm_compute. reflexivity.
    + vm_compute. reflexivity.
    + reflexivity.
    + reflexivity.
    + vm_compute. discriminate.
Defined.

(* ===================================================================== *)
(** * Normalisation *)
(* ===================================================================== *)

Lemma Q_sub0_div1 (q : Q) : ((q - 0) / 1)%Q = q.
Proof.
  destruct q as [a b]. unfold Qdiv, Qminus, Qplus, Qmult, Qinv, Qopp. simpl.
  rewrite !Z.mul_1_r, Z.add_0_r, !Pos.mul_1_r. reflexivity.
Qed.

Lemma scale_sample_identity (x : sample) : sample_div (sample_sub x 0) 1 = x.
Proof.
  destruct x; simpl; try reflexivity.
  rewrite Q_sub0_div1. reflexivity.
Qed.

Lemma scale_row_identity (means scales : list Q) (row : list sample) :
  Forall (eq 0%Q) means -> Forall (eq 1%Q) scales ->
  py_len scales = py_len means -> py_len row = py_len means ->
  scale_row means scales row = row.
Proof.
  unfold py_len. intros Hm. revert scales row.
  induction Hm as [|m ms <- _ IH]; intros scales row Hs Hls Hlr.
  - destruct row; [reflexivity | simpl in Hlr; lia].
  - destruct Hs as [|s ss <- Hss]; [simpl in Hls; lia|].
    destruct row as [|x r]; [simpl in Hlr; lia|].
    simpl. rewrite scale_sample_identity. f_equal.
    apply IH; simpl in *; try assumption; lia.
Qed.

(** C9, the identity law of the normaliser: with mean 0 and standard
    deviation 1 at every position, the transformed batch is the input
    batch. *)
Theorem scaler_transform_identity (scaler : StandardScaler) (X : list (list sample)) :
  Forall (eq 0%Q) (mean_ scaler) ->
  Forall (eq 1%Q) (scale_ scaler) ->
  py_len (scale_ scaler) = py_len (mean_ scaler) ->
  Forall (fun row => py_len row = py_len (mean_ scaler)) X ->
  scaler_transform scaler X = Ok X.
Proof.
  intros Hm Hs Hlen Hrows. rewrite scaler_transform_lengths by assumption.
  f_equal. rewrite <- (map_id X) at 2. apply map_ext_in.
  intros row Hrow. rewrite Forall_forall in Hrows.
  apply scale_row_identity; auto.
Qed.

Lemma scaler_transform_identity_witness :
  scaler_transform (unit_scaler 4)
    [[Fin 0; Fin (1 # 3); Fin (-2); Fin 1]; [Fin (7 # 2); PInf; NaN; Fin 0]]
  = Ok [[Fin 0; Fin (1 # 3); Fin (-2); Fin 1]; [Fin (7 # 2); PInf; NaN; Fin 0]].
Proof.
  apply scaler_transform_identity.
  - repeat constructor.
  - repeat constructor.
  - reflexivity.
  - repeat constructor.
Defined.

(* ===================================================================== *)
(** * Batched classification *)
(* ===================================================================== *)

Lemma py_slice_nat {A} (l : list A) (s e : Z) :
  0 <= s -> 0 <= e ->
  py_slice l s e = firstn (Z.to_nat e - Z.to_nat s) (skipn (Z.to_nat s) l).
Proof.
  intros Hs He. unfold py_slice, py_slice_index, py_len.
  destruct (Z.ltb_spec s 0); [lia|]. destruct (Z.ltb_spec e 0); [lia|].
  destruct (Z_le_gt_dec s (Z.of_nat (List.length l))) as [Hsn|Hsn].
  - rewrite (Z.min_l s) by lia.
    destruct (Z_le_gt_dec e (Z.of_nat (List.length l))) as [Hen|Hen].
    + rewrite Z.min_l by lia. f_equal. lia.
    + rewrite Z.min_r by lia.
      rewrite !firstn_all2; [reflexivity | |]; rewrite length_skipn; lia.
  - rewrite (Z.min_r s) by lia.
    rewrite Nat2Z.id, (skipn_all2 l) by lia.
    rewrite (skipn_all2 l) by lia. rewrite !firstn_nil. reflexivity.
Qed.

Lemma firstn_add_skipn {A} (m k : nat) (l : list A) :
  firstn m l ++ firstn k (skipn m l) = firstn (m + k) l.
Proof.
  revert l. induction m as [|m IH]; intros l; [reflexivity|].
  destruct l as [|x r]; simpl.
  - rewrite firstn_nil. reflexivity.
  - rewrite IH. reflexivity.
Qed.

Lemma py_slice_app {A} (l : list A) (a b c : Z) :
  0 <= a -> a <= b -> b <= c ->
  py_slice l a b ++ py_slice l b c = py_slice l a c.
Proof.
  intros Ha Hab Hbc. rewrite !py_slice_nat by lia.
  replace (skipn (Z.to_nat b) l)
    with (skipn (Z.to_nat b - Z.to_nat a) (skipn (Z.to_nat a) l))
    by (rewrite skipn_skipn; f_equal; lia).
  rewrite firstn_add_skipn. f_equal. lia.
Qed.

Lemma py_slice_all {A} (l : list A) (e : Z) :
  py_len l <= e -> py_slice l 0 e = l.
Proof.
  intros He. pose proof (py_len_nonneg l).
  rewrite py_slice_nat by lia. simpl. apply firstn_all2. unfold py_len in *. lia.
Qed.

Lemma py_slice_length_clipped {A} (l : list A) (s e : Z) :
  0 <= s -> s <= py_len l -> py_len l <= e ->
  py_len (py_slice l s e) = py_len l - s.
Proof.
  intros Hs Hsn Hne. rewrite py_slice_nat by lia. unfold py_len in *.
  rewrite length_firstn, length_skipn. lia.
Qed.

Lemma py_range_from_snoc (c : nat) (start step : Z) :
  py_range_from (S c) start step =
  py_range_from c start step ++ [start + Z.of_nat c * step].
Proof.
  revert start. induction c as [|c IH]; intros start.
  - simpl. f_equal. lia.
  - change (py_range_from (S (S c)) start step)
      with (start :: py_range_from (S c) (start + step) step).
    rewrite IH. cbn [py_range_from app]. do 3 f_equal. lia.
Qed.

Lemma py_range_from_length (c : nat) (start step : Z) :
  List.length (py_range_from c start step) = c.
Proof. revert start. induction c; intros; simpl; auto. Qed.

Section Batches.

Context {A : Type} (X : list A) (batch_size : Z).
Hypothesis batch_size_pos : 0 < batch_size.

Let batch (i : Z) : list A := py_slice X i (i + batch_size).

Lemma batches_concat_from (c : nat) (start : Z) :
  0 <= start ->
  List.concat (map batch (py_range_from c start batch_size)) =
  py_slice X start (start + Z.of_nat c * batch_size).
Proof.
  revert start. induction c as [|c IH]; intros start Hs.
  - simpl. rewrite py_slice_nat by lia. rewrite Z.add_0_r, Nat.sub_diag. reflexivity.
  - change (py_range_from (S c) start batch_size)
      with (start :: py_range_from c (start + batch_size) batch_size).
    simpl map. cbn [List.concat]. rewrite IH by lia. unfold batch.
    rewrite py_slice_app by nia. f_equal. lia.
Qed.

Lemma batches_full_sizes (c : nat) (start : Z) :
  0 <= start -> start + Z.of_nat c * batch_size <= py_len X ->
  map py_len (map batch (py_range_from c start batch_size)) = repeat batch_size c.
Proof.
  revert start. induction c as [|c IH]; intros start Hs Hn; [reflexivity|].
  change (py_range_from (S c) start batch_size)
    with (start :: py_range_from c (start + batch_size) batch_size).
  simpl. rewrite IH by lia. f_equal. unfold batch.
  rewrite py_slice_length by nia. lia.
Qed.

(** How many batches [range(0, N, batch_size)] starts. *)
Lemma batch_count :
  (py_len X + batch_size - 1) / batch_size =
  py_len X / batch_size + (if py_len X mod batch_size =? 0 then 0 else 1).
Proof.
  pose proof (Z.div_mod (py_len X) batch_size ltac:(lia)) as Hdm.
  pose proof (Z.mod_pos_bound (py_len X) batch_size batch_size_pos) as Hmod.
  set (q := py_len X / batch_size) in *. set (r := py_len X mod batch_size) in *.
  destruct (Z.eqb_spec r 0) as [E|E].
  - symmetry. apply (Z.div_unique _ _ _ (batch_size - 1)); lia.
  - symmetry. apply (Z.div_unique _ _ _ (r - 1)); lia.
Qed.

Lemma batches_of_concat : List.concat (batches_of X batch_size) = X.
Proof.
  unfold batches_of, py_range. fold batch.
  rewrite batches_concat_from by lia.
  apply py_slice_all.
  pose proof (py_len_nonneg X).
  rewrite Z.sub_0_r, Z2Nat.id by (apply Z.div_pos; lia).
  pose proof (Z.mul_succ_div_gt (py_len X + batch_size - 1) batch_size batch_size_pos).
  lia.
Qed.

Lemma batches_of_sizes :
  map py_len (batches_of X batch_size) = expected_batch_sizes (py_len X) batch_size.
Proof.
  unfold batches_of, py_range, expected_batch_sizes. fold batch.
  pose proof (py_len_nonneg X) as Hn.
  pose proof (Z.div_mod (py_len X) batch_size ltac:(lia)) as Hdm.
  pose proof (Z.mod_pos_bound (py_len X) batch_size batch_size_pos) as Hmod.
  assert (Hq : 0 <= py_len X / batch_size) by (apply Z.div_pos; lia).
  rewrite Z.sub_0_r, batch_count.
  destruct (Z.eqb_spec (py_len X mod batch_size) 0) as [E|E].
  - rewrite Z.add_0_r, app_nil_r. apply batches_full_sizes; [lia|].
    rewrite Z2Nat.id by assumption. lia.
  - rewrite Z2Nat.inj_add by lia.
    change (Z.to_nat 1) with 1%nat. rewrite Nat.add_1_r, py_range_from_snoc.
    rewrite !map_app. f_equal.
    + apply batches_full_sizes; [lia|]. rewrite Z2Nat.id by assumption. lia.
    + simpl. f_equal. unfold batch. rewrite Z2Nat.id by assumption.
      rewrite py_slice_length_clipped; lia.
Qed.

Lemma batches_of_count :
  py_len (batches_of X batch_size) = (py_len X + batch_size - 1) / batch_size.
Proof.
  unfold batches_of, py_range, py_len at 1.
  rewrite length_map, py_range_from_length, Z.sub_0_r.
  apply Z2Nat.id. pose proof (py_len_nonneg X). apply Z.div_pos; lia.
Qed.

End Batches.

(** ** The classification loop *)

Lemma map_result_Forall2 {A B} (f : A -> result B) (l : list A) (l' : list B) :
  map_result f l = Ok l' -> Forall2 (fun x y => f x = Ok y) l l'.
Proof.
  revert l'. induction l as [|x r IH]; intros l' H; simpl in H.
  - injection H as <-. constructor.
  - apply bind_Ok_inv in H. destruct H as [y [Hy H]].
    apply bind_Ok_inv in H. destruct H as [ys [Hys H]].
    injection H as <-. constructor; auto.
Qed.

Lemma map_result_app {A B} (f : A -> result B) (l1 l2 : list A) (r1 r2 : list B) :
  map_result f l1 = Ok r1 -> map_result f l2 = Ok r2 ->
  map_result f (l1 ++ l2) = Ok (r1 ++ r2).
Proof.
  revert r1. induction l1 as [|x r IH]; intros r1 H1 H2; simpl in *.
  - injection H1 as <-. assumption.
  - apply bind_Ok_inv in H1. destruct H1 as [y [Hy H1]].
    apply bind_Ok_inv in H1. destruct H1 as [ys [Hys H1]].
    injection H1 as <-. rewrite Hy. simpl. rewrite (IH ys Hys H2). reflexivity.
Qed.

Lemma map_result_length {A B} (f : A -> result B) (l : list A) (l' : list B) :
  map_result f l = Ok l' -> py_len l' = py_len l.
Proof.
  intros H. apply map_result_Forall2 in H. unfold py_len.
  rewrite (Forall2_length H). reflexivity.
Qed.

Lemma map_result_total {A B} (f : A -> result B) (l : list A) :
  Forall (fun x => exists y, f x = Ok y) l -> exists l', map_result f l = Ok l'.
Proof.
  induction 1 as [|x r [y Hy] _ [ys Hys]]; simpl.
  - eauto.
  - rewrite Hy, Hys. simpl. eauto.
Qed.

Lemma np_argmax_total (row : list Q) : row <> [] -> exists c, np_argmax row = Ok c.
Proof. destruct row; [contradiction | simpl; eauto]. Qed.

Lemma np_row_max_total (row : list Q) : row <> [] -> exists p, np_row_max row = Ok p.
Proof. destruct row; [contradiction | simpl; eauto]. Qed.

Section ClassifyLoop.

Variable model_predict : list (list sample) -> result (list (list Q)).
Variable X_segments : list (list sample).
Variable batch_size : Z.

(** What a completed run of the loop has done: one call per start index, in
    order, and the class and confidence of every returned row appended in
    the order of the rows. *)
Let batches_from (starts : list Z) :=
  map (fun i => py_slice X_segments i (i + batch_size)) starts.

Lemma classify_loop_inv (starts : list Z) (st st' : classify_state) :
  classify_loop model_predict X_segments batch_size starts st = Ok st' ->
  predict_calls st' = predict_calls st ++ batches_from starts /\
  Forall (fun b => exists rows, model_predict b = Ok rows) (batches_from starts) /\
  exists classes confidences,
    map_result np_argmax (List.concat (map (rows_of model_predict) (batches_from starts)))
      = Ok classes /\
    map_result np_row_max (List.concat (map (rows_of model_predict) (batches_from starts)))
      = Ok confidences /\
    all_predictions st' = all_predictions st ++ classes /\
    all_confidences st' = all_confidences st ++ confidences.
Proof.
  unfold batches_from. revert st. induction starts as [|i rest IH]; intros st H; simpl in H.
  - injection H as <-. simpl. rewrite !app_nil_r.
    split; [reflexivity|]. split; [constructor|]. exists [], []. rewrite !app_nil_r. auto.
  - apply bind_Ok_inv in H. destruct H as [st1 [Hstep H]].
    unfold classify_step in Hstep.
    apply bind_Ok_inv in Hstep. destruct Hstep as [rows [Hrows Hstep]].
    apply bind_Ok_inv in Hstep. destruct Hstep as [cls [Hcls Hstep]].
    apply bind_Ok_inv in Hstep. destruct Hstep as [cfs [Hcfs Hstep]].
    injection Hstep as <-.
    destruct (IH _ H) as [Hcalls [Hret [classes [confidences [Hc1 [Hc2 [Hp Hq]]]]]]].
    simpl in Hcalls, Hp, Hq. split; [|split].
    + rewrite Hcalls, <- app_assoc. reflexivity.
    + cbn [map]. constructor; [eauto | exact Hret].
    + exists (cls ++ classes), (cfs ++ confidences). cbn [map List.concat].
      unfold rows_of at 1 3. rewrite Hrows.
      rewrite (map_result_app _ _ _ _ _ Hcls Hc1), (map_result_app _ _ _ _ _ Hcfs Hc2).
      rewrite Hp, Hq, <- !app_assoc. auto.
Qed.

Lemma classify_loop_total (starts : list Z) (st : classify_state) :
  one_row_per_segment model_predict ->
  exists st', classify_loop model_predict X_segments batch_size starts st = Ok st'.
Proof.
  intros Hrows. revert st. induction starts as [|i rest IH]; intros st; simpl.
  - eauto.
  - unfold classify_step.
    destruct (Hrows (py_slice X_segments i (i + batch_size))) as [rows [-> [_ Hne]]].
    cbn [bind].
    destruct (map_result_total np_argmax _
                (Forall_impl _ np_argmax_total Hne)) as [cls ->].
    destruct (map_result_total np_row_max _
                (Forall_impl _ np_row_max_total Hne)) as [cfs ->].
    simpl. apply IH.
Qed.

End ClassifyLoop.

Lemma concat_map_length {A B} (f : list A -> list B) (batches : list (list A)) :
  (forall b, py_len (f b) = py_len b) ->
  py_len (List.concat (map f batches)) = py_len (List.concat batches).
Proof.
  intros Hf. induction batches as [|b r IH]; [reflexivity|].
  simpl. rewrite !py_len_app, Hf, IH. reflexivity.
Qed.

(** C6: with a classifier that returns one probability row per segment
    on every call,
    classification in batches calls it on consecutive slices of the input
    whose sizes are [batch_size, ..., batch_size] followed by the remainder
    (ceil(N / batch_size) calls in all), and yields one class and one
    confidence per segment, in the order of the probability rows, hence of
    the segments. *)
Theorem classify_segments_batches (model_predict : list (list sample) -> result (list (list Q)))
  (X_segments : list (list sample)) (batch_size : Z) :
  0 < batch_size ->
  one_row_per_segment model_predict ->
  exists st,
    classify_segments model_predict X_segments batch_size = Ok st /\
    predict_calls st = batches_of X_segments batch_size /\
    List.concat (predict_calls st) = X_segments /\
    map py_len (predict_calls st) = expected_batch_sizes (py_len X_segments) batch_size /\
    py_len (predict_calls st) = (py_len X_segments + batch_size - 1) / batch_size /\
    py_len (all_predictions st) = py_len X_segments /\
    py_len (all_confidences st) = py_len X_segments /\
    map_result np_argmax (List.concat (map (rows_of model_predict) (predict_calls st)))
      = Ok (all_predictions st) /\
    map_result np_row_max (List.concat (map (rows_of model_predict) (predict_calls st)))
      = Ok (all_confidences st).
Proof.
  intros Hbs Hrows. unfold classify_segments.
  destruct (classify_loop_total model_predict X_segments batch_size
              (py_range 0 (py_len X_segments) batch_size)
              {| predict_calls := []; all_predictions := []; all_confidences := [] |} Hrows)
    as [st Hst].
  exists st. split; [assumption|].
  apply classify_loop_inv in Hst.
  destruct Hst as [Hcalls [_ [classes [confidences [Hc1 [Hc2 [Hp Hq]]]]]]].
  simpl in Hcalls, Hp, Hq. fold (batches_of X_segments batch_size) in Hcalls, Hc1, Hc2.
  rewrite Hcalls, Hp, Hq.
  assert (Hlen : py_len (List.concat (map (rows_of model_predict)
                                        (batches_of X_segments batch_size)))
                 = py_len X_segments).
  { rewrite concat_map_length.
    - rewrite batches_of_concat by assumption. reflexivity.
    - intros b. unfold rows_of. destruct (Hrows b) as [rows [-> [Hl _]]]. exact Hl. }
  repeat split.
  - apply batches_of_concat. assumption.
  - apply batches_of_sizes. assumption.
  - apply batches_of_count. assumption.
  - rewrite (map_result_length _ _ _ Hc1). assumption.
  - rewrite (map_result_length _ _ _ Hc2). assumption.
  - assumption.
  - assumption.
Qed.

Lemma sign_classifier_rows : one_row_per_segment sign_classifier.
Proof.
  intros batch. unfold sign_classifier. eexists. split; [reflexivity|].
  unfold py_len. rewrite length_map. split; [reflexivity|].
  apply Forall_forall. intros row Hrow. apply in_map_iff in Hrow.
  destruct Hrow as [segment [<- _]].
  destruct segment as [|[q| | |] ?]; try discriminate.
  destruct (Qle_bool 0 q); discriminate.
Qed.

Lemma classify_segments_batches_witness :
  exists st,
    classify_segments sign_classifier segments_237 100 = Ok st /\
    predict_calls st = batches_of segments_237 100 /\
    List.concat (predict_calls st) = segments_237 /\
    map py_len (predict_calls st) = [100; 100; 37] /\
    py_len (predict_calls st) = 3 /\
    py_len (all_predictions st) = 237 /\
    py_len (all_confidences st) = 237 /\
    map_result np_argmax (List.concat (map (rows_of sign_classifier) (predict_calls st)))
      = Ok (all_predictions st) /\
    map_result np_row_max (List.concat (map (rows_of sign_classifier) (predict_calls st)))
      = Ok (all_confidences st).
Proof.
  apply (classify_segments_batches sign_classifier segments_237 100).
  - lia.
  - exact sign_classifier_rows.
Defined.

(** ** Class and confidence of one row *)

Lemma argmax_picks_max (pre l : list Q) (best_i i : nat) (best : Q) :
  List.length pre = i ->
  nth_error (pre ++ l) best_i = Some best ->
  nth_error (pre ++ l) (np_argmax_from best_i best i l) = Some (np_max_from best l).
Proof.
  revert pre best_i i best. induction l as [|x r IH]; intros pre best_i i best Hi Hb.
  - assumption.
  - simpl. replace (pre ++ x :: r) with ((pre ++ [x]) ++ r) in *
      by (rewrite <- app_assoc; reflexivity).
    destruct (Qltb best x).
    + apply IH.
      * rewrite length_app. simpl. lia.
      * rewrite nth_error_app1 by (rewrite length_app; simpl; lia).
        rewrite nth_error_app2 by lia. rewrite Hi, Nat.sub_diag. reflexivity.
    + apply IH; [rewrite length_app; simpl; lia | assumption].
Qed.

Lemma max_from_upper_bound (l : list Q) (best : Q) :
  (best <= np_max_from best l)%Q /\ forall x, In x l -> (x <= np_max_from best l)%Q.
Proof.
  revert best. induction l as [|y r IH]; intros best.
  - split; [apply Qle_refl | intros x []].
  - simpl. destruct (Qltb best y) eqn:E.
    + destruct (IH y) as [Hy Hr]. apply Qltb_true in E. split.
      * eapply Qle_trans; [apply Qlt_le_weak; exact E | exact Hy].
      * intros x [<-|Hx]; auto.
    + destruct (IH best) as [Hb Hr]. apply Qltb_false in E. split; [assumption|].
      intros x [<-|Hx]; [eapply Qle_trans; eassumption | auto].
Qed.

(** The confidence of a row is the entry at the predicted class, and no
    entry of the row is larger. *)
Lemma row_class_confidence (row : list Q) (c : nat) (p : Q) :
  np_argmax row = Ok c -> np_row_max row = Ok p ->
  nth_error row c = Some p /\ forall x, In x row -> (x <= p)%Q.
Proof.
  destruct row as [|x r]; [discriminate|]. simpl.
  intros Hc Hp. injection Hc as <-. injection Hp as <-. split.
  - apply (argmax_picks_max [x] r 0 1 x); reflexivity.
  - destruct (max_from_upper_bound r x) as [Hx Hr].
    intros y [<-|Hy]; auto.
Qed.

Lemma Forall2_nth_error {A B} (R : A -> B -> Prop) (l : list A) (l' : list B) (j : nat) (x : A) :
  Forall2 R l l' -> nth_error l j = Some x -> exists y, nth_error l' j = Some y /\ R x y.
Proof.
  intros H. revert j. induction H as [|a b l l' Hab _ IH]; intros j Hj.
  - destruct j; discriminate.
  - destruct j as [|j]; simpl in *.
    + injection Hj as <-. eauto.
    + apply IH. assumption.
Qed.

(** C10: in a completed classification every call of the classifier
    returned, the j-th predicted class is the argmax of the j-th
    probability row the classifier returned, the j-th confidence is the
    maximum of that row, and so the confidence is the probability the
    classifier gave to the predicted class. *)
Theorem prediction_is_argmax_with_its_probability
  (model_predict : list (list sample) -> result (list (list Q)))
  (X_segments : list (list sample)) (batch_size : Z) (st : classify_state) :
  classify_segments model_predict X_segments batch_size = Ok st ->
  let rows := List.concat (map (rows_of model_predict) (predict_calls st)) in
  Forall (fun batch => exists returned, model_predict batch = Ok returned) (predict_calls st) /\
  py_len (all_predictions st) = py_len rows /\
  py_len (all_confidences st) = py_len rows /\
  forall j row, nth_error rows j = Some row ->
    exists c p,
      nth_error (all_predictions st) j = Some c /\
      nth_error (all_confidences st) j = Some p /\
      np_argmax row = Ok c /\ np_row_max row = Ok p /\
      nth_error row c = Some p /\
      forall x, In x row -> (x <= p)%Q.
Proof.
  intros H rows. unfold classify_segments in H. apply classify_loop_inv in H.
  destruct H as [Hcalls [Hret [classes [confidences [Hc1 [Hc2 [Hp Hq]]]]]]].
  simpl in Hcalls, Hp, Hq. subst rows. rewrite Hcalls, Hp, Hq.
  split; [exact Hret|].
  split; [apply (map_result_length _ _ _ Hc1)|].
  split; [apply (map_result_length _ _ _ Hc2)|].
  intros j row Hrow.
  destruct (Forall2_nth_error _ _ _ _ _ (map_result_Forall2 _ _ _ Hc1) Hrow) as [c [Hc Hac]].
  destruct (Forall2_nth_error _ _ _ _ _ (map_result_Forall2 _ _ _ Hc2) Hrow) as [p [Hp' Hmp]].
  exists c, p. destruct (row_class_confidence _ _ _ Hac Hmp) as [Hnth Hmax].
  repeat split; assumption.
Qed.

Lemma prediction_is_argmax_with_its_probability_witness :
  let st := {| predict_calls := [[[Fin 1]; [Fin (-1)]]; [[Fin 2]]];
               all_predictions := [1; 0; 1]%nat;
               all_confidences := [4 # 5; 9 # 10; 4 # 5]%Q |} in
  let rows := List.concat (map (rows_of sign_classifier) (predict_calls st)) in
  Forall (fun batch => exists returned, sign_classifier batch = Ok returned) (predict_calls st) /\
  py_len (all_predictions st) = py_len rows /\
  py_len (all_confidences st) = py_len rows /\
  forall j row, nth_error rows j = Some row ->
    exists c p,
      nth_error (all_predictions st) j = Some c /\
      nth_error (all_confidences st) j = Some p /\
      np_argmax row = Ok c /\ np_row_max row = Ok p /\
      nth_error row c = Some p /\
      forall x, In x row -> (x <= p)%Q.
Proof.
  apply (prediction_is_argmax_with_its_probability sign_classifier
           [[Fin 1]; [Fin (-1)]; [Fin 2]] 2).
  vm_compute. reflexivity.
Defined.

(* ===================================================================== *)
(** * Majority vote *)
(* ===================================================================== *)

Lemma counter_get_incr (k : nat) (c : counter) (j : nat) :
  counter_get (counter_incr k c) j =
  if Nat.eqb k j then S (counter_get c j) else counter_get c j.
Proof.
  induction c as [|[k' n] c IH]; simpl.
  - destruct (Nat.eqb k j); reflexivity.
  - destruct (Nat.eqb_spec k' k) as [->|Hk]; simpl.
    + destruct (Nat.eqb k j); reflexivity.
    + destruct (Nat.eqb_spec k' j) as [->|Hj].
      * destruct (Nat.eqb_spec k j); [congruence | reflexivity].
      * apply IH.
Qed.

Lemma counter_keys_incr (k : nat) (c : counter) :
  counter_keys (counter_incr k c) =
  if existsb (Nat.eqb k) (counter_keys c) then counter_keys c else counter_keys c ++ [k].
Proof.
  induction c as [|[k' n] c IH]; simpl; [reflexivity|].
  rewrite (Nat.eqb_sym k k').
  destruct (Nat.eqb k' k); simpl; [reflexivity|].
  unfold counter_keys in *. rewrite IH.
  destruct (existsb (Nat.eqb k) (map fst c)); reflexivity.
Qed.

Lemma counter_fold_get (xs : list nat) (c : counter) (j : nat) :
  counter_get (fold_left (fun c k => counter_incr k c) xs c) j =
  (counter_get c j + votes xs j)%nat.
Proof.
  revert c. induction xs as [|x r IH]; intros c; simpl.
  - lia.
  - rewrite IH, counter_get_incr. unfold votes. simpl.
    destruct (Nat.eq_dec x j) as [->|Hx].
    + rewrite Nat.eqb_refl. lia.
    + destruct (Nat.eqb_spec x j); [contradiction | lia].
Qed.

(** The counter holds the number of votes of every class. *)
Lemma Counter_get (xs : list nat) (j : nat) : counter_get (Counter xs) j = votes xs j.
Proof. unfold Counter. rewrite counter_fold_get. reflexivity. Qed.

Lemma counter_fold_keys_prefix (xs : list nat) (c : counter) :
  exists extra,
    counter_keys (fold_left (fun c k => counter_incr k c) xs c) = counter_keys c ++ extra.
Proof.
  revert c. induction xs as [|x r IH]; intros c; simpl.
  - exists []. rewrite app_nil_r. reflexivity.
  - destruct (IH (counter_incr x c)) as [extra ->]. rewrite counter_keys_incr.
    destruct (existsb (Nat.eqb x) (counter_keys c)).
    + eauto.
    + exists (x :: extra). rewrite <- app_assoc. reflexivity.
Qed.

Lemma counter_keys_incr_In (k : nat) (c : counter) (j : nat) :
  In j (counter_keys (counter_incr k c)) <-> j = k \/ In j (counter_keys c).
Proof.
  rewrite counter_keys_incr.
  destruct (existsb (Nat.eqb k) (counter_keys c)) eqn:E.
  - apply existsb_exists in E. destruct E as [y [Hy E]].
    apply Nat.eqb_eq in E. subst y. split; [auto | intros [->|H]; assumption].
  - rewrite in_app_iff. simpl. split; intros H; destruct H as [H|H]; auto.
    + destruct H as [<-|[]]. auto.
Qed.

Lemma prefix_before {A} (a e k1 k2 : list A) (c : A) :
  a ++ e = k1 ++ c :: k2 -> ~ In c a -> forall x, In x a -> In x k1.
Proof.
  revert k1. induction a as [|y a IH]; intros k1 H Hc x Hx; [destruct Hx|].
  destruct k1 as [|z k1]; simpl in H.
  - injection H as -> _. exfalso. apply Hc. left. reflexivity.
  - injection H as -> H. destruct Hx as [<-|Hx]; [left; reflexivity|].
    right. apply (IH k1 H); [|assumption]. intros Hin. apply Hc. right. assumption.
Qed.

(** The keys of the counter are in the order of first occurrence: whatever
    stands before a key in the counter is all that was seen before its
    first occurrence. *)
Lemma counter_fold_first_occurrence (xs : list nat) (c0 : counter) (k1 k2 : list nat) (c : nat) :
  counter_keys (fold_left (fun c k => counter_incr k c) xs c0) = k1 ++ c :: k2 ->
  ~ In c (counter_keys c0) ->
  exists l1 l2, xs = l1 ++ c :: l2 /\ ~ In c l1 /\ forall x, In x l1 -> In x k1.
Proof.
  revert c0. induction xs as [|x r IH]; intros c0 H Hc; simpl in H.
  - exfalso. apply Hc. rewrite H. apply in_elt.
  - destruct (Nat.eq_dec x c) as [->|Hx].
    + exists [], r. split; [reflexivity|]. split; [intros [] | intros ? []].
    + assert (Hc' : ~ In c (counter_keys (counter_incr x c0))).
      { rewrite counter_keys_incr_In. intros [->|Hin]; [congruence | contradiction]. }
      destruct (IH _ H Hc') as [l1 [l2 [-> [Hl1 Hk1]]]].
      exists (x :: l1), l2. split; [reflexivity|]. split.
      * intros [->|Hin]; [congruence | contradiction].
      * intros y [<-|Hy]; [|auto].
        destruct (counter_fold_keys_prefix (l1 ++ c :: l2) (counter_incr x c0)) as [extra He].
        rewrite He in H. apply (prefix_before _ _ _ _ _ H Hc').
        apply counter_keys_incr_In. left. reflexivity.
Qed.

(** [max] returns the first item whose key is largest. *)
Lemma py_max_from_first {K} (key : K -> nat) (items : list K) (best : K) :
  exists l1 l2,
    best :: items = l1 ++ py_max_from key best items :: l2 /\
    (forall x, In x l1 -> (key x < key (py_max_from key best items))%nat) /\
    (forall x, In x l2 -> (key x <= key (py_max_from key best items))%nat).
Proof.
  revert best. induction items as [|x r IH]; intros best; simpl.
  - exists [], []. split; [reflexivity|]. split; intros ? [].
  - destruct (Nat.ltb_spec (key best) (key x)) as [Hlt|Hge].
    + destruct (IH x) as [l1 [l2 [Heq [H1 H2]]]].
      exists (best :: l1), l2. split; [simpl; rewrite <- Heq; reflexivity|].
      split; [|assumption].
      intros y [<-|Hy]; [|auto].
      assert (Hx : In x (l1 ++ py_max_from key x r :: l2))
        by (rewrite <- Heq; left; reflexivity).
      apply in_app_or in Hx. destruct Hx as [Hx|[Hx|Hx]].
      * specialize (H1 _ Hx). lia.
      * rewrite Hx. assumption.
      * specialize (H2 _ Hx). lia.
    + destruct (IH best) as [l1 [l2 [Heq [H1 H2]]]].
      destruct l1 as [|b l1]; simpl in Heq.
      * injection Heq as Hb Hr. exists [], (x :: l2).
        split; [simpl; rewrite <- Hb, <- Hr; reflexivity|].
        split; [intros ? []|].
        intros y [<-|Hy]; [rewrite <- Hb; lia|]. apply H2. assumption.
      * injection Heq as <- Hr. exists (best :: x :: l1), l2.
        split; [simpl; do 2 f_equal; exact Hr|].
        split; [|assumption].
        intros y [<-|[<-|Hy]].
        -- apply H1. left. reflexivity.
        -- specialize (H1 best (or_introl eq_refl)). lia.
        -- apply H1. right. assumption.
Qed.

Lemma Counter_keys_In (xs : list nat) (j : nat) :
  In j (counter_keys (Counter xs)) <-> In j xs.
Proof.
  unfold Counter.
  assert (G : forall c, In j (counter_keys (fold_left (fun c k => counter_incr k c) xs c))
                        <-> In j (counter_keys c) \/ In j xs).
  { induction xs as [|x r IH]; intros c; simpl; [tauto|].
    rewrite IH, counter_keys_incr_In. intuition congruence. }
  rewrite G. simpl. tauto.
Qed.

Lemma votes_pos_In (xs : list nat) (k : nat) : (0 < votes xs k)%nat <-> In k xs.
Proof. unfold votes. symmetry. apply count_occ_In. Qed.

(** C1, as the code has it: the majority class has the highest vote count,
    and among the classes that share that count it is the one whose first
    segment comes first: every class seen before the first segment of the
    majority class has strictly fewer votes. *)
Theorem majority_class_first_with_most_votes (segment_classes : list nat) :
  segment_classes <> [] ->
  exists c,
    majority_class segment_classes = Ok c /\
    (forall k, votes segment_classes k <= votes segment_classes c)%nat /\
    exists l1 l2,
      segment_classes = l1 ++ c :: l2 /\ ~ In c l1 /\
      forall k, In k l1 -> (votes segment_classes k < votes segment_classes c)%nat.
Proof.
  intros Hne. unfold majority_class.
  destruct (counter_keys (Counter segment_classes)) as [|k0 keys] eqn:Hkeys.
  - exfalso. destruct segment_classes as [|x r]; [contradiction|].
    assert (Hx : In x (counter_keys (Counter (x :: r))))
      by (apply Counter_keys_In; left; reflexivity).
    rewrite Hkeys in Hx. destruct Hx.
  - simpl.
    destruct (py_max_from_first (counter_get (Counter segment_classes)) keys k0)
      as [k1 [k2 [Heq [Hbefore Hafter]]]].
    set (c := py_max_from (counter_get (Counter segment_classes)) k0 keys) in *.
    exists c. split; [reflexivity|].
    rewrite !Counter_get in *.
    assert (Hin : forall k, In k segment_classes -> In k (k1 ++ c :: k2)).
    { intros k Hk. rewrite <- Heq, <- Hkeys. apply Counter_keys_In. assumption. }
    split.
    + intros k. destruct (in_dec Nat.eq_dec k segment_classes) as [Hk|Hk].
      * apply Hin in Hk. apply in_app_or in Hk. destruct Hk as [Hk|[<-|Hk]].
        -- specialize (Hbefore _ Hk). rewrite !Counter_get in Hbefore. lia.
        -- lia.
        -- specialize (Hafter _ Hk). rewrite !Counter_get in Hafter. assumption.
      * unfold votes at 1. rewrite (proj1 (count_occ_not_In Nat.eq_dec _ _) Hk). lia.
    + rewrite <- Hkeys in Heq. unfold Counter in Heq.
      destruct (counter_fold_first_occurrence _ _ _ _ _ Heq (fun H => H))
        as [l1 [l2 [Hsplit [Hfirst Hl1]]]].
      exists l1, l2. split; [assumption|]. split; [assumption|].
      intros k Hk. specialize (Hbefore _ (Hl1 _ Hk)).
      rewrite !Counter_get in Hbefore. assumption.
Qed.

Lemma majority_class_first_with_most_votes_witness :
  exists c,
    majority_class [2; 0; 2; 0; 1]%nat = Ok c /\
    (forall k, votes [2; 0; 2; 0; 1]%nat k <= votes [2; 0; 2; 0; 1]%nat c)%nat /\
    exists l1 l2,
      [2; 0; 2; 0; 1]%nat = l1 ++ c :: l2 /\ ~ In c l1 /\
      forall k, In k l1 -> (votes [2; 0; 2; 0; 1]%nat k < votes [2; 0; 2; 0; 1]%nat c)%nat.
Proof.
  apply (majority_class_first_with_most_votes [2; 0; 2; 0; 1]%nat).
  discriminate.
Defined.

(** C1, as the specification has it, fails on a tie: classes 1 and 0 have
    one vote each, and the code returns class 1, the first one seen, not
    the lower index 0. *)
Lemma majority_tie_not_lowest_index :
  majority_class [1; 0]%nat = Ok 1%nat /\
  votes [1; 0]%nat 0 = votes [1; 0]%nat 1 /\
  (0 < 1)%nat.
Proof. split; [reflexivity|]. split; [reflexivity | lia]. Qed.

(* ===================================================================== *)
(** * Rounding *)
(* ===================================================================== *)

Lemma round_half_even_close (y : Q) :
  (Qabs (inject_Z (round_half_even y) - y) <= 1 # 2)%Q.
Proof.
  unfold round_half_even.
  pose proof (Qfloor_le y) as Hlo. pose proof (Qlt_floor y) as Hhi.
  rewrite inject_Z_plus in Hhi. change (inject_Z 1) with 1%Q in Hhi.
  apply Qabs_Qle_condition.
  destruct (Qcompare_spec (y - inject_Z (Qfloor y)) (1 # 2)) as [E|E|E].
  - destruct (Z.even (Qfloor y));
      [|rewrite inject_Z_plus; change (inject_Z 1) with 1%Q]; split; lra.
  - split; lra.
  - rewrite inject_Z_plus. change (inject_Z 1) with 1%Q. split; lra.
Qed.

Lemma round_half_even_bounds (a b : Z) (y : Q) :
  (inject_Z a <= y)%Q -> (y <= inject_Z b)%Q ->
  a <= round_half_even y <= b.
Proof.
  intros Ha Hb. unfold round_half_even.
  pose proof (Qfloor_le y) as Hlo.
  assert (Hfa : a <= Qfloor y).
  { rewrite <- (Qfloor_Z a). apply Qfloor_resp_le. assumption. }
  assert (Hfb : Qfloor y <= b).
  { rewrite <- (Qfloor_Z b). apply Qfloor_resp_le. assumption. }
  assert (Hup : (inject_Z (Qfloor y) + (1 # 2) <= y)%Q -> Qfloor y + 1 <= b).
  { intros Hhalf. assert (Hlt : (inject_Z (Qfloor y) < inject_Z b)%Q) by lra.
    rewrite <- Zlt_Qlt in Hlt. lia. }
  destruct (Qcompare_spec (y - inject_Z (Qfloor y)) (1 # 2)) as [E|E|E].
  - destruct (Z.even (Qfloor y)); [lia|]. split; [lia|]. apply Hup. lra.
  - lia.
  - split; [lia|]. apply Hup. lra.
Qed.

Lemma round_half_even_compat (x y : Q) : (x == y)%Q -> round_half_even x = round_half_even y.
Proof.
  intros H. unfold round_half_even. rewrite (Qfloor_comp _ _ H).
  replace ((x - inject_Z (Qfloor y)) ?= (1 # 2))%Q
    with ((y - inject_Z (Qfloor y)) ?= (1 # 2))%Q; [reflexivity|].
  apply Qcompare_comp; [rewrite H; reflexivity | reflexivity].
Qed.

Lemma py_round_compat (x y : Q) (nd : nat) : (x == y)%Q -> py_round x nd = py_round y nd.
Proof.
  intros H. unfold py_round. apply Qred_complete.
  set (scale := inject_Z (10 ^ Z.of_nat nd)).
  rewrite (round_half_even_compat (x * scale) (y * scale)); [reflexivity|].
  rewrite H. reflexivity.
Qed.

Lemma py_round_2_close (x : Q) : (Qabs (py_round x 2 - x) <= 1 # 200)%Q.
Proof.
  unfold py_round. rewrite Qred_correct.
  change (inject_Z (10 ^ Z.of_nat 2)) with (100 # 1)%Q.
  pose proof (round_half_even_close (x * (100 # 1))) as H.
  apply Qabs_Qle_condition in H. apply Qabs_Qle_condition.
  set (z := inject_Z (round_half_even (x * (100 # 1)))) in *.
  unfold Qdiv. change (/ (100 # 1))%Q with (1 # 100)%Q.
  split; lra.
Qed.

Lemma sum_of_rounded_close (xs : list Q) :
  (Qabs (Qsum (map (fun x => py_round x 2) xs) - Qsum xs)
   <= inject_Z (py_len xs) * (1 # 200))%Q.
Proof.
  induction xs as [|x r IH].
  - vm_compute. discriminate.
  - unfold py_len in *. simpl List.length. rewrite Nat2Z.inj_succ, <- Z.add_1_r, inject_Z_plus.
    simpl map. simpl Qsum.
    pose proof (py_round_2_close x) as Hx.
    apply Qabs_Qle_condition in Hx. apply Qabs_Qle_condition in IH.
    apply Qabs_Qle_condition.
    set (a := py_round x 2) in *. set (b := Qsum (map _ r)) in *.
    set (n := inject_Z (Z.of_nat (List.length r))) in *.
    change (inject_Z 1) with 1%Q. split; lra.
Qed.

(** ** Binary64 rounding *)


Lemma pow2_Z (a : Z) : 0 <= a -> (2 ^ a == inject_Z (2 ^ a))%Q.
Proof. intros Ha. rewrite (Zpower_Qpower 2 a Ha). reflexivity. Qed.

Lemma binade_lower (x : Q) : (0 < x)%Q -> (2 ^ binade x <= x)%Q.
Proof.
  intros Hx. unfold binade.
  set (a := Z.log2 (Qnum x)). set (b := Z.log2 (Zpos (Qden x))).
  destruct (Qle_bool (2 ^ (a - b)) x) eqn:E; [apply Qle_bool_iff; exact E|].
  assert (Hn : 0 < Qnum x) by (unfold Qlt in Hx; simpl in Hx; lia).
  pose proof (Z.log2_spec _ Hn) as [Ha _]. fold a in Ha.
  assert (Hd : 0 < Zpos (Qden x)) by lia.
  pose proof (Z.log2_spec _ Hd) as [_ Hb]. fold b in Hb.
  assert (Ha0 : 0 <= a) by apply Z.log2_nonneg.
  assert (Hb0 : 0 <= b) by apply Z.log2_nonneg.
  replace (a - b - 1) with (a - Z.succ b) by lia.
  rewrite Qpower_minus by discriminate.
  rewrite (pow2_Z a Ha0), (pow2_Z (Z.succ b)) by lia.
  assert (HB : 0 < 2 ^ Z.succ b) by (apply Z.pow_pos_nonneg; lia).
  apply Qle_shift_div_r; [unfold Qlt; simpl; lia|].
  destruct x as [n d]. unfold Qle. cbn [Qnum Qden Qmult inject_Z] in *.
  rewrite !Z.mul_1_r. nia.
Qed.

Lemma binary64_compat (x y : Q) : (x == y)%Q -> binary64 x = binary64 y.
Proof. intros H. unfold binary64. rewrite (Qred_complete _ _ H). reflexivity. Qed.

(** A positive value is rounded on the grid of its binade. *)
Lemma binary64_pos_eq (x : Q) :
  (0 < x)%Q ->
  exists e x', (x' == x)%Q /\ (2 ^ e <= x)%Q /\
    (binary64 x == inject_Z (round_half_even (x' / 2 ^ (e - 52))) * 2 ^ (e - 52))%Q.
Proof.
  intros Hx. unfold binary64.
  assert (Hred : (Qred x == x)%Q) by apply Qred_correct.
  assert (Hx' : (0 < Qred x)%Q) by (rewrite Hred; exact Hx).
  destruct (Qred x) as [n d] eqn:Hr.
  assert (Hn : 0 < n) by (unfold Qlt in Hx'; simpl in Hx'; lia).
  exists (binade (n # d)), (n # d). split; [exact Hred|].
  split; [rewrite <- Hred; apply binade_lower; exact Hx'|].
  destruct n as [|p|p]; try lia. cbn [Qnum].
  change (Qabs (Z.pos p # d)) with (Z.pos p # d).
  apply Qred_correct.
Qed.


(** Rounding never crosses an integer below [2^53]: integers of that size
    are binary64 numbers. *)
Lemma binary64_range (x : Q) (B : Z) :
  (0 <= x)%Q -> (x <= inject_Z B)%Q -> B < 2 ^ 53 ->
  (0 <= binary64 x)%Q /\ (binary64 x <= inject_Z B)%Q.
Proof.
  intros H0 HB Hsmall.
  destruct (Qle_lt_or_eq _ _ H0) as [Hx|Hx].
  2:{ rewrite (binary64_compat x 0) by (symmetry; exact Hx).
      change (binary64 0) with 0%Q. split; [apply Qle_refl|].
      rewrite Hx. exact HB. }
  destruct (binary64_pos_eq x Hx) as [e [x' [Hx' [He ->]]]].
  assert (He52 : e - 52 <= 0).
  { assert (Hlt : (2 ^ e < 2 ^ 53)%Q).
    { apply (Qle_lt_trans _ x); [exact He|].
      apply (Qle_lt_trans _ (inject_Z B)); [exact HB|].
      rewrite (pow2_Z 53) by lia. rewrite <- Zlt_Qlt. exact Hsmall. }
    apply Qpower_lt_compat_l_inv in Hlt; [lia | reflexivity]. }
  set (k := 52 - e).
  assert (Hk : 0 <= k) by (unfold k; lia).
  assert (Hq : (2 ^ (e - 52) == / inject_Z (2 ^ k))%Q).
  { replace (e - 52) with (- k) by (unfold k; lia).
    rewrite Qpower_opp, (pow2_Z k Hk). reflexivity. }
  assert (HN : 0 < 2 ^ k) by (apply Z.pow_pos_nonneg; lia).
  assert (HNq : (0 < inject_Z (2 ^ k))%Q) by (unfold Qlt; simpl; lia).
  assert (Hy : (x' / 2 ^ (e - 52) == x * inject_Z (2 ^ k))%Q).
  { rewrite Hq, Hx'. field. intros E. rewrite E in HNq. discriminate. }
  destruct (round_half_even_bounds 0 (B * 2 ^ k) (x' / 2 ^ (e - 52))) as [Hlo Hhi].
  - rewrite Hy. change (inject_Z 0) with 0%Q. apply Qmult_le_0_compat; [exact H0|].
    apply Qlt_le_weak. exact HNq.
  - rewrite Hy, inject_Z_mult. apply Qmult_le_compat_r; [exact HB|].
    apply Qlt_le_weak. exact HNq.
  - set (r := round_half_even (x' / 2 ^ (e - 52))) in *. rewrite Hq.
    assert (Hr0 : (inject_Z 0 <= inject_Z r)%Q) by (rewrite <- Zle_Qle; exact Hlo).
    change (inject_Z 0) with 0%Q in Hr0.
    assert (Hr1 : (inject_Z r <= inject_Z B * inject_Z (2 ^ k))%Q)
      by (rewrite <- inject_Z_mult, <- Zle_Qle; exact Hhi).
    split.
    + apply Qmult_le_0_compat; [exact Hr0|]. apply Qlt_le_weak.
      apply Qinv_lt_0_compat. exact HNq.
    + apply Qle_shift_div_r; [exact HNq | exact Hr1].
Qed.

(** ** The percentage of a class *)

Lemma quotient_unit_interval (c t : Z) :
  0 <= c <= t -> 0 < t -> (0 <= inject_Z c / inject_Z t)%Q /\ (inject_Z c / inject_Z t <= 1)%Q.
Proof.
  intros Hc Ht. assert (Htq : (0 < inject_Z t)%Q) by (unfold Qlt; simpl; lia).
  split.
  - apply Qle_shift_div_l; [exact Htq|]. rewrite Qmult_0_l.
    change 0%Q with (inject_Z 0). rewrite <- Zle_Qle. lia.
  - apply Qle_shift_div_r; [exact Htq|]. rewrite Qmult_1_l. rewrite <- Zle_Qle. lia.
Qed.

(** The product [(c / t) * 100] stays between 0 and 100. *)
Lemma share_range (c t : Z) :
  0 <= c <= t -> 0 < t ->
  (0 <= py_fmul (py_truediv c t) 100)%Q /\ (py_fmul (py_truediv c t) 100 <= 100)%Q.
Proof.
  intros Hc Ht. destruct (quotient_unit_interval c t Hc Ht) as [Hlo Hhi].
  unfold py_fmul, py_truediv.
  destruct (binary64_range (inject_Z c / inject_Z t) 1 Hlo Hhi) as [Hb0 Hb1]; [reflexivity|].
  change (inject_Z 1) with 1%Q in Hb1.
  apply (binary64_range _ 100); [lra | change (inject_Z 100) with 100%Q; lra | reflexivity].
Qed.



(** On every pair of counts up to 100 the hardware's product is the
    number the exact-value model gives. *)
Lemma share_agrees_with_hardware (c t : Z) :
  1 <= c <= t -> t <= 100 -> share_agrees c t = true.
Proof.
  intros Hc Ht.
  assert (Hall : all_from (fun t => all_from (fun c => share_agrees c t) (Z.to_nat t) 1)
                   (Z.to_nat 100) 1 = true) by (vm_compute; reflexivity).
  pose proof (all_from_spec _ _ _ Hall t) as Hrow. cbv beta in Hrow.
  apply (all_from_spec _ _ _ (Hrow ltac:(rewrite Z2Nat.id; lia)) c).
  rewrite Z2Nat.id; lia.
Qed.


(* ===================================================================== *)
(** * Per-class distribution *)
(* ===================================================================== *)

Lemma counter_fold_keys_NoDup (xs : list nat) (c : counter) :
  NoDup (counter_keys c) ->
  NoDup (counter_keys (fold_left (fun c k => counter_incr k c) xs c)).
Proof.
  revert c. induction xs as [|x r IH]; intros c Hc; simpl; [assumption|].
  apply IH. rewrite counter_keys_incr.
  destruct (existsb (Nat.eqb x) (counter_keys c)) eqn:E; [assumption|].
  apply NoDup_app; [assumption | repeat constructor; intros [] |].
  intros y Hy [Heq|[]]. subst y.
  assert (Hex : existsb (Nat.eqb x) (counter_keys c) = true)
    by (apply existsb_exists; exists x; split; [assumption | apply Nat.eqb_refl]).
  congruence.
Qed.

Lemma Counter_keys_NoDup (xs : list nat) : NoDup (counter_keys (Counter xs)).
Proof. apply counter_fold_keys_NoDup. constructor. Qed.

Lemma counter_get_In (c : counter) (k n : nat) :
  NoDup (counter_keys c) -> In (k, n) c -> counter_get c k = n.
Proof.
  induction c as [|[k' n'] c IH]; intros Hnd Hin; [destruct Hin|].
  simpl in *. inversion Hnd as [|? ? Hk' Hnd']; subst.
  destruct Hin as [Heq|Hin].
  - injection Heq as -> ->. rewrite Nat.eqb_refl. reflexivity.
  - destruct (Nat.eqb_spec k' k) as [->|_].
    + exfalso. apply Hk'. apply (in_map fst) in Hin. assumption.
    + apply IH; assumption.
Qed.

Lemma Counter_item_votes (xs : list nat) (item : nat * nat) :
  In item (Counter xs) -> snd item = votes xs (fst item).
Proof.
  destruct item as [k n]. intros Hin. simpl.
  rewrite <- Counter_get. symmetry. apply counter_get_In; [apply Counter_keys_NoDup | assumption].
Qed.

Lemma counter_incr_sum (k : nat) (c : counter) :
  list_sum (map snd (counter_incr k c)) = S (list_sum (map snd c)).
Proof.
  induction c as [|[k' n] c IH]; simpl; [reflexivity|].
  destruct (Nat.eqb k' k); simpl; [reflexivity|]. rewrite IH. lia.
Qed.

Lemma Counter_sum (xs : list nat) : list_sum (map snd (Counter xs)) = List.length xs.
Proof.
  unfold Counter.
  assert (G : forall c, list_sum (map snd (fold_left (fun c k => counter_incr k c) xs c))
                        = (list_sum (map snd c) + List.length xs)%nat).
  { induction xs as [|x r IH]; intros c; simpl; [lia|].
    rewrite IH, counter_incr_sum. lia. }
  rewrite G. reflexivity.
Qed.




Lemma dict_set_fresh {V} (k : string) (v : V) (d : list (string * V)) :
  ~ In k (map fst d) -> dict_set k v d = d ++ [(k, v)].
Proof.
  induction d as [|[k' v'] d IH]; intros Hk; simpl; [reflexivity|].
  simpl in Hk. destruct (String.eqb_spec k' k) as [->|_]; [tauto|].
  rewrite IH by tauto. reflexivity.
Qed.


Lemma NoDup_map_inj_on {A B} (f : A -> B) (l : list A) :
  (forall x y, In x l -> In y l -> f x = f y -> x = y) -> NoDup l -> NoDup (map f l).
Proof.
  intros Hinj Hnd. induction Hnd as [|x l Hx Hnd IH]; simpl; constructor.
  - intros Hin. apply in_map_iff in Hin. destruct Hin as [y [Hy Hin]].
    assert (y = x) by (apply Hinj; [right; assumption | left; reflexivity | assumption]).
    subst y. contradiction.
  - apply IH. intros a b Ha Hb. apply Hinj; right; assumption.
Qed.

Section Distribution.

Variable class_mapping : list (nat * string).
Variable segment_classes : list nat.
Variable segment_confidences : list Q.

Let label (item : nat * nat) : string := label_of class_mapping (fst item).

Lemma distribution_loop_spec (items : counter) (d : list (string * class_stats)) :
  0 < py_len segment_classes ->
  (forall item, In item items -> exists name, mapping_lookup class_mapping (fst item) = Ok name) ->
  NoDup (map fst d ++ map label items) ->
  distribution_loop class_mapping segment_classes segment_confidences
    (py_len segment_classes) items d
  = Ok (d ++ map (fun item => (label item, item_entry segment_classes segment_confidences item))
               items).
Proof.
  intros Htotal. revert d. induction items as [|[k n] rest IH]; intros d Hlook Hnd; simpl.
  - rewrite app_nil_r. reflexivity.
  - destruct (Hlook (k, n) (or_introl eq_refl)) as [name Hname]. simpl in Hname.
    rewrite Hname. simpl.
    assert (Hlabel : label (k, n) = name) by (unfold label, label_of; simpl; rewrite Hname; reflexivity).
    replace (py_len segment_classes >? 0) with true by (symmetry; apply Z.gtb_lt; assumption).
    rewrite dict_set_fresh.
    + rewrite IH.
      * rewrite <- app_assoc. simpl. rewrite Hlabel. reflexivity.
      * intros item Hitem. apply Hlook. right. assumption.
      * rewrite map_app, <- app_assoc. simpl. rewrite <- Hlabel. assumption.
    + intros Hin. apply NoDup_remove_2 in Hnd. apply Hnd.
      apply in_or_app. left. rewrite Hlabel. assumption.
Qed.

End Distribution.

Lemma majority_class_In (segment_classes : list nat) :
  segment_classes <> [] ->
  exists c, majority_class segment_classes = Ok c /\ In c segment_classes.
Proof.
  intros Hne. unfold majority_class.
  destruct (counter_keys (Counter segment_classes)) as [|k0 keys] eqn:Hkeys.
  - exfalso. destruct segment_classes as [|x r]; [contradiction|].
    assert (Hx : In x (counter_keys (Counter (x :: r))))
      by (apply Counter_keys_In; left; reflexivity).
    rewrite Hkeys in Hx. destruct Hx.
  - simpl. eexists. split; [reflexivity|].
    destruct (py_max_from_first (counter_get (Counter segment_classes)) keys k0)
      as [k1 [k2 [Heq _]]].
    apply Counter_keys_In. rewrite Hkeys, Heq. apply in_elt.
Qed.





(** The percentage is not the exact share rounded to 2 decimals: with 23
    votes of 160 the exact share is 14.375, which rounds to 14.38, and the
    code reports 14.37, because the binary64 product [(23 / 160) * 100] is
    14.374999999999998. *)
Lemma percentage_rounds_the_binary64_product :
  let segment_classes := (repeat 0 23 ++ repeat 1 137)%nat in
  let segment_confidences := repeat (1 # 2)%Q 160 in
  float_value (hardware_share 23 160) = Some (8092405580431359 # 562949953421312)%Q /\
  py_fmul (py_truediv 23 160) 100 = (8092405580431359 # 562949953421312)%Q /\
  exists r stats,
    aggregate three_labels segment_classes segment_confidences 1000 = Ok r /\
    dict_get (segment_distribution r) "Normal" = Some stats /\
    segment_count stats = 23%nat /\
    percentage stats = (1437 # 100)%Q /\
    percentage (class_entry segment_classes segment_confidences 0) = (719 # 50)%Q.
Proof.
  cbv zeta. split; [vm_compute; reflexivity|]. split; [vm_compute; reflexivity|].
  eexists. eexists. split; [vm_compute; reflexivity|].
  split; [vm_compute; reflexivity|].
  split; [reflexivity|]. split; vm_compute; reflexivity.
Qed.


(* ===================================================================== *)
(** * Further properties of segment extraction and validation *)
(* ===================================================================== *)

Lemma extract_one_inv {A} (ecg_signal : list A) (h L p : Z) (segment : list A) :
  extract_one ecg_signal h L p = Some segment ->
  0 <= p - h /\ p + h < py_len ecg_signal /\
  segment = py_slice ecg_signal (p - h) (p + h) /\ py_len segment = L.
Proof.
  unfold extract_one. intros H.
  destruct (p - h >=? 0) eqn:E1; [|discriminate].
  destruct (Z.ltb_spec (p + h) (py_len ecg_signal)); [|discriminate].
  simpl in H.
  destruct (Z.eqb_spec (py_len (py_slice ecg_signal (p - h) (p + h))) L); [|discriminate].
  injection H as <-. rewrite Z.geb_leb in E1. apply Z.leb_le in E1. auto.
Qed.

(** Every extracted segment has exactly the requested number of samples
    and is the slice [[p - L/2 : p + L/2]] of the signal around one of the
    given peaks, a slice that starts at a valid index and ends before the
    last sample. *)
Theorem extracted_segments_are_full_windows {A} (ecg_signal : list A) (r_peaks : list Z)
  (L : Z) :
  Forall (fun segment =>
            py_len segment = L /\
            exists p, In p r_peaks /\
                      0 <= p - L / 2 /\ p + L / 2 < py_len ecg_signal /\
                      segment = py_slice ecg_signal (p - L / 2) (p + L / 2))
         (extract_heartbeat_segments ecg_signal r_peaks L).
Proof.
  unfold extract_heartbeat_segments.
  induction r_peaks as [|p rest IH]; simpl; [constructor|].
  assert (IH' : Forall (fun segment =>
            py_len segment = L /\
            exists q, In q (p :: rest) /\
                      0 <= q - L / 2 /\ q + L / 2 < py_len ecg_signal /\
                      segment = py_slice ecg_signal (q - L / 2) (q + L / 2))
         (extract_loop ecg_signal (L / 2) L rest)).
  { eapply Forall_impl; [|exact IH]. simpl.
    intros seg [Hlen [q [Hq Hrest]]]. split; [assumption|]. exists q. auto. }
  destruct (extract_one ecg_signal (L / 2) L p) as [seg|] eqn:E; [|assumption].
  constructor; [|assumption].
  apply extract_one_inv in E. destruct E as [H1 [H2 [H3 H4]]].
  split; [assumption|]. exists p. simpl. auto.
Qed.

(** A negative or odd segment length yields no segment at all, whatever the
    signal and the peaks: the slice never has that many samples. *)
Theorem extract_needs_even_length {A} (ecg_signal : list A) (r_peaks : list Z) (L : Z) :
  L < 0 \/ Z.odd L = true ->
  extract_heartbeat_segments ecg_signal r_peaks L = [].
Proof.
  intros HL. unfold extract_heartbeat_segments.
  induction r_peaks as [|p rest IH]; [reflexivity|]. simpl.
  destruct (extract_one ecg_signal (L / 2) L p) as [seg|] eqn:E; [|assumption].
  exfalso. destruct (Z_lt_le_dec L 0) as [Hneg|Hpos].
  - apply extract_one_inv in E. destruct E as [_ [_ [_ Hlen]]].
    pose proof (py_len_nonneg seg). lia.
  - destruct HL as [Hneg|Hodd]; [lia|].
    rewrite extract_one_odd in E by assumption. discriminate.
Qed.

Lemma extract_needs_even_length_witness :
  extract_heartbeat_segments (flat_signal 1000) [300; 500; 700] 251 = [].
Proof.
  apply extract_needs_even_length. right. reflexivity.
Defined.

Lemma filter_idempotent {A} (f : A -> bool) (l : list A) :
  filter f (filter f l) = filter f l.
Proof.
  apply filter_all. intros x Hx. apply filter_In in Hx. tauto.
Qed.

(** Validation is idempotent and works segment by segment: validating an
    already validated sequence changes nothing, and validating a
    concatenation is concatenating the validations. *)
Theorem validate_segments_idempotent_and_local (segments more : list (list sample)) (L : Z) :
  validate_segments (validate_segments segments L) L = validate_segments segments L /\
  validate_segments (segments ++ more) L
    = validate_segments segments L ++ validate_segments more L.
Proof.
  rewrite !validate_segments_filter. split.
  - apply filter_idempotent.
  - apply filter_app.
Qed.

(** ** Flat segments *)

Lemma Qsum_repeat (v : Q) (n : nat) :
  (Qsum (repeat v n) == inject_Z (Z.of_nat n) * v)%Q.
Proof.
  induction n as [|n IH].
  - simpl. ring.
  - cbn [repeat Qsum fold_right]. fold (Qsum (repeat v n)). rewrite IH.
    rewrite Nat2Z.inj_succ, <- Z.add_1_r, inject_Z_plus. ring.
Qed.

Lemma np_mean_repeat (v : Q) (n : nat) : (np_mean (repeat v (S n)) == v)%Q.
Proof.
  unfold np_mean, py_len. rewrite Qsum_repeat, repeat_length.
  field. unfold Qeq. simpl. lia.
Qed.

Lemma np_var_constant (v : Q) (n : nat) :
  exists w, np_var (repeat (Fin v) (S n)) = Fin w /\ (w == 0)%Q.
Proof.
  assert (Hf : finite_values (repeat (Fin v) (S n)) = Some (repeat v (S n))).
  { induction n as [|n IH]; [reflexivity|].
    change (repeat (Fin v) (S (S n))) with (Fin v :: repeat (Fin v) (S n)).
    cbn [finite_values]. rewrite IH. reflexivity. }
  unfold np_var. rewrite Hf.
  change (repeat v (S n)) with (v :: repeat v n). cbv beta iota zeta.
  change (v :: repeat v n) with (repeat v (S n)).
  eexists. split; [reflexivity|].
  rewrite map_repeat, np_mean_repeat, np_mean_repeat. ring.
Qed.

Lemma validate_one_constant (L : Z) (v : Q) (n : nat) :
  validate_one L (repeat (Fin v) n) = false.
Proof.
  unfold validate_one.
  destruct (py_len (repeat (Fin v) n) =? L); [|reflexivity].
  cbn [negb].
  destruct (existsb np_isnan (repeat (Fin v) n) || existsb np_isinf (repeat (Fin v) n));
    [reflexivity|].
  destruct n as [|n]; [reflexivity|].
  destruct (np_var_constant v n) as [w [Hw H0]].
  unfold np_std_lt. rewrite Hw. cbn [sample_ltb]. unfold Qltb.
  replace (Qle_bool ((1 # 1000000) * (1 # 1000000)) w) with false; [reflexivity|].
  symmetry. apply not_true_is_false. intros Hle.
  apply Qle_bool_iff in Hle. rewrite H0 in Hle. revert Hle. vm_compute. auto.
Qed.

Lemma constant_list_repeat {A} (x : A) (l : list A) :
  Forall (eq x) l -> l = repeat x (List.length l).
Proof. induction 1 as [|y l <- _ IH]; simpl; [reflexivity | f_equal; assumption]. Qed.

Lemma In_firstn_skipn {A} (y : A) (a b : nat) (l : list A) :
  In y (firstn a (skipn b l)) -> In y l.
Proof.
  intros Hy.
  assert (H1 : In y (skipn b l)).
  { rewrite <- (firstn_skipn a (skipn b l)). apply in_or_app. left. assumption. }
  rewrite <- (firstn_skipn b l). apply in_or_app. right. assumption.
Qed.

Lemma py_slice_constant {A} (x : A) (l : list A) (s e : Z) :
  Forall (eq x) l -> Forall (eq x) (py_slice l s e).
Proof.
  intros H. unfold py_slice. rewrite Forall_forall in *.
  intros y Hy. apply H. eapply In_firstn_skipn. exact Hy.
Qed.

Lemma extract_constant {A} (x : A) (ecg_signal : list A) (r_peaks : list Z) (L : Z) :
  Forall (eq x) ecg_signal ->
  Forall (Forall (eq x)) (extract_heartbeat_segments ecg_signal r_peaks L).
Proof.
  intros Hc. unfold extract_heartbeat_segments.
  induction r_peaks as [|p rest IH]; simpl; [constructor|].
  destruct (extract_one ecg_signal (L / 2) L p) as [seg|] eqn:E; [|assumption].
  constructor; [|assumption].
  apply extract_one_inv in E. destruct E as [_ [_ [-> _]]].
  apply py_slice_constant. assumption.
Qed.

Lemma validate_constant_segments (L : Z) (v : Q) (segments : list (list sample)) :
  Forall (Forall (eq (Fin v))) segments -> validate_segments segments L = [].
Proof.
  intros H. unfold validate_segments. rewrite validate_loop_filter. simpl.
  induction H as [|seg rest Hseg _ IH]; [reflexivity|]. simpl.
  rewrite (constant_list_repeat _ _ Hseg), validate_one_constant. assumption.
Qed.

(** A conditioned signal that is constant never yields a valid segment:
    whatever peaks are detected, every window is flat and is rejected, and
    the pipeline fails, with the no-segments error when no window was cut
    and with the validation error otherwise. *)
Theorem flat_signal_has_no_valid_segment (lib : Capabilities) (continuous_ecg : signal)
  (scaler : StandardScaler) (L rate : Z) (filtered : signal) (peaks : list Z) (v : Q) :
  preprocess_ecg lib continuous_ecg rate = Ok filtered ->
  Forall (eq (Fin v)) filtered ->
  detect_r_peaks lib filtered rate = Ok peaks ->
  validate_segments (extract_heartbeat_segments filtered peaks L) L = [] /\
  segment_ecg_beats lib continuous_ecg scaler L rate =
    Raise (if py_len (extract_heartbeat_segments filtered peaks L) =? 0
           then no_segments_extracted else no_segments_after_validation).
Proof.
  intros Hpre Hflat Hdet.
  assert (Hval : validate_segments (extract_heartbeat_segments filtered peaks L) L = []).
  { eapply validate_constant_segments. apply extract_constant. exact Hflat. }
  split; [assumption|].
  unfold segment_ecg_beats. rewrite Hpre. cbn [bind]. rewrite Hdet. cbn [bind].
  apply detect_r_peaks_inv in Hdet. destruct Hdet as [_ [_ [_ [_ [_ Hne]]]]].
  destruct (Z.eqb_spec (py_len peaks) 0) as [E|_];
    [apply py_len_zero_nil in E; contradiction|].
  destruct (py_len (extract_heartbeat_segments filtered peaks L) =? 0); [reflexivity|].
  rewrite Hval. reflexivity.
Qed.

Lemma flat_signal_has_no_valid_segment_witness :
  validate_segments (extract_heartbeat_segments (flat_signal 1000) [300; 500] 250) 250 = [] /\
  segment_ecg_beats (lib_with_wfdb [300; 500]) (flat_signal 1000) (unit_scaler 250) 250 360
    = Raise no_segments_after_validation.
Proof.
  apply (flat_signal_has_no_valid_segment (lib_with_wfdb [300; 500]) (flat_signal 1000)
           (unit_scaler 250) 250 360 (flat_signal 1000) [300; 500] 0%Q).
  - vm_compute. reflexivity.
  - apply Forall_forall. intros x Hx. apply repeat_spec in Hx. congruence.
  - vm_compute. reflexivity.
Defined.

(* ===================================================================== *)
(** * Further properties of peak detection *)
(* ===================================================================== *)

(** The fallback between the detectors.  When WFDB answers, nothing of the
    scipy path is consulted: two sets of capabilities that agree on the WFDB
    answer give the same result.  When WFDB raises, its exception is
    dropped: the result is the boundary-filtered scipy result, and the only
    exceptions that can surface are the scipy path's, the margin
    conversion's, or the empty-result error. *)
Theorem detect_r_peaks_fallback (lib : Capabilities) (ecg_signal : signal) (rate : Z) :
  (forall lib' cands,
     detect_r_peaks_wfdb lib ecg_signal rate = Ok cands ->
     detect_r_peaks_wfdb lib' ecg_signal rate = Ok cands ->
     detect_r_peaks lib ecg_signal rate = detect_r_peaks lib' ecg_signal rate) /\
  (forall e_wfdb e,
     detect_r_peaks_wfdb lib ecg_signal rate = Raise e_wfdb ->
     detect_r_peaks lib ecg_signal rate = Raise e ->
     detect_r_peaks_scipy lib ecg_signal rate = Raise e \/
     py_int_scaled 0.2 rate = Raise e \/
     (e = no_valid_r_peaks /\
      exists cands m,
        detect_r_peaks_scipy lib ecg_signal rate = Ok cands /\
        py_int_scaled 0.2 rate = Ok m /\
        boundary_filter m (py_len ecg_signal) cands = [])).
Proof.
  split.
  - intros lib' cands H H'. unfold detect_r_peaks, candidate_peaks.
    rewrite H, H'. reflexivity.
  - intros e_wfdb e Hw H. unfold detect_r_peaks, candidate_peaks in H.
    rewrite Hw in H. cbn [try_except] in H.
    destruct (detect_r_peaks_scipy lib ecg_signal rate) as [cands|e1]; cbn [bind] in H.
    + destruct (py_int_scaled 0.2 rate) as [m|e2]; cbn [bind] in H.
      * destruct (Z.eqb_spec (py_len (boundary_filter m (py_len ecg_signal) cands)) 0)
          as [E|_]; [|discriminate].
        injection H as <-. right. right. split; [reflexivity|].
        exists cands, m. apply py_len_zero_nil in E. auto.
      * injection H as <-. right. left. reflexivity.
    + injection H as <-. left. reflexivity.
Qed.

Lemma detect_r_peaks_fallback_witness :
  detect_r_peaks (lib_with_wfdb [200; 500]) (flat_signal 1000) 360
    = detect_r_peaks
        {| butter_filtfilt := fun _ x => x; np_zscore := fun _ => [];
           np_percentile := fun _ _ => NaN;
           find_peaks := fun _ _ => Raise ZeroDivisionError;
           gqrs_detect := fun _ _ => Ok [200; 500] |} (flat_signal 1000) 360 /\
  (exists cands m,
     detect_r_peaks_scipy lib_without_wfdb (flat_signal 150) 360 = Ok cands /\
     py_int_scaled 0.2 360 = Ok m /\
     boundary_filter m (py_len (flat_signal 150)) cands = []).
Proof.
  split.
  - apply (proj1 (detect_r_peaks_fallback (lib_with_wfdb [200; 500]) (flat_signal 1000) 360)
             _ [200; 500]); reflexivity.
  - destruct (proj2 (detect_r_peaks_fallback lib_without_wfdb (flat_signal 150) 360)
                (ValueError "WFDB gqrs_detect not available") no_valid_r_peaks)
      as [H|[H|[_ H]]].
    + reflexivity.
    + vm_compute. reflexivity.
    + vm_compute in H. discriminate.
    + vm_compute in H. discriminate.
    + exact H.
Defined.

(** The chain of scipy strategies.  When the primary strategy finds at
    least three peaks its result is returned as it is.  A result with fewer
    than three peaks can only be the answer of the last strategy, the one
    without a height constraint, after the primary and the relaxed strategy
    both found fewer than three. *)
Theorem detect_r_peaks_scipy_chain (lib : Capabilities) (ecg_signal : signal) (rate : Z)
  (peaks : list Z) :
  detect_r_peaks_scipy lib ecg_signal rate = Ok peaks ->
  let x := np_zscore lib ecg_signal in
  exists d1 r1,
    py_int_scaled 0.6 rate = Ok d1 /\
    find_peaks lib x (primary_kwargs lib x d1) = Ok r1 /\
    (3 <= py_len r1 -> peaks = r1) /\
    (py_len peaks < 3 ->
     exists d2 r2,
       py_int_scaled 0.4 rate = Ok d2 /\
       py_len r1 < 3 /\
       find_peaks lib x (relaxed_kwargs lib x d2) = Ok r2 /\ py_len r2 < 3 /\
       find_peaks lib x (unconstrained_kwargs d2) = Ok peaks).
Proof.
  intros H x. unfold detect_r_peaks_scipy in H. fold x in H.
  apply bind_Ok_inv in H. destruct H as [d1 [Hd1 H]].
  apply bind_Ok_inv in H. destruct H as [r1 [E1 H]].
  apply bind_Ok_inv in H. destruct H as [r2 [E2 H]].
  apply bind_Ok_inv in H. destruct H as [r3 [E3 H]].
  injection H as <-.
  exists d1, r1. split; [assumption|]. split; [exact E1|].
  destruct (Z.ltb_spec (py_len r1) 3) as [Hfew1|Hok1].
  - split; [lia|]. intros Hfew.
    apply bind_Ok_inv in E2. destruct E2 as [d2 [Hd2 E2]].
    destruct (Z.ltb_spec (py_len r2) 3) as [Hfew2|Hok2].
    + apply bind_Ok_inv in E3. destruct E3 as [d3 [Hd3 E3]].
      rewrite Hd2 in Hd3. injection Hd3 as <-.
      exists d2, r2. auto.
    + injection E3 as <-. lia.
  - injection E2 as <-.
    destruct (Z.ltb_spec (py_len r1) 3) as [Hfew1|_]; [lia|].
    injection E3 as <-. split; [reflexivity | lia].
Qed.

Lemma detect_r_peaks_scipy_chain_witness :
  exists d1 r1,
    py_int_scaled 0.6 360 = Ok d1 /\
    find_peaks lib_without_wfdb (flat_signal 1000)
      (primary_kwargs lib_without_wfdb (flat_signal 1000) d1) = Ok r1 /\
    [100; 316; 532] = r1.
Proof.
  destruct (detect_r_peaks_scipy_chain lib_without_wfdb (flat_signal 1000) 360
              [100; 316; 532]) as [d1 [r1 [Hd [Hr [Hprimary _]]]]].
  - vm_compute. reflexivity.
  - exists d1, r1. split; [exact Hd|]. split; [exact Hr|].
    apply Hprimary. vm_compute in Hd. injection Hd as <-.
    vm_compute in Hr. injection Hr as <-. vm_compute. discriminate.
Defined.

(* ===================================================================== *)
(** * Further properties of the preprocessing pipeline *)
(* ===================================================================== *)

Lemma segment_ecg_beats_inv (lib : Capabilities) (continuous_ecg : signal)
  (scaler : StandardScaler) (L rate : Z) (w : list warning) (out : list (list sample)) :
  segment_ecg_beats lib continuous_ecg scaler L rate = Ok (w, out) ->
  exists filtered peaks,
    preprocess_ecg lib continuous_ecg rate = Ok filtered /\
    detect_r_peaks lib filtered rate = Ok peaks /\
    validate_segments (extract_heartbeat_segments filtered peaks L) L <> [] /\
    scaler_transform scaler (validate_segments (extract_heartbeat_segments filtered peaks L) L)
      = Ok out /\
    np_shape1 out = L /\
    w = (if 2 * py_len (validate_segments (extract_heartbeat_segments filtered peaks L) L)
            <? py_len (extract_heartbeat_segments filtered peaks L)
         then [ManySegmentsFilteredOut
                 (py_len (validate_segments (extract_heartbeat_segments filtered peaks L) L))
                 (py_len (extract_heartbeat_segments filtered peaks L))]
         else []).
Proof.
  unfold segment_ecg_beats. intros H.
  apply bind_Ok_inv in H. destruct H as [filtered [Hpre H]].
  apply bind_Ok_inv in H. destruct H as [peaks [Hdet H]].
  destruct (py_len peaks =? 0); [discriminate|].
  destruct (py_len (extract_heartbeat_segments filtered peaks L) =? 0); [discriminate|].
  destruct (Z.eqb_spec (py_len (validate_segments
                                  (extract_heartbeat_segments filtered peaks L) L)) 0)
    as [|Hne]; [discriminate|].
  apply bind_Ok_inv in H. destruct H as [normalized [Hnorm H]].
  destruct (Z.eqb_spec (np_shape1 normalized) L) as [Hshape|]; [|discriminate].
  cbn [negb] in H. injection H as <- <-.
  exists filtered, peaks. split; [assumption|]. split; [assumption|].
  split; [|split; [assumption|split; [assumption|reflexivity]]].
  intros Hnil. apply Hne. rewrite Hnil. reflexivity.
Qed.

Lemma scale_row_length_min (means scales : list Q) (row : list sample) :
  py_len (scale_row means scales row)
  = Z.min (py_len row) (Z.min (py_len means) (py_len scales)).
Proof.
  unfold py_len. revert means scales.
  induction row as [|x r IH]; intros [|m ms] [|s ss]; simpl; try lia.
  specialize (IH ms ss). lia.
Qed.

Lemma scaler_transform_inv (scaler : StandardScaler) (X out : list (list sample)) :
  scaler_transform scaler X = Ok out ->
  out = map (scale_row (mean_ scaler) (scale_ scaler)) X /\
  Forall (fun row => py_len row = py_len (mean_ scaler)) X.
Proof.
  unfold scaler_transform. intros H.
  destruct (forallb _ X) eqn:E; [|discriminate].
  injection H as <-. split; [reflexivity|].
  apply Forall_forall. intros row Hrow.
  rewrite forallb_forall in E. apply Z.eqb_eq. apply E. assumption.
Qed.

(** A successful run of the pipeline returns at least one normalised
    segment, so the emptiness check its caller makes afterwards can never
    fire; every returned row has exactly [L] positions; there is one row per
    validated segment, hence at most one per detected peak; and the scaler
    was fitted on [L] positions. *)
Theorem segment_ecg_beats_success_shape (lib : Capabilities) (continuous_ecg : signal)
  (scaler : StandardScaler) (L rate : Z) (w : list warning) (out : list (list sample)) :
  segment_ecg_beats lib continuous_ecg scaler L rate = Ok (w, out) ->
  out <> [] /\
  Forall (fun row => py_len row = L) out /\
  py_len (mean_ scaler) = L /\
  exists filtered peaks,
    preprocess_ecg lib continuous_ecg rate = Ok filtered /\
    detect_r_peaks lib filtered rate = Ok peaks /\
    out = map (scale_row (mean_ scaler) (scale_ scaler))
              (validate_segments (extract_heartbeat_segments filtered peaks L) L) /\
    py_len out <= py_len (extract_heartbeat_segments filtered peaks L) /\
    py_len (extract_heartbeat_segments filtered peaks L) <= py_len peaks.
Proof.
  intros H. apply segment_ecg_beats_inv in H.
  destruct H as [filtered [peaks [Hpre [Hdet [Hne [Htr [Hshape _]]]]]]].
  apply scaler_transform_inv in Htr. destruct Htr as [-> Hrows].
  set (raw := extract_heartbeat_segments filtered peaks L) in *.
  assert (Hvalid : Forall (fun s => py_len s = L) (validate_segments raw L)).
  { rewrite validate_segments_filter. apply accepted_length. }
  destruct (validate_segments raw L) as [|v vs] eqn:Ev; [contradiction|].
  assert (Hmean : py_len (mean_ scaler) = L).
  { inversion Hrows; subst. inversion Hvalid; subst. congruence. }
  assert (Hscale : L <= py_len (scale_ scaler)).
  { simpl in Hshape. rewrite scale_row_length_min in Hshape.
    inversion Hvalid; subst. lia. }
  split; [discriminate|]. split; [|split; [assumption|]].
  - apply Forall_forall. intros row Hrow. apply in_map_iff in Hrow.
    destruct Hrow as [seg [<- Hseg]]. rewrite scale_row_length_min.
    rewrite Forall_forall in Hvalid. rewrite (Hvalid seg Hseg). lia.
  - exists filtered, peaks. split; [assumption|]. split; [assumption|].
    fold raw. rewrite Ev.
    split; [reflexivity|]. split.
    + unfold py_len at 1. rewrite length_map. fold (py_len (v :: vs)).
      rewrite <- Ev, validate_segments_filter. unfold py_len.
      apply inj_le, filter_length_le.
    + unfold raw, extract_heartbeat_segments, py_len.
      apply inj_le, extract_loop_length_le.
Qed.

Lemma segment_ecg_beats_success_shape_witness :
  [[Fin 0; Fin 1; Fin 2; Fin 1]] <> [] /\
  Forall (fun row => py_len row = 4) [[Fin 0; Fin 1; Fin 2; Fin 1]] /\
  py_len (mean_ (unit_scaler 4)) = 4.
Proof.
  destruct (segment_ecg_beats_success_shape (lib_with_wfdb [100; 300; 500]) one_beat_signal
              (unit_scaler 4) 4 360 [ManySegmentsFilteredOut 1 3]
              [[Fin 0; Fin 1; Fin 2; Fin 1]]) as [H1 [H2 [H3 _]]].
  - vm_compute. reflexivity.
  - auto.
Defined.

Lemma scale_row_finite (means scales : list Q) (row : list sample) :
  Forall (fun x => np_isfinite x = true) row ->
  Forall (fun s => ~ (s == 0)%Q) scales ->
  Forall (fun x => np_isfinite x = true) (scale_row means scales row).
Proof.
  intros Hrow. revert means scales.
  induction Hrow as [|x r Hx _ IH]; intros means scales Hs;
    [destruct means, scales; simpl; constructor|].
  destruct means as [|m ms]; [simpl; constructor|].
  destruct Hs as [|s ss Hs0 Hss]; [simpl; constructor|].
  cbn [scale_row]. constructor; [|apply IH; assumption].
  destruct x; try discriminate. cbn [sample_sub sample_div].
  destruct (Qcompare_spec s 0); [contradiction | reflexivity | reflexivity].
Qed.

Lemma accepted_finite (L : Z) (segment : list sample) :
  accepts L segment = true -> Forall (fun x => np_isfinite x = true) segment.
Proof.
  unfold accepts. rewrite !andb_true_iff. intros [[[_ Hfin] _] _].
  apply Forall_forall. intros x Hx. rewrite forallb_forall in Hfin.
  specialize (Hfin x Hx). destruct x; try reflexivity; discriminate.
Qed.

(** A scaler fitted on another number of positions than the segment length
    makes the pipeline fail at normalisation, with the scaler's own error,
    as soon as one segment passes validation. *)
Theorem scaler_length_mismatch_fails (lib : Capabilities) (continuous_ecg : signal)
  (scaler : StandardScaler) (L rate : Z) (filtered : signal) (peaks : list Z) :
  preprocess_ecg lib continuous_ecg rate = Ok filtered ->
  detect_r_peaks lib filtered rate = Ok peaks ->
  validate_segments (extract_heartbeat_segments filtered peaks L) L <> [] ->
  py_len (mean_ scaler) <> L ->
  segment_ecg_beats lib continuous_ecg scaler L rate = Raise scaler_feature_mismatch.
Proof.
  intros Hpre Hdet Hvalid Hlen.
  unfold segment_ecg_beats. rewrite Hpre. cbn [bind]. rewrite Hdet. cbn [bind].
  apply detect_r_peaks_inv in Hdet. destruct Hdet as [_ [_ [_ [_ [_ Hpeaks]]]]].
  destruct (Z.eqb_spec (py_len peaks) 0) as [E|_];
    [apply py_len_zero_nil in E; contradiction|].
  set (raw := extract_heartbeat_segments filtered peaks L) in *.
  destruct (Z.eqb_spec (py_len raw) 0) as [E|_].
  { apply py_len_zero_nil in E. exfalso. apply Hvalid. rewrite E. reflexivity. }
  destruct (Z.eqb_spec (py_len (validate_segments raw L)) 0) as [E|_];
    [apply py_len_zero_nil in E; contradiction|].
  assert (Hrows : Forall (fun s => py_len s = L) (validate_segments raw L)).
  { rewrite validate_segments_filter. apply accepted_length. }
  unfold scaler_transform.
  destruct (validate_segments raw L) as [|v vs]; [contradiction|].
  inversion Hrows as [|? ? Hv _]; subst.
  cbn [forallb].
  destruct (Z.eqb_spec (py_len v) (py_len (mean_ scaler))) as [E|_]; [congruence|].
  reflexivity.
Qed.

Lemma scaler_length_mismatch_fails_witness :
  segment_ecg_beats (lib_with_wfdb [100; 300; 500]) one_beat_signal (unit_scaler 3) 4 360
  = Raise scaler_feature_mismatch.
Proof.
  apply (scaler_length_mismatch_fails (lib_with_wfdb [100; 300; 500]) one_beat_signal
           (unit_scaler 3) 4 360 one_beat_signal [100; 300; 500]).
  - vm_compute. reflexivity.
  - vm_compute. reflexivity.
  - vm_compute. discriminate.
  - vm_compute. discriminate.
Defined.

(* ===================================================================== *)
(** * Further properties of classification and aggregation *)
(* ===================================================================== *)

Lemma map_argmax_cases (rows : list (list Q)) :
  (Forall (fun row => row <> []) rows /\
   (exists cls, map_result np_argmax rows = Ok cls) /\
   (exists cfs, map_result np_row_max rows = Ok cfs)) \/
  (~ Forall (fun row => row <> []) rows /\
   map_result np_argmax rows = Raise argmax_of_empty_row).
Proof.
  induction rows as [|row rest IH].
  - left. split; [constructor|]. split; eexists; reflexivity.
  - destruct row as [|x r].
    + right. split; [|reflexivity]. intros H. inversion H; subst. congruence.
    + destruct IH as [[Hne [[cls Hc] [cfs Hf]]]|[Hbad Hraise]].
      * left. split; [constructor; [discriminate | assumption]|].
        cbn [map_result np_argmax np_row_max bind]. rewrite Hc, Hf.
        split; eexists; reflexivity.
      * right. split; [intros H; inversion H; contradiction|].
        cbn [map_result np_argmax bind]. rewrite Hraise. reflexivity.
Qed.

Lemma classify_loop_outcome (model_predict : list (list sample) -> result (list (list Q)))
  (X : list (list sample)) (batch_size : Z) (starts : list Z) (st : classify_state) :
  let batches := map (fun i => py_slice X i (i + batch_size)) starts in
  (Forall (batch_classified model_predict) batches /\
   exists st', classify_loop model_predict X batch_size starts st = Ok st') \/
  (exists e done b rest,
     classify_loop model_predict X batch_size starts st = Raise e /\
     batches = done ++ b :: rest /\
     Forall (batch_classified model_predict) done /\
     (model_predict b = Raise e \/
      exists rows, model_predict b = Ok rows /\ In [] rows /\ e = argmax_of_empty_row)).
Proof.
  revert st. induction starts as [|i rest IH]; intros st; cbn zeta.
  - left. split; [constructor | eexists; reflexivity].
  - cbn [map classify_loop]. unfold classify_step.
    set (b := py_slice X i (i + batch_size)).
    destruct (model_predict b) as [rows|e] eqn:Hb; cbn [bind].
    2:{ right. exists e, [], b, (map (fun i => py_slice X i (i + batch_size)) rest).
        split; [reflexivity|]. split; [reflexivity|]. split; [constructor|].
        left. exact Hb. }
    destruct (map_argmax_cases rows) as [[Hne [[cls Hc] [cfs Hf]]]|[Hbad Hraise]].
    + rewrite Hc, Hf. cbn [bind].
      match goal with
      | |- context [classify_loop _ _ _ rest ?s] =>
          destruct (IH s) as [[Hall [st' Hst]]|[e [done [b' [rest' [Hr [Hsplit [Hdone Hwhy]]]]]]]]
      end.
      * left. split; [constructor; [exists rows; auto | assumption] | eauto].
      * right. exists e, (b :: done), b', rest'.
        split; [exact Hr|]. split; [cbn zeta in Hsplit; rewrite Hsplit; reflexivity|].
        split; [constructor; [exists rows; auto | assumption] | exact Hwhy].
    + right. exists argmax_of_empty_row, [], b, (map (fun i => py_slice X i (i + batch_size)) rest).
      rewrite Hraise. cbn [bind].
      split; [reflexivity|]. split; [reflexivity|]. split; [constructor|].
      right. exists rows. split; [exact Hb|]. split; [|reflexivity].
      clear - Hbad. induction rows as [|row r IHr]; [exfalso; apply Hbad; constructor|].
      destruct row as [|x row]; [left; reflexivity|].
      right. apply IHr. intros H. apply Hbad. constructor; [discriminate | exact H].
Qed.

(** Classification succeeds exactly when the classifier returns on every
    batch and never returns an empty probability row.  When it fails, the
    exception comes from the first batch that is not of that kind, the
    batches before it having been classified: it is the classifier's own
    exception when [model.predict] raised on that batch, and numpy's argmax
    error when the returned array has a row without entries. *)
Theorem classify_segments_fails_at_first_bad_batch
  (model_predict : list (list sample) -> result (list (list Q)))
  (X_segments : list (list sample)) (batch_size : Z) :
  ((exists st, classify_segments model_predict X_segments batch_size = Ok st) <->
   Forall (batch_classified model_predict) (batches_of X_segments batch_size)) /\
  (forall e, classify_segments model_predict X_segments batch_size = Raise e ->
     exists done b rest,
       batches_of X_segments batch_size = done ++ b :: rest /\
       Forall (batch_classified model_predict) done /\
       (model_predict b = Raise e \/
        exists rows, model_predict b = Ok rows /\ In [] rows /\ e = argmax_of_empty_row)).
Proof.
  unfold classify_segments, batches_of.
  destruct (classify_loop_outcome model_predict X_segments batch_size
              (py_range 0 (py_len X_segments) batch_size)
              {| predict_calls := []; all_predictions := []; all_confidences := [] |})
    as [[Hall [st Hst]]|[e [done [b [rest [Hraise [Hsplit [Hdone Hwhy]]]]]]]].
  - rewrite Hst. split.
    + split; [intros _; assumption | intros _; eauto].
    + intros e He. discriminate.
  - cbn zeta in Hsplit. rewrite Hraise. split.
    + split; [intros [st Hst]; discriminate|].
      intros Hall. exfalso. rewrite Hsplit in Hall.
      apply Forall_app in Hall. destruct Hall as [_ Hall].
      inversion Hall as [|? ? [rows [Hb Hne]] _]; subst.
      destruct Hwhy as [Hr | [rows' [Hb' [Hin _]]]]; [congruence|].
      assert (rows' = rows) by congruence. subst rows'.
      rewrite Forall_forall in Hne. apply (Hne [] Hin). reflexivity.
    + intros e' He. injection He as <-. exists done, b, rest. auto.
Qed.

(** ** The label map *)

Lemma mapping_lookup_cases (class_mapping : list (nat * string)) (k : nat) :
  (exists name, mapping_lookup class_mapping k = Ok name) \/
  mapping_lookup class_mapping k = Raise (KeyError k).
Proof.
  induction class_mapping as [|[k' name] rest IH]; simpl.
  - right. reflexivity.
  - destruct (Nat.eqb k' k); [left; eauto | assumption].
Qed.

Lemma distribution_loop_total (class_mapping : list (nat * string))
  (segment_classes : list nat) (segment_confidences : list Q) (total : Z)
  (items : counter) (d : list (string * class_stats)) :
  (forall item, In item items -> exists name, mapping_lookup class_mapping (fst item) = Ok name) ->
  exists d', distribution_loop class_mapping segment_classes segment_confidences total items d
             = Ok d'.
Proof.
  revert d. induction items as [|[k n] rest IH]; intros d Hlook; simpl.
  - eauto.
  - destruct (Hlook (k, n) (or_introl eq_refl)) as [name Hname]. simpl in Hname.
    rewrite Hname. cbn [bind]. apply IH. intros item Hitem. apply Hlook. right. assumption.
Qed.

Lemma distribution_loop_raise (class_mapping : list (nat * string))
  (segment_classes : list nat) (segment_confidences : list Q) (total : Z)
  (items : counter) (d : list (string * class_stats)) (e : exn) :
  distribution_loop class_mapping segment_classes segment_confidences total items d = Raise e ->
  exists item, In item items /\ e = KeyError (fst item) /\
               mapping_lookup class_mapping (fst item) = Raise (KeyError (fst item)).
Proof.
  revert d. induction items as [|[k n] rest IH]; intros d H; simpl in H; [discriminate|].
  destruct (mapping_lookup_cases class_mapping k) as [[name Hname]|Hraise].
  - rewrite Hname in H. cbn [bind] in H. destruct (IH _ H) as [item [Hin Hitem]].
    exists item. split; [right; assumption | assumption].
  - rewrite Hraise in H. cbn [bind] in H. injection H as <-.
    exists (k, n). split; [left; reflexivity | auto].
Qed.

(** The label map decides whether aggregation can fail.  With a label for
    every predicted class it succeeds; when it fails on a non-empty
    prediction sequence, it is with the key error of a predicted class that
    has no label. *)
Theorem aggregate_fails_only_on_missing_label (class_mapping : list (nat * string))
  (segment_classes : list nat) (segment_confidences : list Q) (n_samples : Z) :
  (segment_classes <> [] ->
   (forall k, In k segment_classes -> exists name, mapping_lookup class_mapping k = Ok name) ->
   exists r, aggregate class_mapping segment_classes segment_confidences n_samples = Ok r) /\
  (segment_classes <> [] ->
   forall e, aggregate class_mapping segment_classes segment_confidences n_samples = Raise e ->
   exists k, In k segment_classes /\ e = KeyError k /\
             mapping_lookup class_mapping k = Raise (KeyError k)).
Proof.
  split.
  - intros Hne Hlook. destruct (majority_class_In _ Hne) as [c [Hc Hcin]].
    destruct (Hlook c Hcin) as [name Hname].
    destruct (distribution_loop_total class_mapping segment_classes segment_confidences
                (py_len segment_classes) (Counter segment_classes) []) as [d Hd].
    { intros item Hitem. apply Hlook. apply Counter_keys_In. apply in_map. assumption. }
    unfold aggregate. rewrite Hc. cbn [bind]. rewrite Hname. cbn [bind].
    rewrite Hd. cbn [bind]. eauto.
  - intros Hne e H. destruct (majority_class_In _ Hne) as [c [Hc Hcin]].
    unfold aggregate in H. rewrite Hc in H. cbn [bind] in H.
    destruct (mapping_lookup_cases class_mapping c) as [[name Hname]|Hraise].
    + rewrite Hname in H. cbn [bind] in H.
      destruct (distribution_loop class_mapping segment_classes segment_confidences
                  (py_len segment_classes) (Counter segment_classes) []) as [d|e'] eqn:Hd;
        cbn [bind] in H; [discriminate|].
      injection H as <-. apply distribution_loop_raise in Hd.
      destruct Hd as [item [Hin [He Hl]]]. exists (fst item).
      split; [apply Counter_keys_In; apply in_map; assumption | auto].
    + rewrite Hraise in H. cbn [bind] in H. injection H as <-. exists c. auto.
Qed.

Lemma aggregate_fails_only_on_missing_label_witness :
  (exists r, aggregate three_labels [2; 0; 2]%nat [1 # 2; 1 # 2; 1 # 2]%Q 100 = Ok r) /\
  (exists k, In k [0; 7; 0]%nat /\
             aggregate three_labels [0; 7; 0]%nat [1 # 2; 1 # 2; 1 # 2]%Q 100
               = Raise (KeyError k) /\
             mapping_lookup three_labels k = Raise (KeyError k)).
Proof.
  destruct (aggregate_fails_only_on_missing_label three_labels [2; 0; 2]%nat
              [1 # 2; 1 # 2; 1 # 2]%Q 100) as [Hok _].
  destruct (aggregate_fails_only_on_missing_label three_labels [0; 7; 0]%nat
              [1 # 2; 1 # 2; 1 # 2]%Q 100) as [_ Hfail].
  split.
  - apply Hok; [discriminate|].
    intros k Hk. simpl in Hk. destruct Hk as [<-|[<-|[<-|[]]]]; eexists; reflexivity.
  - destruct (Hfail ltac:(discriminate) (KeyError 7) eq_refl) as [k [Hin [He Hl]]].
    exists k. injection He as <-. split; [exact Hin|]. split; [reflexivity | exact Hl].
Defined.

Lemma classify_segments_fails_at_first_bad_batch_witness :
  exists done b rest,
    batches_of [[Fin 1]; [Fin 2]; [Fin 3]; [Fin 4]; [Fin 5]] 3 = done ++ b :: rest /\
    Forall (batch_classified failing_classifier) done /\
    (failing_classifier b = Raise (ValueError "ResourceExhaustedError: out of memory") \/
     exists rows, failing_classifier b = Ok rows /\ In [] rows /\
                  ValueError "ResourceExhaustedError: out of memory" = argmax_of_empty_row).
Proof.
  apply (proj2 (classify_segments_fails_at_first_bad_batch failing_classifier
                  [[Fin 1]; [Fin 2]; [Fin 3]; [Fin 4]; [Fin 5]] 3)).
  vm_compute. reflexivity.
Defined.

(** ** The fields of the response *)

Lemma majority_class_max (segment_classes : list nat) (c : nat) :
  majority_class segment_classes = Ok c ->
  In c segment_classes /\
  forall k, (votes segment_classes k <= votes segment_classes c)%nat.
Proof.
  unfold majority_class. intros H.
  destruct (counter_keys (Counter segment_classes)) as [|k0 keys] eqn:Hkeys;
    [discriminate|].
  simpl in H. injection H as <-.
  destruct (py_max_from_first (counter_get (Counter segment_classes)) keys k0)
    as [k1 [k2 [Heq [Hbefore Hafter]]]].
  set (c := py_max_from (counter_get (Counter segment_classes)) k0 keys) in *.
  assert (Hc : In c segment_classes).
  { apply Counter_keys_In. rewrite Hkeys, Heq. apply in_elt. }
  split; [assumption|].
  intros k. destruct (in_dec Nat.eq_dec k segment_classes) as [Hk|Hk].
  - apply Counter_keys_In in Hk. rewrite Hkeys, Heq in Hk.
    apply in_app_or in Hk. destruct Hk as [Hk|[<-|Hk]].
    + specialize (Hbefore _ Hk). rewrite !Counter_get in Hbefore. lia.
    + lia.
    + specialize (Hafter _ Hk). rewrite !Counter_get in Hafter. assumption.
  - unfold votes at 1. rewrite (proj1 (count_occ_not_In Nat.eq_dec _ _) Hk). lia.
Qed.

Lemma aggregate_inv (class_mapping : list (nat * string)) (segment_classes : list nat)
  (segment_confidences : list Q) (n_samples : Z) (r : diagnosis) :
  aggregate class_mapping segment_classes segment_confidences n_samples = Ok r ->
  exists c name d,
    majority_class segment_classes = Ok c /\
    mapping_lookup class_mapping c = Ok name /\
    distribution_loop class_mapping segment_classes segment_confidences
      (py_len segment_classes) (Counter segment_classes) [] = Ok d /\
    r = {| predicted_diagnosis := name;
           overall_confidence :=
             py_round (mean_or_zero
                         (confidences_of segment_classes segment_confidences c)) 4;
           total_heartbeats := py_len segment_classes;
           continuous_samples := n_samples;
           segment_distribution := d;
           preprocessing_success := true;
           majority_vote_count := counter_get (Counter segment_classes) c |}.
Proof.
  unfold aggregate. intros H.
  apply bind_Ok_inv in H. destruct H as [c [Hc H]].
  apply bind_Ok_inv in H. destruct H as [name [Hname H]].
  apply bind_Ok_inv in H. destruct H as [d [Hd H]].
  injection H as <-. exists c, name, d. auto.
Qed.

Lemma Counter_length_distinct (xs : list nat) :
  List.length (Counter xs) = distinct_classes xs.
Proof.
  unfold distinct_classes.
  rewrite <- (length_map fst (Counter xs)). fold (counter_keys (Counter xs)).
  apply Nat.le_antisymm; apply NoDup_incl_length.
  - apply Counter_keys_NoDup.
  - intros k Hk. apply nodup_In. apply Counter_keys_In. assumption.
  - apply NoDup_nodup.
  - intros k Hk. apply Counter_keys_In. apply nodup_In in Hk. assumption.
Qed.

Lemma list_sum_bound (M : nat) (ns : list nat) :
  Forall (fun n => n <= M)%nat ns -> (list_sum ns <= List.length ns * M)%nat.
Proof. induction 1 as [|n r Hn _ IH]; simpl; lia. Qed.

(** What a successful aggregation reports about the vote: the number of
    heartbeats is the number of predictions; the majority count is the
    number of segments predicted as the reported class, it is at least one,
    at most the total, no class has more votes, and it is at least the
    average share: the total divided by the number of distinct classes. *)
Theorem aggregate_vote_counts (class_mapping : list (nat * string))
  (segment_classes : list nat) (segment_confidences : list Q) (n_samples : Z)
  (r : diagnosis) :
  aggregate class_mapping segment_classes segment_confidences n_samples = Ok r ->
  total_heartbeats r = py_len segment_classes /\
  continuous_samples r = n_samples /\
  preprocessing_success r = true /\
  exists c,
    majority_class segment_classes = Ok c /\
    predicted_diagnosis r = label_of class_mapping c /\
    majority_vote_count r = votes segment_classes c /\
    (1 <= majority_vote_count r)%nat /\
    Z.of_nat (majority_vote_count r) <= total_heartbeats r /\
    (forall k, votes segment_classes k <= majority_vote_count r)%nat /\
    total_heartbeats r
      <= Z.of_nat (majority_vote_count r) * Z.of_nat (distinct_classes segment_classes).
Proof.
  intros H. apply aggregate_inv in H.
  destruct H as [c [name [d [Hc [Hname [_ ->]]]]]]. cbn.
  split; [reflexivity|]. split; [reflexivity|]. split; [reflexivity|].
  exists c. destruct (majority_class_max _ _ Hc) as [Hin Hmax].
  rewrite Counter_get.
  split; [assumption|].
  split; [unfold label_of; rewrite Hname; reflexivity|].
  split; [reflexivity|].
  split; [apply votes_pos_In; assumption|].
  split; [unfold py_len, votes; apply inj_le, count_occ_bound|].
  split; [assumption|].
  unfold py_len. rewrite <- Counter_sum, <- Counter_length_distinct, <- Nat2Z.inj_mul.
  apply inj_le. rewrite Nat.mul_comm, <- (length_map snd (Counter segment_classes)).
  apply list_sum_bound. apply Forall_forall. intros n Hn.
  apply in_map_iff in Hn. destruct Hn as [item [<- Hitem]].
  rewrite (Counter_item_votes _ _ Hitem). apply Hmax.
Qed.

Lemma aggregate_vote_counts_witness :
  exists c,
    majority_class [2; 0; 2; 0; 1; 2]%nat = Ok c /\
    votes [2; 0; 2; 0; 1; 2]%nat c = 3%nat /\
    6 <= 3 * Z.of_nat (distinct_classes [2; 0; 2; 0; 1; 2]%nat).
Proof.
  destruct (aggregate three_labels [2; 0; 2; 0; 1; 2]%nat
              [9 # 10; 3 # 5; 4 # 5; 7 # 10; 1 # 2; 1 # 3]%Q 1000) as [r|e] eqn:E;
    [|vm_compute in E; discriminate].
  destruct (aggregate_vote_counts _ _ _ _ _ E)
    as [Ht [_ [_ [c [Hc [_ [Hm [_ [_ [_ Hshare]]]]]]]]]].
  exists c. split; [exact Hc|].
  assert (Ec : c = 2%nat) by (vm_compute in Hc; congruence). subst c.
  split; [reflexivity|].
  rewrite Ht, Hm in Hshare. exact Hshare.
Defined.

(** ** Bounds on the reported numbers *)

Lemma pow10_pos (nd : nat) : 0 < 10 ^ Z.of_nat nd.
Proof. apply Z.pow_pos_nonneg; lia. Qed.

(** Rounding to decimals never leaves an interval with integer ends. *)
Lemma py_round_bounds (a b : Z) (x : Q) (nd : nat) :
  (inject_Z a <= x)%Q -> (x <= inject_Z b)%Q ->
  (inject_Z a <= py_round x nd)%Q /\ (py_round x nd <= inject_Z b)%Q.
Proof.
  intros Ha Hb. unfold py_round. rewrite Qred_correct.
  pose proof (pow10_pos nd) as HS. set (S := 10 ^ Z.of_nat nd) in *.
  assert (HSq : (0 < inject_Z S)%Q) by (unfold Qlt; simpl; lia).
  destruct (round_half_even_bounds (a * S) (b * S) (x * inject_Z S)) as [Hlo Hhi].
  - rewrite inject_Z_mult. apply Qmult_le_compat_r; [assumption | apply Qlt_le_weak; assumption].
  - rewrite inject_Z_mult. apply Qmult_le_compat_r; [assumption | apply Qlt_le_weak; assumption].
  - split.
    + apply Qle_shift_div_l; [assumption|]. rewrite <- inject_Z_mult, <- Zle_Qle. assumption.
    + apply Qle_shift_div_r; [assumption|]. rewrite <- inject_Z_mult, <- Zle_Qle. assumption.
Qed.

Lemma Qsum_bounds (lo hi : Q) (l : list Q) :
  Forall (fun q => lo <= q /\ q <= hi)%Q l ->
  (inject_Z (py_len l) * lo <= Qsum l)%Q /\ (Qsum l <= inject_Z (py_len l) * hi)%Q.
Proof.
  unfold py_len. induction 1 as [|q r [Hlo Hhi] _ [IHlo IHhi]].
  - simpl. change (inject_Z 0) with 0%Q. split; lra.
  - simpl List.length. rewrite Nat2Z.inj_succ, <- Z.add_1_r, inject_Z_plus.
    change (inject_Z 1) with 1%Q. cbn [Qsum fold_right]. fold (Qsum r).
    set (n := inject_Z (Z.of_nat (List.length r))) in *. split; lra.
Qed.

Lemma mean_or_zero_unit_interval (l : list Q) :
  Forall (fun q => 0 <= q /\ q <= 1)%Q l ->
  (inject_Z 0 <= mean_or_zero l)%Q /\ (mean_or_zero l <= inject_Z 1)%Q.
Proof.
  intros H. destruct l as [|q r]; [split; vm_compute; discriminate|].
  change (mean_or_zero (q :: r)) with (np_mean (q :: r)). unfold np_mean.
  destruct (Qsum_bounds 0 1 _ H) as [Hlo Hhi].
  assert (Hn : (0 < inject_Z (py_len (q :: r)))%Q).
  { unfold Qlt, py_len. simpl. lia. }
  change (inject_Z 0) with 0%Q. change (inject_Z 1) with 1%Q. split.
  - apply Qle_shift_div_l; [assumption|]. lra.
  - apply Qle_shift_div_r; [assumption|]. lra.
Qed.

Lemma confidences_of_Forall (P : Q -> Prop) (segment_classes : list nat)
  (segment_confidences : list Q) (k : nat) :
  Forall P segment_confidences ->
  Forall P (confidences_of segment_classes segment_confidences k).
Proof.
  intros H. unfold confidences_of. rewrite Forall_forall in *.
  intros q Hq. apply in_map_iff in Hq. destruct Hq as [[c q'] [<- Hin]].
  apply filter_In in Hin. destruct Hin as [Hin _].
  apply in_combine_r in Hin. apply H. assumption.
Qed.

Lemma dict_set_Forall {V} (P : V -> Prop) (k : string) (v : V) (d : list (string * V)) :
  P v -> Forall (fun e => P (snd e)) d -> Forall (fun e => P (snd e)) (dict_set k v d).
Proof.
  intros Hv H. induction H as [|[k' v'] d Hk' Hd IH]; simpl.
  - repeat constructor. assumption.
  - destruct (String.eqb k' k); constructor; assumption.
Qed.

Lemma distribution_loop_Forall (P : class_stats -> Prop) (class_mapping : list (nat * string))
  (segment_classes : list nat) (segment_confidences : list Q)
  (items : counter) (d d' : list (string * class_stats)) :
  0 < py_len segment_classes ->
  distribution_loop class_mapping segment_classes segment_confidences
    (py_len segment_classes) items d = Ok d' ->
  (forall item, In item items -> P (item_entry segment_classes segment_confidences item)) ->
  Forall (fun e => P (snd e)) d ->
  Forall (fun e => P (snd e)) d'.
Proof.
  intros Htotal. revert d. induction items as [|[k n] rest IH]; intros d H Hitems Hd;
    simpl in H.
  - injection H as <-. assumption.
  - apply bind_Ok_inv in H. destruct H as [name [_ H]].
    replace (py_len segment_classes >? 0) with true in H
      by (symmetry; apply Z.gtb_lt; assumption).
    eapply IH; [exact H | |].
    + intros item Hitem. apply Hitems. right. assumption.
    + apply dict_set_Forall; [|assumption]. apply (Hitems (k, n)). left. reflexivity.
Qed.

(** With confidences between 0 and 1, as the maxima of probability rows
    are, every number of a successful response is in range: the overall
    confidence and every class's average confidence lie between 0 and 1,
    every percentage between 0 and 100, and every listed class has at least
    one segment. *)
Theorem aggregate_numbers_in_range (class_mapping : list (nat * string))
  (segment_classes : list nat) (segment_confidences : list Q) (n_samples : Z)
  (r : diagnosis) :
  aggregate class_mapping segment_classes segment_confidences n_samples = Ok r ->
  Forall (fun q => 0 <= q /\ q <= 1)%Q segment_confidences ->
  (0 <= overall_confidence r /\ overall_confidence r <= 1)%Q /\
  Forall (fun e =>
            (0 <= avg_confidence (snd e) /\ avg_confidence (snd e) <= 1)%Q /\
            (0 <= percentage (snd e) /\ percentage (snd e) <= 100)%Q /\
            (1 <= segment_count (snd e))%nat)
         (segment_distribution r).
Proof.
  intros H Hconf. apply aggregate_inv in H.
  destruct H as [c [name [d [Hc [_ [Hd ->]]]]]].
  cbn [overall_confidence segment_distribution].
  destruct (majority_class_max _ _ Hc) as [Hin _].
  assert (Htotal : 0 < py_len segment_classes).
  { destruct segment_classes; [destruct Hin | unfold py_len; simpl; lia]. }
  split.
  - apply (py_round_bounds 0 1). all: apply mean_or_zero_unit_interval.
    all: apply confidences_of_Forall; assumption.
  - apply (distribution_loop_Forall
             (fun st => (0 <= avg_confidence st /\ avg_confidence st <= 1)%Q /\
                        (0 <= percentage st /\ percentage st <= 100)%Q /\
                        (1 <= segment_count st)%nat)
             class_mapping segment_classes segment_confidences
             (Counter segment_classes) [] d Htotal Hd); [|constructor].
    intros item Hitem. unfold item_entry. cbn [avg_confidence percentage segment_count].
    pose proof (Counter_item_votes _ _ Hitem) as Hn.
    assert (Hk : In (fst item) segment_classes)
      by (apply Counter_keys_In; apply in_map; assumption).
    assert (Hpos : (1 <= snd item)%nat) by (rewrite Hn; apply votes_pos_In; assumption).
    assert (Hle : Z.of_nat (snd item) <= py_len segment_classes)
      by (rewrite Hn; unfold py_len, votes; apply inj_le, count_occ_bound).
    split; [|split; [|assumption]].
    + apply (py_round_bounds 0 1). all: apply mean_or_zero_unit_interval.
      all: apply confidences_of_Forall; assumption.
    + apply (py_round_bounds 0 100).
      all: apply (share_range (Z.of_nat (snd item)) (py_len segment_classes)); lia.
Qed.

Lemma aggregate_numbers_in_range_witness :
  exists r,
    aggregate three_labels [2; 0; 2]%nat [9 # 10; 3 # 5; 1 # 1]%Q 100 = Ok r /\
    (0 <= overall_confidence r /\ overall_confidence r <= 1)%Q.
Proof.
  destruct (aggregate three_labels [2; 0; 2]%nat [9 # 10; 3 # 5; 1 # 1]%Q 100)
    as [r|e] eqn:E; [|vm_compute in E; discriminate].
  exists r. split; [reflexivity|].
  apply (aggregate_numbers_in_range _ _ _ _ _ E).
  repeat constructor; vm_compute; discriminate.
Defined.

(** With a label map that is defined and injective on the predicted
    classes, the distribution has exactly one entry per distinct predicted
    class and the segment counts of its entries add up to the number of
    heartbeats. *)
Theorem aggregate_distribution_counts (class_mapping : list (nat * string))
  (segment_classes : list nat) (segment_confidences : list Q) (n_samples : Z) :
  segment_classes <> [] ->
  (forall k, In k segment_classes -> exists name, mapping_lookup class_mapping k = Ok name) ->
  (forall k k', In k segment_classes -> In k' segment_classes ->
                label_of class_mapping k = label_of class_mapping k' -> k = k') ->
  exists r,
    aggregate class_mapping segment_classes segment_confidences n_samples = Ok r /\
    List.length (segment_distribution r) = distinct_classes segment_classes /\
    map fst (segment_distribution r)
      = map (label_of class_mapping) (counter_keys (Counter segment_classes)) /\
    Z.of_nat (list_sum (map (fun e => segment_count (snd e)) (segment_distribution r)))
      = total_heartbeats r.
Proof.
  intros Hne Hlook Hinj.
  destruct (majority_class_In _ Hne) as [c [Hc Hcin]].
  destruct (Hlook c Hcin) as [name Hname].
  assert (Htotal : 0 < py_len segment_classes).
  { destruct segment_classes; [contradiction | unfold py_len; simpl; lia]. }
  set (label := fun item : nat * nat => label_of class_mapping (fst item)).
  assert (Hitems : forall item, In item (Counter segment_classes) -> In (fst item) segment_classes).
  { intros item Hitem. apply Counter_keys_In. apply in_map. assumption. }
  assert (Hnd : NoDup (map label (Counter segment_classes))).
  { unfold label. rewrite <- (map_map fst (label_of class_mapping)).
    apply NoDup_map_inj_on; [|apply Counter_keys_NoDup].
    intros x y Hx Hy. apply Hinj; apply Counter_keys_In; assumption. }
  pose proof (distribution_loop_spec class_mapping segment_classes segment_confidences
                (Counter segment_classes) [] Htotal
                (fun item Hitem => Hlook _ (Hitems item Hitem)) Hnd) as Hdist.
  cbn [app] in Hdist.
  eexists. unfold aggregate. rewrite Hc. cbn [bind]. rewrite Hname. cbn [bind].
  rewrite Hdist. cbn [bind].
  split; [reflexivity|]. cbn [segment_distribution total_heartbeats].
  split; [rewrite length_map; apply Counter_length_distinct|].
  split.
  - rewrite map_map. cbn [fst]. unfold counter_keys. rewrite map_map. reflexivity.
  - rewrite map_map. cbn [snd]. unfold item_entry. cbn [segment_count].
    rewrite Counter_sum. reflexivity.
Qed.

Lemma aggregate_distribution_counts_witness :
  exists r,
    aggregate three_labels [2; 0; 2; 0; 1; 2]%nat
      [9 # 10; 3 # 5; 4 # 5; 7 # 10; 1 # 2; 1 # 3]%Q 1000 = Ok r /\
    List.length (segment_distribution r) = 3%nat /\
    map fst (segment_distribution r) = ["Ischemia"; "Normal"; "Arrhythmia"]%string /\
    Z.of_nat (list_sum (map (fun e => segment_count (snd e)) (segment_distribution r))) = 6.
Proof.
  destruct (aggregate_distribution_counts three_labels [2; 0; 2; 0; 1; 2]%nat
              [9 # 10; 3 # 5; 4 # 5; 7 # 10; 1 # 2; 1 # 3]%Q 1000)
    as [r [Hr [Hlen [Hkeys Hsum]]]].
  - discriminate.
  - intros k Hk. simpl in Hk.
    destruct Hk as [<-|[<-|[<-|[<-|[<-|[<-|[]]]]]]]; eexists; reflexivity.
  - intros k k' Hk Hk'. simpl in Hk, Hk'.
    destruct Hk as [<-|[<-|[<-|[<-|[<-|[<-|[]]]]]]];
      destruct Hk' as [<-|[<-|[<-|[<-|[<-|[<-|[]]]]]]];
      intros Hl; try reflexivity; vm_compute in Hl; discriminate.
  - exists r. split; [exact Hr|]. split; [exact Hlen|]. split; [exact Hkeys|].
    rewrite Hsum.
    assert (Ht : total_heartbeats r = 6).
    { vm_compute in Hr. injection Hr as <-. reflexivity. }
    exact Ht.
Defined.

(** ** The cleaned signal *)

Lemma clean_filters (column : signal) :
  filter np_isfinite (filter (fun x => negb (np_isnan x)) column) = filter np_isfinite column.
Proof.
  induction column as [|x r IH]; [reflexivity|].
  destruct x; simpl; rewrite IH; reflexivity.
Qed.

Lemma preprocess_ecg_inv (lib : Capabilities) (ecg_signal filtered : signal) (rate : Z) :
  preprocess_ecg lib ecg_signal rate = Ok filtered ->
  band_accepted rate = true /\ filtfilt_padlen < py_len ecg_signal /\
  filtered = butter_filtfilt lib rate ecg_signal.
Proof.
  unfold preprocess_ecg, band_accepted. intros H.
  destruct (butter_band rate) as [[low_freq high_freq]|e]; [|discriminate].
  cbn [bind fst snd] in H.
  destruct (butter_accepts low_freq high_freq); [|discriminate]. cbn [negb] in H.
  destruct (Z.leb_spec (py_len ecg_signal) filtfilt_padlen); [discriminate|].
  injection H as <-. split; [reflexivity|]. split; [lia | reflexivity].
Qed.

(** Samples that are NaN or infinite play no part in the diagnosis: the
    result for a column is the result for its finite samples.  A column
    without a finite sample is rejected before the pipeline starts.  And a
    successful response counts the finite samples, more than the filter's
    pad length of 27, and reports at least one heartbeat. *)
Theorem process_ecg_file_uses_finite_samples (lib : Capabilities)
  (model_predict : list (list sample) -> result (list (list Q))) (scaler : StandardScaler)
  (class_mapping : list (nat * string)) (column : signal) :
  process_ecg_file lib model_predict scaler class_mapping column
    = process_ecg_file lib model_predict scaler class_mapping (filter np_isfinite column) /\
  (filter np_isfinite column = [] ->
   process_ecg_file lib model_predict scaler class_mapping column
     = Raise (ValueError "ECG signal contains no valid data after cleaning")) /\
  (forall r,
     process_ecg_file lib model_predict scaler class_mapping column = Ok r ->
     continuous_samples r = py_len (filter np_isfinite column) /\
     filtfilt_padlen < continuous_samples r /\
     1 <= total_heartbeats r /\
     preprocessing_success r = true).
Proof.
  split; [|split].
  - unfold process_ecg_file. rewrite !clean_filters, filter_idempotent. reflexivity.
  - intros Hnone. unfold process_ecg_file. rewrite clean_filters, Hnone. reflexivity.
  - intros r H. unfold process_ecg_file in H. rewrite clean_filters in H.
    set (clean := filter np_isfinite column) in *.
    destruct (py_len clean =? 0); [discriminate|].
    apply bind_Ok_inv in H. destruct H as [[w out] [Hseg H]].
    cbn [snd] in H. destruct (py_len out =? 0); [discriminate|].
    apply bind_Ok_inv in H. destruct H as [st [_ H]].
    apply segment_ecg_beats_inv in Hseg.
    destruct Hseg as [filtered [peaks [Hpre _]]].
    apply preprocess_ecg_inv in Hpre. destruct Hpre as [_ [Hlong _]].
    apply aggregate_inv in H. destruct H as [c [name [d [Hc [_ [_ ->]]]]]].
    cbn [continuous_samples total_heartbeats preprocessing_success].
    destruct (majority_class_max _ _ Hc) as [Hin _].
    split; [reflexivity|]. split; [assumption|]. split; [|reflexivity].
    destruct (all_predictions st); [destruct Hin | unfold py_len; simpl; lia].
Qed.

Lemma process_ecg_file_uses_finite_samples_witness :
  process_ecg_file lib_without_wfdb sign_classifier (unit_scaler 250) three_labels
    [NaN; PInf; NaN; NInf]
  = Raise (ValueError "ECG signal contains no valid data after cleaning").
Proof.
  apply (proj1 (proj2 (process_ecg_file_uses_finite_samples lib_without_wfdb sign_classifier
                         (unit_scaler 250) three_labels [NaN; PInf; NaN; NInf]))).
  reflexivity.
Defined.

(* ===================================================================== *)
(** * File names *)
(* ===================================================================== *)

Lemma py_rsplit1_no_sep (sep : ascii) (s : string) :
  str_contains sep s = false -> py_rsplit1 sep s = [s].
Proof.
  induction s as [|c r IH]; [reflexivity|].
  cbn [str_contains py_rsplit1]. intros H.
  apply orb_false_iff in H. destruct H as [Hc Hr].
  rewrite (IH Hr), Hc. reflexivity.
Qed.

Lemma py_rsplit1_last (sep : ascii) (stem ext : string) :
  str_contains sep ext = false ->
  py_rsplit1 sep (stem ++ String sep ext) = [stem; ext].
Proof.
  intros Hext. induction stem as [|c st IH].
  - cbn [String.append py_rsplit1]. rewrite (py_rsplit1_no_sep _ _ Hext).
    rewrite Ascii.eqb_refl. reflexivity.
  - cbn [String.append py_rsplit1]. rewrite IH. reflexivity.
Qed.

Lemma py_rsplit1_sep (sep : ascii) (s : string) :
  str_contains sep s = true ->
  exists stem ext,
    s = (stem ++ String sep ext)%string /\ str_contains sep ext = false /\
    py_rsplit1 sep s = [stem; ext].
Proof.
  induction s as [|c r IH]; [discriminate|].
  cbn [str_contains]. intros H.
  destruct (str_contains sep r) eqn:Hr.
  - destruct (IH eq_refl) as [stem [ext [-> [Hext Hsplit]]]].
    exists (String c stem), ext. split; [reflexivity|]. split; [assumption|].
    apply (py_rsplit1_last sep (String c stem) ext Hext).
  - rewrite orb_false_r in H. apply Ascii.eqb_eq in H. subst c.
    exists EmptyString, r. split; [reflexivity|]. split; [assumption|].
    apply (py_rsplit1_last sep EmptyString r Hr).
Qed.

Lemma str_contains_app (sep : ascii) (a b : string) :
  str_contains sep (a ++ b) = str_contains sep a || str_contains sep b.
Proof.
  induction a as [|c r IH]; [reflexivity|].
  cbn [String.append str_contains]. rewrite IH, orb_assoc. reflexivity.
Qed.

Lemma py_lower_char_not_dot (c : ascii) :
  py_lower_char c = "."%char -> c = "."%char.
Proof.
  destruct c as [[] [] [] [] [] [] [] []]; vm_compute; intros H; congruence.
Qed.

Lemma csv_has_no_dot (ext : string) :
  py_lower ext = "csv"%string -> str_contains "."%char ext = false.
Proof.
  destruct ext as [|a [|b [|c [|d r]]]]; try discriminate.
  cbn [py_lower str_contains]. intros H.
  injection H as Ha Hb Hc.
  destruct (Ascii.eqb_spec a "."%char) as [->|_]; [vm_compute in Ha; discriminate|].
  destruct (Ascii.eqb_spec b "."%char) as [->|_]; [vm_compute in Hb; discriminate|].
  destruct (Ascii.eqb_spec c "."%char) as [->|_]; [vm_compute in Hc; discriminate|].
  reflexivity.
Qed.

(** A file name is accepted exactly when it is some text, a dot, and an
    extension that reads csv once its capitals are lowered: only the text
    after the last dot counts, so [a.csv.txt] is refused and [a.b.CSV] is
    accepted, and a name without a dot is refused whatever it is. *)
Theorem allowed_file_iff_csv_extension (name : string) :
  allowed_file name = true <->
  exists stem ext, name = (stem ++ "." ++ ext)%string /\ py_lower ext = "csv"%string.
Proof.
  unfold allowed_file. split.
  - intros H. apply andb_true_iff in H. destruct H as [Hdot H].
    destruct (py_rsplit1_sep _ _ Hdot) as [stem [ext [Hname [_ Hsplit]]]].
    rewrite Hsplit in H. cbn [nth_error] in H.
    apply String.eqb_eq in H. exists stem, ext. split; assumption.
  - intros [stem [ext [-> Hext]]].
    change (stem ++ "." ++ ext)%string with (stem ++ String "."%char ext)%string.
    rewrite (py_rsplit1_last _ stem ext (csv_has_no_dot _ Hext)).
    rewrite str_contains_app. cbn [str_contains nth_error].
    rewrite Ascii.eqb_refl, orb_true_r, Hext. reflexivity.
Qed.

(* ===================================================================== *)
(** * The ECG column *)
(* ===================================================================== *)

Lemma existsb_eqb_In (name : string) (columns : list string) :
  existsb (String.eqb name) columns = true <-> In name columns.
Proof.
  rewrite existsb_exists. split.
  - intros [x [Hin Heq]]. apply String.eqb_eq in Heq. subst x. assumption.
  - intros Hin. exists name. split; [assumption | apply String.eqb_refl].
Qed.

Lemma select_column_loop_name (columns : list string) (name : string) (rest : list string) :
  str_isdigit name = false ->
  select_column_loop columns (name :: rest) =
  if existsb (String.eqb name) columns then Some name else select_column_loop columns rest.
Proof.
  intros H. cbn [select_column_loop]. rewrite H. reflexivity.
Qed.

Lemma select_column_loop_position (columns : list string) (rest : list string) :
  select_column_loop columns ("0"%string :: rest) =
  if existsb (String.eqb "0") columns then Some "0"%string
  else match columns with
       | [] => select_column_loop [] rest
       | first :: _ => Some first
       end.
Proof.
  cbn [select_column_loop].
  destruct (existsb (String.eqb "0") columns); [reflexivity|].
  destruct columns; reflexivity.
Qed.

(** The column is the first of MLII, MLI, V1, V2, Lead II, lead_II, ECG, ecg
    and 0 that names a column of the frame; when none does, it is the first
    column of the frame.  The candidate 1 is never reached, and the choice
    fails only for a frame without columns. *)
Theorem select_ecg_column_first_known_name (columns : list string) :
  select_ecg_column columns =
  match find (fun name => existsb (String.eqb name) columns) (firstn 9 possible_columns) with
  | Some name => Ok name
  | None =>
      match columns with
      | [] => Raise (no_ecg_column [])
      | first :: _ => Ok first
      end
  end.
Proof.
  unfold select_ecg_column, possible_columns.
  rewrite !select_column_loop_name by reflexivity.
  rewrite select_column_loop_position.
  cbn [firstn find].
  repeat match goal with
  | |- context [existsb (String.eqb ?n) columns] =>
      destruct (existsb (String.eqb n) columns); [reflexivity|]
  end.
  destruct columns as [|first rest]; reflexivity.
Qed.

Lemma select_column_loop_In (columns candidates : list string) (name : string) :
  select_column_loop columns candidates = Some name -> In name columns.
Proof.
  induction candidates as [|c rest IH]; [discriminate|].
  cbn [select_column_loop].
  destruct (existsb (String.eqb c) columns) eqn:Hin.
  - intros H. injection H as <-. apply existsb_eqb_In. assumption.
  - destruct (str_isdigit c); [|assumption].
    destruct (Nat.ltb (int_of_digits 0 c) (List.length columns)); [|assumption].
    apply nth_error_In.
Qed.

(** Whatever the frame, the column chosen is one of its columns, and a
    frame with at least one column always gets one: the choice raises only
    for a frame without columns, with the message that lists no available
    column. *)
Theorem select_ecg_column_total (columns : list string) :
  (forall name, select_ecg_column columns = Ok name -> In name columns) /\
  (columns <> [] -> exists name, select_ecg_column columns = Ok name) /\
  (forall e, select_ecg_column columns = Raise e ->
     columns = [] /\
     e = ValueError "No valid ECG column found. Available columns: []. Expected one of: ['MLII', 'MLI', 'V1', 'V2', 'Lead II', 'lead_II', 'ECG', 'ecg', '0', '1']").
Proof.
  assert (Hsome : columns <> [] -> exists name, select_ecg_column columns = Ok name).
  { intros Hne. unfold select_ecg_column, possible_columns.
    rewrite !select_column_loop_name by reflexivity.
    rewrite select_column_loop_position.
    repeat match goal with
    | |- context [existsb (String.eqb ?n) columns] =>
        destruct (existsb (String.eqb n) columns); [eexists; reflexivity|]
    end.
    destruct columns as [|first rest]; [contradiction | eexists; reflexivity]. }
  split; [|split; [exact Hsome|]].
  - intros name H. unfold select_ecg_column in H.
    destruct (select_column_loop columns possible_columns) eqn:Hloop; [|discriminate].
    injection H as <-. apply (select_column_loop_In _ _ _ Hloop).
  - intros e H. destruct columns as [|first rest].
    + split; [reflexivity|]. vm_compute in H. injection H as <-. reflexivity.
    + destruct Hsome as [name Hname]; [discriminate|]. congruence.
Qed.

Lemma select_ecg_column_total_witness :
  exists name, select_ecg_column ["time"; "signal"]%string = Ok name.
Proof.
  apply (proj1 (proj2 (select_ecg_column_total ["time"; "signal"]%string))).
  discriminate.
Defined.

(* ===================================================================== *)
(** * Temporary files *)
(* ===================================================================== *)

Lemma os_path_exists_In (filepath : string) (fs : file_system) :
  os_path_exists filepath fs = true <-> In filepath (existing_files fs).
Proof. apply existsb_eqb_In. Qed.

Lemma os_remove_gone (filepath : string) (fs : file_system) :
  os_path_exists filepath (os_remove filepath fs) = false.
Proof.
  destruct (os_path_exists filepath (os_remove filepath fs)) eqn:H; [|reflexivity].
  apply os_path_exists_In in H. cbn [os_remove existing_files] in H.
  apply filter_In in H. destruct H as [_ H].
  rewrite String.eqb_refl in H. discriminate.
Qed.

Lemma os_remove_others (filepath p : string) (fs : file_system) :
  In p (existing_files (os_remove filepath fs)) <->
  In p (existing_files fs) /\ p <> filepath.
Proof.
  cbn [os_remove existing_files]. rewrite filter_In.
  destruct (String.eqb_spec p filepath) as [->|Hne]; cbn [negb].
  - split; [intros [_ H]; discriminate | intros [_ H]; contradiction].
  - split; intros [H _]; split; auto.
Qed.

Lemma os_remove_absent (filepath : string) (fs : file_system) :
  ~ In filepath (existing_files fs) ->
  existing_files (os_remove filepath fs) = existing_files fs.
Proof.
  intros Hnot. cbn [os_remove existing_files].
  apply filter_all. intros p Hin.
  destruct (String.eqb_spec p filepath) as [->|_]; [contradiction | reflexivity].
Qed.

(** What the loop of [safe_file_cleanup] does from attempt [attempt] on, with
    [remaining] attempts left out of [max_retries]. *)
Lemma cleanup_loop_inv (remove_raises : nat -> bool) (filepath : string) (max_retries : nat) :
  forall (remaining attempt : nat) (fs fs' : file_system) (ok : bool),
    (attempt + remaining = max_retries)%nat ->
    cleanup_loop remove_raises filepath max_retries remaining attempt fs = (ok, fs') ->
    (ok = true -> os_path_exists filepath fs' = false) /\
    (existing_files fs' = existing_files fs \/
     existing_files fs' = existing_files (os_remove filepath fs)) /\
    (ok = false -> existing_files fs' = existing_files fs) /\
    (sleeps fs <= sleeps fs' <= sleeps fs + (remaining - 1))%nat /\
    (ok = false ->
       remaining = 0%nat \/
       (os_path_exists filepath fs = true /\
        (sleeps fs' = sleeps fs + (remaining - 1))%nat /\
        forall j, (attempt <= j < max_retries)%nat -> remove_raises j = true)).
Proof.
  induction remaining as [|rest IH]; intros attempt fs fs' ok Hsum H.
  - cbn [cleanup_loop] in H. injection H as <- <-.
    split; [discriminate|]. split; [left; reflexivity|]. split; [reflexivity|].
    split; [lia|]. intros _. left. reflexivity.
  - cbn [cleanup_loop] in H.
    destruct (os_path_exists filepath fs) eqn:Hex.
    + destruct (remove_raises attempt) eqn:Hraise.
      * destruct (Nat.ltb_spec attempt (max_retries - 1)) as [Hlt|Hge].
        -- apply IH in H; [|lia].
           destruct H as [Hgone [Hfiles [Hkept [Hsleeps Hfalse]]]].
           cbn [time_sleep existing_files sleeps os_remove] in *.
           split; [assumption|]. split; [assumption|]. split; [assumption|].
           split; [lia|]. intros Hok. right. split; [reflexivity|].
           destruct (Hfalse Hok) as [Hzero | [_ [Hs Hall]]]; [lia|].
           split; [lia|]. intros j Hj.
           destruct (Nat.eq_dec j attempt) as [->|Hne]; [assumption | apply Hall; lia].
        -- injection H as <- <-.
           split; [discriminate|]. split; [left; reflexivity|]. split; [reflexivity|].
           split; [lia|]. intros _. right. split; [reflexivity|]. split; [lia|].
           intros j Hj. assert (j = attempt) by lia. subst j. assumption.
      * injection H as <- <-.
        split; [intros _; apply os_remove_gone|].
        split; [right; reflexivity|].
        split; [discriminate|]. split; [cbn [os_remove sleeps]; lia|]. discriminate.
    + injection H as <- <-.
      split; [intros _; assumption|]. split; [left; reflexivity|]. split; [reflexivity|].
      split; [lia|]. discriminate.
Qed.

Lemma cleanup_loop_first_success (remove_raises : nat -> bool) (filepath : string)
  (max_retries k : nat) :
  remove_raises k = false ->
  forall (remaining attempt : nat) (fs : file_system),
    (attempt + remaining = max_retries)%nat ->
    (attempt <= k < max_retries)%nat ->
    (forall j, (attempt <= j < k)%nat -> remove_raises j = true) ->
    os_path_exists filepath fs = true ->
    cleanup_loop remove_raises filepath max_retries remaining attempt fs =
    (true, {| existing_files := existing_files (os_remove filepath fs);
              sleeps := sleeps fs + (k - attempt) |}).
Proof.
  intros Hk. induction remaining as [|rest IH]; intros attempt fs Hsum Hrange Hbefore Hex.
  - lia.
  - cbn [cleanup_loop]. rewrite Hex.
    destruct (Nat.eq_dec attempt k) as [->|Hne].
    + rewrite Hk. rewrite Nat.sub_diag, Nat.add_0_r. reflexivity.
    + rewrite (Hbefore attempt) by lia.
      destruct (Nat.ltb_spec attempt (max_retries - 1)) as [_|Hge]; [|lia].
      rewrite (IH (S attempt) (time_sleep fs)); try lia.
      * cbn [time_sleep os_remove existing_files sleeps]. do 2 f_equal. lia.
      * intros j Hj. apply Hbefore. lia.
      * exact Hex.
Qed.

(** When the file exists and [os.remove] first succeeds at attempt [k],
    after raising at every earlier attempt, the cleanup returns True, the
    file is gone, and the process has slept exactly [k] times, once after
    each failed attempt. *)
Theorem safe_file_cleanup_retries_until_removed (remove_raises : nat -> bool)
  (filepath : string) (max_retries k : nat) (fs : file_system) :
  os_path_exists filepath fs = true ->
  (k < max_retries)%nat ->
  remove_raises k = false ->
  (forall j, (j < k)%nat -> remove_raises j = true) ->
  safe_file_cleanup remove_raises filepath max_retries fs =
  (true, {| existing_files := filter (fun p => negb (String.eqb p filepath)) (existing_files fs);
            sleeps := sleeps fs + k |}).
Proof.
  intros Hex Hk Hok Hbefore. unfold safe_file_cleanup.
  rewrite (cleanup_loop_first_success remove_raises filepath max_retries k Hok
             max_retries 0 fs); try lia; try assumption.
  - rewrite Nat.sub_0_r. reflexivity.
  - intros j Hj. apply Hbefore. lia.
Qed.

Lemma safe_file_cleanup_retries_until_removed_witness :
  safe_file_cleanup (fun attempt => Nat.ltb attempt 2) "/tmp/ecg_a.csv_1.csv" 5
    {| existing_files := ["/tmp/other.csv"; "/tmp/ecg_a.csv_1.csv"]%string; sleeps := 0 |}
  = (true, {| existing_files := ["/tmp/other.csv"]%string; sleeps := 2 |}).
Proof.
  apply (safe_file_cleanup_retries_until_removed (fun attempt => Nat.ltb attempt 2)
           "/tmp/ecg_a.csv_1.csv" 5 2
           {| existing_files := ["/tmp/other.csv"; "/tmp/ecg_a.csv_1.csv"]%string;
              sleeps := 0 |}).
  - reflexivity.
  - lia.
  - reflexivity.
  - intros j Hj. apply Nat.ltb_lt. exact Hj.
Defined.

(** The cleanup returns False in two cases only: no attempt is allowed
    ([max_retries] is 0, and then even a file that does not exist is
    reported as not cleaned), or the file exists and [os.remove] raises at
    every one of the [max_retries] attempts.  In both cases no file is
    touched, and the process has slept [max_retries - 1] times when an
    attempt was made. *)
Theorem safe_file_cleanup_false_iff (remove_raises : nat -> bool) (filepath : string)
  (max_retries : nat) (fs : file_system) :
  (fst (safe_file_cleanup remove_raises filepath max_retries fs) = false <->
   max_retries = 0%nat \/
   (os_path_exists filepath fs = true /\
    forall j, (j < max_retries)%nat -> remove_raises j = true)) /\
  (fst (safe_file_cleanup remove_raises filepath max_retries fs) = false ->
   snd (safe_file_cleanup remove_raises filepath max_retries fs) =
   {| existing_files := existing_files fs; sleeps := sleeps fs + (max_retries - 1) |}).
Proof.
  unfold safe_file_cleanup.
  destruct (cleanup_loop remove_raises filepath max_retries max_retries 0 fs)
    as [ok fs'] eqn:Hrun.
  pose proof (cleanup_loop_inv remove_raises filepath max_retries max_retries 0 fs fs' ok
                (Nat.add_0_l _) Hrun) as [Hgone [_ [Hkept [Hsleeps Hfalse]]]].
  cbn [fst snd]. split; [split|].
  - intros Hok. destruct (Hfalse Hok) as [Hzero | [Hex [_ Hall]]]; [left; assumption|].
    right. split; [assumption|]. intros j Hj. apply Hall. lia.
  - intros [Hzero | [Hex Hall]].
    + subst max_retries. cbn [cleanup_loop] in Hrun. congruence.
    + destruct ok; [|reflexivity]. exfalso.
      destruct max_retries as [|m].
      * cbn [cleanup_loop] in Hrun. discriminate.
      * assert (Hloop : forall remaining attempt fs0,
                  (attempt + remaining = S m)%nat ->
                  os_path_exists filepath fs0 = true ->
                  fst (cleanup_loop remove_raises filepath (S m) remaining attempt fs0) = false).
        { induction remaining as [|rest IH]; intros attempt fs0 Hsum Hex0; [reflexivity|].
          cbn [cleanup_loop]. rewrite Hex0, (Hall attempt) by lia.
          destruct (Nat.ltb attempt (S m - 1)); [|reflexivity].
          apply IH; [lia | exact Hex0]. }
        specialize (Hloop (S m) 0%nat fs (Nat.add_0_l _) Hex).
        rewrite Hrun in Hloop. discriminate.
  - intros Hok. specialize (Hkept Hok).
    destruct (Hfalse Hok) as [Hzero | [_ [Hs _]]].
    + subst max_retries. cbn [cleanup_loop] in Hrun. injection Hrun as _ <-.
      destruct fs as [files n]. cbn [existing_files sleeps]. f_equal. lia.
    + destruct fs' as [files' n']. cbn [existing_files sleeps] in *. subst. reflexivity.
Qed.

Lemma safe_file_cleanup_false_iff_witness :
  snd (safe_file_cleanup (fun _ => true) "/tmp/ecg_a.csv_1.csv" 5
         {| existing_files := ["/tmp/ecg_a.csv_1.csv"]%string; sleeps := 0 |})
  = {| existing_files := ["/tmp/ecg_a.csv_1.csv"]%string; sleeps := 4 |}.
Proof.
  apply (proj2 (safe_file_cleanup_false_iff (fun _ => true) "/tmp/ecg_a.csv_1.csv" 5
                  {| existing_files := ["/tmp/ecg_a.csv_1.csv"]%string; sleeps := 0 |})).
  reflexivity.
Defined.

(** Whatever [os.remove] does: when the cleanup returns True the file no
    longer exists; every other file is left as it was and no file appears;
    the process sleeps at most [max_retries - 1] times; and a file that does
    not exist costs nothing when at least one attempt is allowed: True, no
    change, no sleep. *)
Theorem safe_file_cleanup_effects (remove_raises : nat -> bool) (filepath : string)
  (max_retries : nat) (fs : file_system) :
  let run := safe_file_cleanup remove_raises filepath max_retries fs in
  (fst run = true -> os_path_exists filepath (snd run) = false) /\
  (forall p, p <> filepath ->
     (In p (existing_files (snd run)) <-> In p (existing_files fs))) /\
  (forall p, In p (existing_files (snd run)) -> In p (existing_files fs)) /\
  (sleeps fs <= sleeps (snd run) <= sleeps fs + (max_retries - 1))%nat /\
  (os_path_exists filepath fs = false -> (1 <= max_retries)%nat -> run = (true, fs)).
Proof.
  unfold safe_file_cleanup. cbv zeta.
  destruct (cleanup_loop remove_raises filepath max_retries max_retries 0 fs)
    as [ok fs'] eqn:Hrun.
  pose proof (cleanup_loop_inv remove_raises filepath max_retries max_retries 0 fs fs' ok
                (Nat.add_0_l _) Hrun) as [Hgone [Hfiles [_ [Hsleeps _]]]].
  cbn [fst snd].
  split; [assumption|]. split; [|split; [|split; [assumption|]]].
  - intros p Hp. destruct Hfiles as [-> | ->]; [reflexivity|].
    rewrite os_remove_others. tauto.
  - intros p. destruct Hfiles as [-> | ->]; [auto|].
    rewrite os_remove_others. tauto.
  - intros Hex Hone. destruct max_retries as [|m]; [lia|].
    cbn [cleanup_loop] in Hrun. rewrite Hex in Hrun. congruence.
Qed.

Lemma safe_file_cleanup_effects_witness :
  safe_file_cleanup (fun _ => true) "/tmp/ecg_a.csv_1.csv" 5
    {| existing_files := ["/tmp/other.csv"]%string; sleeps := 0 |}
  = (true, {| existing_files := ["/tmp/other.csv"]%string; sleeps := 0 |}).
Proof.
  apply (proj2 (proj2 (proj2 (proj2
           (safe_file_cleanup_effects (fun _ => true) "/tmp/ecg_a.csv_1.csv" 5
              {| existing_files := ["/tmp/other.csv"]%string; sleeps := 0 |}))))).
  - reflexivity.
  - lia.
Defined.

(* ===================================================================== *)
(** * Requests *)
(* ===================================================================== *)

Lemma process_ecg_file_Ok_facts (lib : Capabilities)
  (model_predict : list (list sample) -> result (list (list Q))) (scaler : StandardScaler)
  (class_mapping : list (nat * string)) (column : signal) (r : diagnosis) :
  process_ecg_file lib model_predict scaler class_mapping column = Ok r ->
  preprocessing_success r = true /\ 1 <= total_heartbeats r /\
  filtfilt_padlen < continuous_samples r.
Proof.
  intros H. unfold process_ecg_file in H. rewrite clean_filters in H.
  set (clean := filter np_isfinite column) in *.
  destruct (py_len clean =? 0); [discriminate|].
  apply bind_Ok_inv in H. destruct H as [[w out] [Hseg H]].
  cbn [snd] in H. destruct (py_len out =? 0); [discriminate|].
  apply bind_Ok_inv in H. destruct H as [st [_ H]].
  apply segment_ecg_beats_inv in Hseg.
  destruct Hseg as [filtered [peaks [Hpre _]]].
  apply preprocess_ecg_inv in Hpre. destruct Hpre as [_ [Hlong _]].
  apply aggregate_inv in H. destruct H as [c [name [d [Hc [_ [_ ->]]]]]].
  cbn [continuous_samples total_heartbeats preprocessing_success].
  destruct (majority_class_max _ _ Hc) as [Hin _].
  split; [reflexivity|]. split; [|assumption].
  destruct (all_predictions st); [destruct Hin | unfold py_len; simpl; lia].
Qed.

Lemma process_ecg_file_Ok_samples (lib : Capabilities)
  (model_predict : list (list sample) -> result (list (list Q))) (scaler : StandardScaler)
  (class_mapping : list (nat * string)) (column : signal) (r : diagnosis) :
  process_ecg_file lib model_predict scaler class_mapping column = Ok r ->
  continuous_samples r = py_len (filter np_isfinite column).
Proof.
  intros H. unfold process_ecg_file in H. rewrite clean_filters in H.
  destruct (py_len (filter np_isfinite column) =? 0); [discriminate|].
  apply bind_Ok_inv in H. destruct H as [[w out] [_ H]].
  cbn [snd] in H. destruct (py_len out =? 0); [discriminate|].
  apply bind_Ok_inv in H. destruct H as [st [_ H]].
  apply aggregate_inv in H. destruct H as [c [name [d [_ [_ [_ ->]]]]]].
  reflexivity.
Qed.

Lemma allowed_file_empty : allowed_file "" = false.
Proof. reflexivity. Qed.

Section ServerProperties.

Context {C : Type}.
Context (lib : Capabilities).
Variable model_predict : list (list sample) -> result (list (list Q)).
Variable scaler : StandardScaler.
Variable class_mapping : list (nat * string).
Variable read_csv : C -> outcome dataframe.
Variable secure_filename : string -> string.
Variable mkstemp : string -> outcome string.
Variable save_upload : upload C -> outcome unit.
Variable remove_raises : string -> nat -> bool.

Let process := process_ecg_file_from_csv lib model_predict scaler class_mapping read_csv.
Let handle := save_and_process lib model_predict scaler class_mapping read_csv save_upload.
Let predict := predict_ecg lib model_predict scaler class_mapping read_csv secure_filename
                 mkstemp save_upload remove_raises.
Let batch_file := predict_batch_file lib model_predict scaler class_mapping read_csv
                    secure_filename mkstemp save_upload remove_raises.
Let batch_loop := predict_batch_loop lib model_predict scaler class_mapping read_csv
                    secure_filename mkstemp save_upload remove_raises.
Let predict_batch := predict_ecg_batch lib model_predict scaler class_mapping read_csv
                       secure_filename mkstemp save_upload remove_raises.

Lemma process_ecg_file_from_csv_inv (uploaded : C) (d : diagnosis) :
  process uploaded = Returned d ->
  exists df ecg_column continuous_ecg,
    read_csv uploaded = Returned df /\
    select_ecg_column (df_columns df) = Ok ecg_column /\
    df_values df ecg_column = Returned continuous_ecg /\
    process_ecg_file lib model_predict scaler class_mapping continuous_ecg = Ok d.
Proof.
  unfold process, process_ecg_file_from_csv. intros H.
  destruct (read_csv uploaded) as [df|] eqn:Hdf; [|discriminate]. cbn [outcome_bind] in H.
  destruct (select_ecg_column (df_columns df)) as [col|] eqn:Hcol; [|discriminate].
  cbn [of_result outcome_bind] in H.
  destruct (df_values df col) as [x|] eqn:Hx; [|discriminate]. cbn [outcome_bind] in H.
  destruct (process_ecg_file lib model_predict scaler class_mapping x) as [r|] eqn:Hr;
    [|discriminate].
  cbn [of_result] in H. injection H as <-.
  exists df, col, x. auto.
Qed.

Lemma save_and_process_facts (file : upload C) (d : diagnosis) :
  handle file = Returned d ->
  preprocessing_success d = true /\ 1 <= total_heartbeats d /\
  filtfilt_padlen < continuous_samples d.
Proof.
  unfold handle, save_and_process. intros H.
  destruct (save_upload file); [|discriminate]. cbn [outcome_bind] in H.
  apply process_ecg_file_from_csv_inv in H.
  destruct H as [df [col [x [_ [_ [_ H]]]]]].
  apply (process_ecg_file_Ok_facts _ _ _ _ _ _ H).
Qed.

(** A diagnosis is only ever computed from a column of the frame: it is
    returned exactly when the frame is read, the column search finds a
    column, that column converts to floats, and the pipeline accepts it,
    and it then reports the number of finite values of that column, more
    than 27.  A frame without columns is rejected with the ValueError of the
    column search, and an exception of [read_csv] leaves as it is. *)
Theorem process_ecg_file_reads_selected_column (uploaded : C) :
  (forall d, process uploaded = Returned d <->
     exists df ecg_column continuous_ecg,
       read_csv uploaded = Returned df /\
       select_ecg_column (df_columns df) = Ok ecg_column /\
       In ecg_column (df_columns df) /\
       df_values df ecg_column = Returned continuous_ecg /\
       process_ecg_file lib model_predict scaler class_mapping continuous_ecg = Ok d /\
       continuous_samples d = py_len (filter np_isfinite continuous_ecg) /\
       filtfilt_padlen < continuous_samples d) /\
  (forall df, read_csv uploaded = Returned df -> df_columns df = [] ->
     process uploaded = Threw (PipelineError (no_ecg_column []))) /\
  (forall r, read_csv uploaded = Threw r -> process uploaded = Threw r).
Proof.
  split; [|split].
  - intros d. split.
    + intros H. apply process_ecg_file_from_csv_inv in H.
      destruct H as [df [col [x [Hdf [Hcol [Hx Hd]]]]]].
      exists df, col, x. split; [assumption|]. split; [assumption|].
      split; [|split; [assumption|split; [assumption|split]]].
      * unfold select_ecg_column in Hcol.
        destruct (select_column_loop (df_columns df) possible_columns) eqn:Hloop;
          [|discriminate].
        injection Hcol as <-. apply (select_column_loop_In _ _ _ Hloop).
      * apply (process_ecg_file_Ok_samples _ _ _ _ _ _ Hd).
      * apply (process_ecg_file_Ok_facts _ _ _ _ _ _ Hd).
    + intros [df [col [x [Hdf [Hcol [_ [Hx [Hd _]]]]]]]].
      unfold process, process_ecg_file_from_csv.
      rewrite Hdf. cbn [outcome_bind]. rewrite Hcol. cbn [of_result outcome_bind].
      rewrite Hx. cbn [outcome_bind]. rewrite Hd. reflexivity.
  - intros df Hdf Hnone. unfold process, process_ecg_file_from_csv.
    rewrite Hdf. cbn [outcome_bind]. rewrite Hnone. reflexivity.
  - intros r Hr. unfold process, process_ecg_file_from_csv. rewrite Hr. reflexivity.
Qed.

(** [/predict] answers 200, 400 or 500.  It answers 400 exactly when the
    request has no file under [file] or the name of that file is not an
    allowed one (the empty name included), and then no temporary file is
    created.  It answers with a diagnosis exactly when the name is allowed,
    the temporary file is created, and saving and processing succeed; the
    status is then 200 and the diagnosis reports success, at least one
    heartbeat and more than 27 samples.  Every failure after the checks is
    a 500 that carries the exception. *)
Theorem predict_ecg_status_codes (request_files : list (string * upload C))
  (fs : file_system) :
  let status := snd (fst (predict request_files fs)) in
  let answer := fst (fst (predict request_files fs)) in
  (status = 200 \/ status = 400 \/ status = 500) /\
  (status = 400 <->
   forall file, dict_get request_files "file" = Some file ->
                allowed_file (filename file) = false) /\
  (status = 400 -> snd (predict request_files fs) = fs) /\
  (forall d, answer = DiagnosisBody d <->
     exists file path,
       dict_get request_files "file" = Some file /\
       allowed_file (filename file) = true /\
       mkstemp ("ecg_" ++ secure_filename (filename file) ++ "_") = Returned path /\
       handle file = Returned d) /\
  (forall d, answer = DiagnosisBody d ->
     status = 200 /\ preprocessing_success d = true /\ 1 <= total_heartbeats d /\
     filtfilt_padlen < continuous_samples d) /\
  (status = 500 -> exists e, answer = ProcessingFailed e).
Proof.
  cbv zeta. unfold predict, predict_ecg.
  destruct (dict_get request_files "file") as [file|] eqn:Hfile.
  2:{ cbn [fst snd]. split; [auto|]. split; [split; [discriminate | reflexivity]|].
      split; [reflexivity|]. split; [|split; [discriminate | discriminate]].
      intros d. split; [discriminate|]. intros [f [p [H _]]]. discriminate. }
  destruct (String.eqb_spec (filename file) "") as [Hempty|Hname].
  { cbn [fst snd]. split; [auto|].
    split; [split; [|reflexivity]|].
    { intros _ f Hf. injection Hf as <-. rewrite Hempty. apply allowed_file_empty. }
    split; [reflexivity|]. split; [|split; [discriminate | discriminate]].
    intros d. split; [discriminate|]. intros [f [p [Hf [Hal _]]]].
    injection Hf as <-. rewrite Hempty, allowed_file_empty in Hal. discriminate. }
  destruct (allowed_file (filename file)) eqn:Hal; cbn [negb].
  2:{ cbn [fst snd]. split; [auto|].
      split; [split; [|reflexivity]|].
      { intros _ f Hf. injection Hf as <-. assumption. }
      split; [reflexivity|]. split; [|split; [discriminate | discriminate]].
      intros d. split; [discriminate|]. intros [f [p [Hf [Hal' _]]]].
      injection Hf as <-. congruence. }
  assert (Hnot400 : ~ (forall f, Some file = Some f -> allowed_file (filename f) = false)).
  { intros H. specialize (H file eq_refl). congruence. }
  destruct (mkstemp ("ecg_" ++ secure_filename (filename file) ++ "_")) as [path|e] eqn:Hmk.
  2:{ cbn [fst snd]. split; [auto|].
      split; [split; [discriminate | intros H; contradiction]|].
      split; [discriminate|]. split; [|split; [discriminate|]].
      - intros d. split; [discriminate|]. intros [f [p [Hf [_ [Hp _]]]]].
        injection Hf as <-. congruence.
      - intros _. exists e. reflexivity. }
  fold (handle file).
  destruct (handle file) as [d0|e] eqn:Hrun; cbn [fst snd].
  - split; [auto|]. split; [split; [discriminate | intros H; contradiction]|].
    split; [discriminate|]. split; [|split; [|discriminate]].
    + intros d. split.
      * intros H. injection H as <-. exists file, path. auto.
      * intros [f [p [Hf [_ [_ Hd]]]]]. injection Hf as <-. congruence.
    + intros d H. injection H as <-. split; [reflexivity|].
      apply (save_and_process_facts file d0 Hrun).
  - split; [auto|]. split; [split; [discriminate | intros H; contradiction]|].
    split; [discriminate|]. split; [|split; [discriminate|]].
    + intros d. split; [discriminate|].
      intros [f [p [Hf [_ [_ Hd]]]]]. injection Hf as <-. congruence.
    + intros _. exists e. reflexivity.
Qed.

Lemma temp_file_cleanup (path : string) (fs : file_system) :
  let after :=
    if String.eqb path ""
    then create_file path fs
    else snd (safe_file_cleanup (remove_raises path) path 5 (create_file path fs)) in
  (sleeps fs <= sleeps after <= sleeps fs + 4)%nat /\
  (forall p, In p (existing_files after) -> In p (existing_files fs) \/ p = path) /\
  (forall p, In p (existing_files fs) -> p <> path -> In p (existing_files after)) /\
  (removable remove_raises -> path <> ""%string ->
   existing_files after = existing_files (os_remove path fs)).
Proof.
  cbv zeta. destruct (String.eqb_spec path "") as [Hempty|Hnamed].
  { cbn [create_file existing_files sleeps]. split; [lia|]. split; [|split].
    - intros p [<- | Hp]; auto.
    - intros p Hp _. right. exact Hp.
    - intros _ Hne. contradiction. }
  unfold safe_file_cleanup.
  destruct (cleanup_loop (remove_raises path) path 5 5 0 (create_file path fs))
    as [ok fs'] eqn:Hrun.
  pose proof (cleanup_loop_inv (remove_raises path) path 5 5 0 _ fs' ok eq_refl Hrun)
    as [Hgone [Hfiles [_ [Hsleeps Hfalse]]]].
  assert (Hrm : existing_files (os_remove path (create_file path fs))
                = existing_files (os_remove path fs)).
  { cbn [os_remove create_file existing_files filter]. rewrite String.eqb_refl. reflexivity. }
  rewrite Hrm in Hfiles. cbn [fst snd create_file sleeps existing_files] in *.
  split; [lia|]. split; [|split].
  - intros p Hp. destruct Hfiles as [Heq | Heq]; rewrite Heq in Hp.
    + destruct Hp as [<- | Hp]; auto.
    + apply os_remove_others in Hp. left. tauto.
  - intros p Hp Hne. destruct Hfiles as [-> | ->].
    + right. assumption.
    + apply os_remove_others. auto.
  - intros Hremovable _. destruct ok.
    + specialize (Hgone eq_refl). destruct Hfiles as [Heq | Heq]; [|assumption].
      exfalso. assert (Hin : os_path_exists path fs' = true).
      { apply os_path_exists_In. rewrite Heq. left. reflexivity. }
      congruence.
    + exfalso. destruct (Hfalse eq_refl) as [Hzero | [_ [_ Hall]]]; [discriminate|].
      destruct (Hremovable path) as [k [Hk Hok]].
      rewrite (Hall k) in Hok by lia. discriminate.
Qed.

(** [/predict] never leaves more than it found when [os.remove] succeeds
    within five attempts and the temporary path is not the empty string:
    whatever the answer, 200 or 500, no file exists afterwards that did not
    exist before, and when [mkstemp] returns fresh paths the files are
    exactly those of before.  In every case the files that existed before
    are still there when the paths are fresh, and the request sleeps at most
    four times. *)
Theorem predict_ecg_cleans_up (request_files : list (string * upload C))
  (fs : file_system) :
  let after := snd (predict request_files fs) in
  (sleeps fs <= sleeps after <= sleeps fs + 4)%nat /\
  (removable remove_raises -> named_paths mkstemp ->
   forall p, In p (existing_files after) -> In p (existing_files fs)) /\
  (fresh_paths mkstemp fs ->
   forall p, In p (existing_files fs) -> In p (existing_files after)) /\
  (removable remove_raises -> named_paths mkstemp -> fresh_paths mkstemp fs ->
   existing_files after = existing_files fs).
Proof.
  cbv zeta. unfold predict, predict_ecg.
  destruct (dict_get request_files "file") as [file|];
    [|cbn [snd]; split; [lia | auto]].
  destruct (String.eqb (filename file) ""); [cbn [snd]; split; [lia | auto]|].
  destruct (negb (allowed_file (filename file))); [cbn [snd]; split; [lia | auto]|].
  destruct (mkstemp ("ecg_" ++ secure_filename (filename file) ++ "_")) as [path|e] eqn:Hmk;
    [|cbn [snd]; split; [lia | auto]].
  cbn [snd].
  destruct (temp_file_cleanup path fs) as [Hsleeps [Hsub [Hsup Hrm]]].
  split; [assumption|]. split; [|split].
  - intros Hremovable Hnamed p Hp. rewrite (Hrm Hremovable (Hnamed _ _ Hmk)) in Hp.
    apply os_remove_others in Hp. tauto.
  - intros Hfresh p Hp. apply Hsup; [assumption|].
    intros ->. apply (Hfresh _ _ Hmk Hp).
  - intros Hremovable Hnamed Hfresh. rewrite (Hrm Hremovable (Hnamed _ _ Hmk)).
    apply os_remove_absent. apply (Hfresh _ _ Hmk).
Qed.

Lemma predict_batch_file_entry (file_item : upload C) (fs fs0 : file_system) :
  fst (batch_file file_item fs) = fst (batch_file file_item fs0) /\
  (named file_item = false -> fst (batch_file file_item fs) = None) /\
  (named file_item = true -> exists entry, fst (batch_file file_item fs) = Some entry).
Proof.
  unfold batch_file, predict_batch_file, named.
  destruct (negb (String.eqb (filename file_item) "")); cbn [andb].
  - destruct (allowed_file (filename file_item)).
    + destruct (mkstemp ("ecg_batch_" ++ secure_filename (filename file_item) ++ "_"));
        cbn [fst]; (split; [reflexivity|]); (split; [discriminate|]); intros _; eexists;
        reflexivity.
    + cbn [fst]. split; [reflexivity|]. split; [discriminate|]. intros _. eexists.
      reflexivity.
  - cbn [fst]. split; [reflexivity|]. split; [reflexivity | discriminate].
Qed.

Lemma predict_batch_file_fs (file_item : upload C) (fs : file_system) :
  let after := snd (batch_file file_item fs) in
  (sleeps fs <= sleeps after <= sleeps fs + 4)%nat /\
  (removable remove_raises -> named_paths mkstemp ->
   forall p, In p (existing_files after) -> In p (existing_files fs)) /\
  (removable remove_raises -> named_paths mkstemp -> fresh_paths mkstemp fs ->
   existing_files after = existing_files fs).
Proof.
  cbv zeta. unfold batch_file, predict_batch_file.
  destruct (negb (String.eqb (filename file_item) "") && allowed_file (filename file_item)).
  - destruct (mkstemp ("ecg_batch_" ++ secure_filename (filename file_item) ++ "_"))
      as [path|e] eqn:Hmk; [|cbn [snd]; split; [lia | auto]].
    cbn [snd].
    destruct (temp_file_cleanup path fs) as [Hsleeps [_ [_ Hrm]]].
    split; [assumption|]. split.
    + intros Hremovable Hnamed p Hp. rewrite (Hrm Hremovable (Hnamed _ _ Hmk)) in Hp.
      apply os_remove_others in Hp. tauto.
    + intros Hremovable Hnamed Hfresh. rewrite (Hrm Hremovable (Hnamed _ _ Hmk)).
      apply os_remove_absent. apply (Hfresh _ _ Hmk).
  - destruct (negb (String.eqb (filename file_item) "")); cbn [snd]; split; auto; lia.
Qed.

Lemma predict_batch_loop_results (files : list (upload C)) :
  forall (results : list batch_entry) (fs fs0 : file_system),
    fst (batch_loop files results fs) =
    results ++ flat_map (fun f => entries_of (fst (batch_file f fs0))) files.
Proof.
  induction files as [|f rest IH]; intros results fs fs0.
  - cbn [batch_loop predict_batch_loop flat_map fst]. unfold batch_loop.
    cbn [predict_batch_loop fst]. rewrite app_nil_r. reflexivity.
  - unfold batch_loop in *. cbn [predict_batch_loop flat_map].
    fold (batch_file f fs). rewrite (IH _ _ fs0).
    rewrite (proj1 (predict_batch_file_entry f fs fs0)).
    destruct (fst (batch_file f fs0)); cbn [entries_of].
    + rewrite <- app_assoc. reflexivity.
    + reflexivity.
Qed.

Lemma predict_batch_loop_fs (files : list (upload C)) :
  forall (results : list batch_entry) (fs : file_system),
    let after := snd (batch_loop files results fs) in
    (sleeps fs <= sleeps after <= sleeps fs + 4 * List.length files)%nat /\
    (removable remove_raises -> named_paths mkstemp ->
     forall p, In p (existing_files after) -> In p (existing_files fs)) /\
    (removable remove_raises -> named_paths mkstemp -> fresh_paths mkstemp fs ->
     existing_files after = existing_files fs).
Proof.
  induction files as [|f rest IH]; intros results fs; cbv zeta.
  - unfold batch_loop. cbn [predict_batch_loop snd List.length]. split; [lia | auto].
  - unfold batch_loop in *. cbn [predict_batch_loop List.length].
    fold (batch_file f fs).
    destruct (predict_batch_file_fs f fs) as [Hs1 [Hsub1 Heq1]].
    destruct (IH (match fst (batch_file f fs) with
                  | Some entry => results ++ [entry]
                  | None => results
                  end) (snd (batch_file f fs))) as [Hs2 [Hsub2 Heq2]].
    split; [lia|]. split.
    + intros Hremovable Hnamed p Hp. apply (Hsub1 Hremovable Hnamed).
      apply (Hsub2 Hremovable Hnamed). exact Hp.
    + intros Hremovable Hnamed Hfresh.
      rewrite Heq2; [apply (Heq1 Hremovable Hnamed Hfresh) | assumption | assumption |].
      intros prefix path Hmk. rewrite (Heq1 Hremovable Hnamed Hfresh).
      apply (Hfresh _ _ Hmk).
Qed.

Lemma entries_named (files : list (upload C)) (fs0 : file_system) :
  py_len (flat_map (fun f => entries_of (fst (batch_file f fs0))) files)
  = py_len (filter named files).
Proof.
  induction files as [|f rest IH]; [reflexivity|].
  cbn [flat_map filter]. rewrite py_len_app, IH.
  destruct (predict_batch_file_entry f fs0 fs0) as [_ [Hnone Hsome]].
  destruct (named f).
  - destruct (Hsome eq_refl) as [entry ->]. cbn [entries_of].
    unfold py_len. cbn [List.length]. lia.
  - rewrite (Hnone eq_refl). reflexivity.
Qed.

Lemma entry_succeeded_is_diagnosis (files : list (upload C)) (fs0 : file_system) :
  filter entry_succeeded (flat_map (fun f => entries_of (fst (batch_file f fs0))) files)
  = filter is_diagnosis (flat_map (fun f => entries_of (fst (batch_file f fs0))) files).
Proof.
  apply filter_ext_in. intros entry Hin.
  apply in_flat_map in Hin. destruct Hin as [f [_ Hin]].
  unfold batch_file, predict_batch_file in Hin.
  destruct (negb (String.eqb (filename f) "") && allowed_file (filename f)).
  - destruct (mkstemp ("ecg_batch_" ++ secure_filename (filename f) ++ "_")).
    + cbn [fst entries_of] in Hin. destruct Hin as [<- | []].
      fold (handle f). destruct (handle f) as [d|e] eqn:Hrun; [|reflexivity].
      cbn [entry_succeeded is_diagnosis].
      apply (save_and_process_facts f d Hrun).
    + cbn [fst entries_of] in Hin. destruct Hin as [<- | []]. reflexivity.
  - destruct (negb (String.eqb (filename f) "")); cbn [fst entries_of] in Hin.
    + destruct Hin as [<- | []]. reflexivity.
    + destruct Hin.
Qed.

Lemma filter_none {A} (f : A -> bool) (l : list A) :
  (forall x, In x l -> f x = false) -> filter f l = [].
Proof.
  induction l as [|x r IH]; [reflexivity|]. intros H. cbn [filter].
  rewrite (H x (or_introl eq_refl)). apply IH. intros y Hy. apply H. right. exact Hy.
Qed.

Lemma filter_length_le_Z {A} (f : A -> bool) (l : list A) :
  py_len (filter f l) <= py_len l.
Proof.
  unfold py_len. apply inj_le. apply filter_length_le.
Qed.

(** [/predict_batch] answers 400 exactly when the request has nothing under
    [files] or every upload there has an empty name; otherwise it answers
    200 with one entry for each upload that has a name, in the order of the
    uploads, where the entry of an upload depends neither on the other
    uploads nor on the temporary files that exist.  [total_files] counts
    all uploads, the unnamed ones included, and [successful_predictions]
    counts exactly the entries that carry a diagnosis. *)
Theorem predict_ecg_batch_results (request_files : list (string * list (upload C)))
  (fs : file_system) :
  let status := snd (fst (predict_batch request_files fs)) in
  let answer := fst (fst (predict_batch request_files fs)) in
  (status = 400 \/ status = 200) /\
  (status = 400 <->
   forall files, dict_get request_files "files" = Some files ->
                 filter named files = []) /\
  (status = 400 -> snd (predict_batch request_files fs) = fs) /\
  (forall files, dict_get request_files "files" = Some files ->
     filter named files <> [] ->
     exists results successful,
       answer = BatchResults results (py_len files) successful /\
       (forall fs0, results = flat_map (fun f => entries_of (fst (batch_file f fs0))) files) /\
       py_len results = py_len (filter named files) /\
       successful = py_len (filter is_diagnosis results) /\
       0 <= successful <= py_len results /\ py_len results <= py_len files).
Proof.
  cbv zeta. unfold predict_batch, predict_ecg_batch.
  destruct (dict_get request_files "files") as [files|] eqn:Hfiles.
  2:{ cbn [fst snd]. split; [auto|]. split; [split; [discriminate | reflexivity]|].
      split; [reflexivity|]. discriminate. }
  assert (Hguard : (match files with [] => true | _ => false end
                    || forallb (fun f => String.eqb (filename f) "") files) = true
                   <-> filter named files = []).
  { destruct files as [|f0 rest0]; [cbn; tauto|]. cbn [orb].
    rewrite forallb_forall. split.
    - intros Hall. apply filter_none. intros f Hin. unfold named.
      rewrite (Hall f Hin). reflexivity.
    - intros Hnil f Hin.
      assert (Hf : named f = false).
      { destruct (named f) eqn:Hn; [|reflexivity].
        assert (Hin' : In f (filter named (f0 :: rest0))) by (apply filter_In; auto).
        rewrite Hnil in Hin'. destruct Hin'. }
      unfold named in Hf. apply negb_false_iff in Hf. exact Hf. }
  destruct (match files with [] => true | _ => false end
            || forallb (fun f => String.eqb (filename f) "") files) eqn:Hg.
  - cbn [fst snd]. split; [auto|]. split.
    + split; [|reflexivity]. intros _ fl Hfl. injection Hfl as <-. apply Hguard. reflexivity.
    + split; [reflexivity|]. intros fl Hfl Hne. injection Hfl as <-.
      exfalso. apply Hne. apply Hguard. reflexivity.
  - cbn [fst snd]. split; [auto|]. split.
    + split; [discriminate|]. intros H. specialize (H files eq_refl).
      apply Hguard in H. discriminate.
    + split; [discriminate|]. intros fl Hfl Hne. injection Hfl as <-.
      fold (batch_loop files [] fs).
      eexists. eexists. split; [reflexivity|].
      pose proof (predict_batch_loop_results files [] fs) as Hres. cbn [app] in Hres.
      split; [exact Hres|].
      rewrite (Hres fs). split; [apply entries_named|].
      split; [rewrite entry_succeeded_is_diagnosis; reflexivity|].
      rewrite entry_succeeded_is_diagnosis. split.
      * split; [apply py_len_nonneg | apply filter_length_le_Z].
      * rewrite entries_named. apply filter_length_le_Z.
Qed.

(** [/predict_batch] sleeps at most four times for each upload.  When
    [os.remove] succeeds within five attempts and no temporary path is the
    empty string, the request leaves no file that did not exist before,
    whatever happened to each upload; with fresh temporary paths the files
    after the request are exactly those of before. *)
Theorem predict_ecg_batch_cleans_up (request_files : list (string * list (upload C)))
  (fs : file_system) :
  let after := snd (predict_batch request_files fs) in
  (forall files, dict_get request_files "files" = Some files ->
     (sleeps fs <= sleeps after <= sleeps fs + 4 * List.length files)%nat) /\
  (removable remove_raises -> named_paths mkstemp ->
   forall p, In p (existing_files after) -> In p (existing_files fs)) /\
  (removable remove_raises -> named_paths mkstemp -> fresh_paths mkstemp fs ->
   existing_files after = existing_files fs).
Proof.
  cbv zeta. unfold predict_batch, predict_ecg_batch.
  destruct (dict_get request_files "files") as [files|];
    [|cbn [snd]; split; [discriminate | auto]].
  destruct (match files with [] => true | _ => false end
            || forallb (fun f => String.eqb (filename f) "") files).
  - cbn [snd]. split; [|auto]. intros fl Hfl. lia.
  - cbn [snd]. fold (batch_loop files [] fs).
    destruct (predict_batch_loop_fs files [] fs) as [Hs [Hsub Heq]].
    split; [|split; assumption].
    intros fl Hfl. injection Hfl as <-. exact Hs.
Qed.

End ServerProperties.

Lemma process_ecg_file_reads_selected_column_witness :
  process_ecg_file_from_csv (lib_with_wfdb [500]) sign_classifier (unit_scaler 250)
    three_labels read_csv_text "time,ecg"%string
  = Threw (EnvironmentError "No columns to parse from file").
Proof.
  apply (proj2 (proj2 (process_ecg_file_reads_selected_column (lib_with_wfdb [500])
                         sign_classifier (unit_scaler 250) three_labels read_csv_text
                         "time,ecg"%string))).
  reflexivity.
Defined.

Lemma predict_ecg_status_codes_witness :
  snd (fst (predict_ecg (lib_with_wfdb [500]) sign_classifier (unit_scaler 250) three_labels
              read_csv_text (fun name => name) temp_path save_ok locked_twice
              [("file"%string, {| filename := "record.CSV"%string; content := "ecg"%string |})]
              no_files)) = 200.
Proof.
  pose proof (predict_ecg_status_codes (lib_with_wfdb [500]) sign_classifier (unit_scaler 250)
                three_labels read_csv_text (fun name => name) temp_path save_ok locked_twice
                [("file"%string, {| filename := "record.CSV"%string; content := "ecg"%string |})]
                no_files) as H.
  cbv zeta in H. destruct H as [_ [_ [_ [_ [H _]]]]].
  eapply H. vm_compute. reflexivity.
Defined.

Lemma predict_ecg_cleans_up_witness :
  existing_files
    (snd (predict_ecg (lib_with_wfdb [500]) sign_classifier (unit_scaler 250) three_labels
            read_csv_text (fun name => name) temp_path save_ok locked_twice
            [("file"%string, {| filename := "record.csv"%string; content := "time"%string |})]
            no_files)) = [].
Proof.
  apply (proj2 (proj2 (proj2
           (predict_ecg_cleans_up (lib_with_wfdb [500]) sign_classifier (unit_scaler 250)
              three_labels read_csv_text (fun name => name) temp_path save_ok locked_twice
              [("file"%string,
                {| filename := "record.csv"%string; content := "time"%string |})]
              no_files)))).
  - intros path. exists 2%nat. split; [lia | reflexivity].
  - intros prefix path Hpath. injection Hpath as <-. discriminate.
  - intros prefix path _ Hin. destruct Hin.
Defined.

Lemma predict_ecg_batch_results_witness :
  exists results successful,
    fst (fst (predict_ecg_batch (lib_with_wfdb [500]) sign_classifier (unit_scaler 250)
                three_labels read_csv_text (fun name => name) temp_path save_ok locked_twice
                [("files"%string,
                  [{| filename := "a.csv"%string; content := "ecg"%string |};
                   {| filename := ""%string; content := "ecg"%string |};
                   {| filename := "b.txt"%string; content := "ecg"%string |}])]
                no_files))
    = BatchResults results 3 successful /\
    py_len results = 2.
Proof.
  destruct (proj2 (proj2 (proj2
              (predict_ecg_batch_results (lib_with_wfdb [500]) sign_classifier
                 (unit_scaler 250) three_labels read_csv_text (fun name => name) temp_path
                 save_ok locked_twice
                 [("files"%string,
                   [{| filename := "a.csv"%string; content := "ecg"%string |};
                    {| filename := ""%string; content := "ecg"%string |};
                    {| filename := "b.txt"%string; content := "ecg"%string |}])]
                 no_files)))
              [{| filename := "a.csv"%string; content := "ecg"%string |};
               {| filename := ""%string; content := "ecg"%string |};
               {| filename := "b.txt"%string; content := "ecg"%string |}]
              eq_refl)
    as [results [successful [Hanswer [_ [Hlen _]]]]].
  - vm_compute. discriminate.
  - exists results, successful. split; [exact Hanswer | exact Hlen].
Defined.

Lemma predict_ecg_batch_cleans_up_witness :
  existing_files
    (snd (predict_ecg_batch (lib_with_wfdb [500]) sign_classifier (unit_scaler 250)
            three_labels read_csv_text (fun name => name) temp_path save_ok locked_twice
            [("files"%string,
              [{| filename := "a.csv"%string; content := "ecg"%string |};
               {| filename := "b.csv"%string; content := "time"%string |}])]
            no_files)) = [].
Proof.
  apply (proj2 (proj2
           (predict_ecg_batch_cleans_up (lib_with_wfdb [500]) sign_classifier
              (unit_scaler 250) three_labels read_csv_text (fun name => name) temp_path
              save_ok locked_twice
              [("files"%string,
                [{| filename := "a.csv"%string; content := "ecg"%string |};
                 {| filename := "b.csv"%string; content := "time"%string |}])]
              no_files))).
  - intros path. exists 2%nat. split; [lia | reflexivity].
  - intros prefix path Hpath. injection Hpath as <-. discriminate.
  - intros prefix path _ Hin. destruct Hin.
Defined.
